(** * VFS: a filesystem wrapper over FatFs, LittleFS and JesFs

    Shallow embedding of [src/vfs.h] and [src/vfs.c] and the properties
    claimed about them.  C integers are mathematical integers ([Z]) with the
    wrap-around of their width written out; C strings are [string]s, read
    through [peek] the way the code reads [*p], so that a NUL byte ends a
    string wherever it stands. *)

From Stdlib Require Import ZArith List String Ascii Bool Lia.
Import ListNotations.

Local Open Scope Z_scope.

(** * Part I: the program *)

(** ** Machine integers *)

Module CInt.

Definition UINT32_MAX : Z := 4294967295.

(** Value of an expression stored in a [uint32_t] (also [DWORD], and
    [size_t] on the 32-bit targets the wrapper is built for). *)
Definition u32 (x : Z) : Z := x mod 2 ^ 32.

(** Value stored in a [WORD] (16 bits) and in a [uint8_t]. *)
Definition u16 (x : Z) : Z := x mod 2 ^ 16.
Definition u8 (x : Z) : Z := x mod 2 ^ 8.
Definition u64 (x : Z) : Z := x mod 2 ^ 64.

(** Conversion of an unsigned 32-bit pattern to [int] and to [int8_t]. *)
Definition s32 (x : Z) : Z :=
  let y := u32 x in if y <? 2 ^ 31 then y else y - 2 ^ 32.
Definition s8 (x : Z) : Z :=
  let y := u8 x in if y <? 2 ^ 7 then y else y - 2 ^ 8.

(** Conversion to [int16_t]: the low 16 bits, read as a signed number. *)
Definition s16 (x : Z) : Z :=
  let y := u16 x in if y <? 2 ^ 15 then y else y - 2 ^ 16.

(** [x << n] and [x >> n] on a [uint32_t]. *)
Definition shl32 (x n : Z) : Z := u32 (Z.shiftl x n).
Definition shr32 (x n : Z) : Z := Z.shiftr x n.

End CInt.
Import CInt.

(** ** Inode numbers (vfs.h, lines 80-91) *)

Module Inode.

Section Widths.

(** The two configuration constants; [vfs.h] defaults them to 2 and 10,
    [vfs_conf_template.h] sets 1 and 7. *)
Variables INODE_STORAGE_BITS INODE_FOLDER_BITS : Z.

Definition INODE_ITEM_BITS : Z :=
  32 - INODE_FOLDER_BITS - INODE_STORAGE_BITS.
Definition INODE_ITEM_MASK : Z :=
  shr32 UINT32_MAX (INODE_FOLDER_BITS + INODE_STORAGE_BITS).
Definition INODE_STORAGE_MASK : Z :=
  shl32 UINT32_MAX (INODE_ITEM_BITS + INODE_FOLDER_BITS).
Definition INODE_FOLDER_MASK : Z :=
  Z.land (shr32 UINT32_MAX INODE_STORAGE_BITS)
         (shl32 UINT32_MAX INODE_ITEM_BITS).
Definition INODE_STORAGE (x : Z) : Z :=
  shr32 x (32 - INODE_STORAGE_BITS).
Definition INODE_FOLDER (x : Z) : Z :=
  shr32 (Z.land x INODE_FOLDER_MASK)
        (32 - INODE_FOLDER_BITS - INODE_STORAGE_BITS).

(** The packing the round-trip property speaks of: storage in the top
    bits, folder just above the item bits, item masked to its width.
    The header only has the decoding macros; this composition follows
    the wording of the property. *)
Definition inode_pack (s f i : Z) : Z :=
  Z.lor (Z.lor (shl32 s (32 - INODE_STORAGE_BITS))
               (shl32 f INODE_ITEM_BITS))
        (Z.land i INODE_ITEM_MASK).

End Widths.

End Inode.

(** ** C strings and <ctype.h> *)

Module CStr.

(** [*p]: the character under the cursor, NUL at the end of the string. *)
Definition peek (s : string) : ascii :=
  match s with
  | EmptyString => zero
  | String c _ => c
  end.

(** [p + 1]: the cursor moved one character on.  The code never moves a
    cursor beyond the terminating NUL and reads it afterwards. *)
Definition next (s : string) : string :=
  match s with
  | EmptyString => EmptyString
  | String _ r => r
  end.

Definition is_nul (c : ascii) : bool := Ascii.eqb c zero.

(** [toupper] and [tolower] in the "C" locale. *)
Definition toupper (c : ascii) : ascii :=
  let n := nat_of_ascii c in
  if ((97 <=? n) && (n <=? 122))%nat then ascii_of_nat (n - 32) else c.

Definition tolower (c : ascii) : ascii :=
  let n := nat_of_ascii c in
  if ((65 <=? n) && (n <=? 90))%nat then ascii_of_nat (n + 32) else c.

(** A string as C sees it has no NUL before its end. *)
Fixpoint nonul (s : string) : Prop :=
  match s with
  | EmptyString => True
  | String c r => c <> zero /\ nonul r
  end.

(** [p + k]. *)
Fixpoint drop (k : nat) (s : string) : string :=
  match k, s with
  | O, _ => s
  | S k', String _ r => drop k' r
  | S _, EmptyString => EmptyString
  end.

End CStr.
Import CStr.

(** ** Wildcard matcher (vfs.c, lines 1431-1494) *)

Module Wildcard.

Definition is_wild (c : ascii) : bool :=
  Ascii.eqb c "?"%char || Ascii.eqb c "*"%char.

(** [while (skip-- != 0) if (!toupper( *nam++)) return 0;]
    [skip] is the number of [?] of a wildcard block and never negative. *)
Fixpoint pre_skip (skip : nat) (nam : string) : option string :=
  match skip with
  | O => Some nam
  | S k => if is_nul (toupper (peek nam)) then None else pre_skip k (next nam)
  end.

(** How one pass of the inner [for (;;)] ends: by [return true], or by a
    [break] that leaves the name character [nc] behind. *)
Inductive branch : Type :=
| Matched
| Mismatched (nc : ascii).

Section Branch.

(** The recursive call [pattern_matching(pp, np, nm, nx)]. *)
Variable rec : string -> string -> nat -> Z -> bool.

(** The rest of the loop [do { if ( *pp++ == '?') nm++; else nx = 1; }
    while ( *pp == '?' || *pp == '*')] after its first round, followed by the
    test of the new branch and [nc = *np; break]. *)
Definition wild_run (np : string) : string -> nat -> Z -> branch :=
  fix run (pp : string) (nm : nat) (nx : Z) {struct pp} : branch :=
    match pp with
    | String c pp' =>
        if is_wild c then
          if Ascii.eqb c "?"%char then run pp' (S nm) nx else run pp' nm 1
        else if rec pp np nm nx then Matched else Mismatched (peek np)
    | EmptyString =>
        if rec pp np nm nx then Matched else Mismatched (peek np)
    end.

(** The inner [for (;;)] from [pp = pat; np = nam]. *)
Definition scan : string -> string -> branch :=
  fix scan (pp np : string) {struct pp} : branch :=
    match pp with
    | String c pp' =>
        if is_wild c then
          (* nm = nx = 0, and the first round of the do-while *)
          if Ascii.eqb c "?"%char then wild_run np pp' 1%nat 0
          else wild_run np pp' 0%nat 1
        else
          let pc := toupper c in
          let nc := toupper (peek np) in
          if negb (Ascii.eqb pc nc) then Mismatched nc
          else if is_nul pc then Matched
          else scan pp' (next np)
    | EmptyString =>
        let pc := toupper zero in
        let nc := toupper (peek np) in
        if negb (Ascii.eqb pc nc) then Mismatched nc else Matched
    end.

(** The outer [do { ... nam++; } while ((inf != 0) && (nc != 0))].  When [nc]
    is not NUL the name has a character left at [nam] (lemma
    [scan_nc_name_left]), so the last branch is never taken. *)
Definition retry (pat : string) (inf : Z) : string -> bool :=
  fix retry (nam : string) : bool :=
    match scan pat nam with
    | Matched => true
    | Mismatched nc =>
        if negb (inf =? 0) && negb (is_nul nc) then
          match nam with
          | String _ nam' => retry nam'
          | EmptyString => false
          end
        else false
    end.

End Branch.

Fixpoint pattern_matching (pat nam : string) (skip : nat) (inf : Z)
  {struct pat} : bool :=
  match pre_skip skip nam with
  | None => false                       (* less name chars *)
  | Some nam =>
      if is_nul (peek pat) && negb (inf =? 0) then true   (* short circuit *)
      else retry pattern_matching pat inf nam
  end.

(** What the patterns mean: a literal stands for one character up to case,
    [?] for exactly one character, [*] for any number of them. *)
Inductive wild : string -> string -> Prop :=
| wild_end : wild EmptyString EmptyString
| wild_lit c d p n :
    is_wild c = false -> toupper c = toupper d ->
    wild p n -> wild (String c p) (String d n)
| wild_one d p n :
    wild p n -> wild (String "?"%char p) (String d n)
| wild_star_none p n :
    wild p n -> wild (String "*"%char p) n
| wild_star_more d p n :
    wild (String "*"%char p) n -> wild (String "*"%char p) (String d n).

(** *** Specification side *)

(** A wildcard block with [nm] question marks, starred when [nx] is not 0,
    in front of the pattern [pp]: [nm] characters skipped, more after a
    star, then [pp]. *)
Definition after_run (nm : nat) (nx : Z) (pp np : string) : Prop :=
  exists k, (nm <= k <= String.length np)%nat /\ (nx = 0 -> k = nm) /\
            wild pp (drop k np).

(** What the recursive call has to satisfy on patterns shorter than [n]. *)
Definition rec_spec (rec : string -> string -> nat -> Z -> bool) (n : nat) :=
  forall pp np nm nx,
    (String.length pp < n)%nat -> nonul pp -> nonul np ->
    (rec pp np nm nx = true <-> after_run nm nx pp np).

(** Leading literal characters of a pattern. *)
Fixpoint lit_len (p : string) : nat :=
  match p with
  | EmptyString => O
  | String c r => if is_wild c then O else S (lit_len r)
  end.

End Wildcard.

(** ** FAT timestamps (vfs.c, lines 116-225) *)

Module Timestamp.

(** The four packed fields of FatFs's [FILINFO] the codec touches; each is a
    [WORD].  The code is the variant for FatFs revisions with creation time
    ([_FATFS <= 32020]); the other variant is this one at [modified = true]. *)
Record FILINFO : Type := mkFILINFO {
  fdate : Z;
  ftime : Z;
  fcdate : Z;
  fctime : Z
}.

(** The fields of [struct tm] that [_ff_fat_timedate] reads. *)
Record tm : Type := mktm {
  tm_sec : Z;
  tm_min : Z;
  tm_hour : Z;
  tm_mday : Z;
  tm_mon : Z;          (* months since January *)
  tm_year : Z          (* years since 1900 *)
}.

(** [__isleap(year)]. *)
Definition isleap (year : Z) : bool :=
  (Z.rem year 4 =? 0) &&
  (negb (Z.rem year 100 =? 0) || (Z.rem year 400 =? 0)).

Definition vMonths : list (list Z) :=
  [ [31; 28; 31; 30; 31; 30; 31; 31; 30; 31; 30; 31];    (* Not leap year *)
    [31; 29; 31; 30; 31; 30; 31; 31; 30; 31; 30; 31] ].  (* Leap year *)

(** [vMonths[leap][x]] for [x] from 0 on; [None] beyond the twelve entries
    of the row, where C leaves the access undefined (in memory it is the next
    row, or what follows the array). *)
Definition vMonths_at (leap : bool) (x : Z) : option Z :=
  nth_error (nth (if leap then 1%nat else 0%nat) vMonths []) (Z.to_nat x).

(** [for (; y < x; y++) t += __isleap(y) ? 366 : 365;] run for [n] rounds. *)
Fixpoint add_years (n : nat) (y t : Z) : Z * Z :=
  match n with
  | O => (y, t)
  | S k => add_years k (y + 1) (t + (if isleap y then 366 else 365))
  end.

(** [for (x = 0; x < ...; x++) t += vMonths[__isleap(y)][x];] for [n] rounds
    from column [x]. *)
Fixpoint add_months (n : nat) (leap : bool) (x t : Z) : option Z :=
  match n with
  | O => Some t
  | S k =>
      match vMonths_at leap x with
      | Some d => add_months k leap (x + 1) (t + d)
      | None => None
      end
  end.

(** Days from the epoch to the first day of month [mon] of year [x]: the
    two loops of [_ff_timestamp]. *)
Definition days_to_month (x mon : Z) : option Z :=
  let '(y, t) :=
    if 2018 <? x then (2018, 1514764800 / 86400) else (1970, 0) in
  let '(y, t) := add_years (Z.to_nat (x - y)) y t in
  add_months (Z.to_nat (mon - 1)) (isleap y) 0 t.

(** Days since the epoch that the date field [n] stands for; [None] for a
    month field of 14 or 15, which reads beyond a row of [vMonths]. *)
Definition date_days (n : Z) : option Z :=
  let x := Z.land (Z.shiftr n 9) 127 + 1980 in
  match days_to_month x (Z.land (Z.shiftr n 5) 15) with
  | Some t => Some (t + (Z.land n 31 - 1))
  | None => None
  end.

(** Seconds into the day that the time field [n] stands for. *)
Definition time_secs (n : Z) : Z :=
  3600 * Z.land (Z.shiftr n 11) 31 +
  60 * Z.land (Z.shiftr n 5) 63 +
  2 * Z.land (Z.shiftr n 0) 31.

(** [_ff_timestamp(info, modified)]; [time_t] is taken wide enough for the
    result (64 bits), which stays below 2^33.  [None] where the date field
    makes the loop over the months read beyond its row. *)
Definition _ff_timestamp (info : FILINFO) (modified : bool) : option Z :=
  let n := if modified then fdate info else fcdate info in
  match date_days n with
  | Some t =>
      let t := t * 86400 in
      let n := if modified then ftime info else fctime info in
      Some (t + time_secs n)
  | None => None
  end.

(** The packed date [v] built from [p]. *)
Definition fat_date (p : tm) : Z :=
  if 80 <? tm_year p then
    let v := u16 (Z.shiftl (Z.land (tm_year p - 80) 127) 9) in
    let v := u16 (Z.lor v (Z.shiftl (tm_mon p + 1) 5)) in
    u16 (Z.lor v (Z.shiftl (tm_mday p) 0))
  else 0.

(** The packed time [v] built from [p]. *)
Definition fat_time (p : tm) : Z :=
  let v := u16 (Z.shiftl (tm_hour p) 11) in
  let v := u16 (Z.lor v (Z.shiftl (tm_min p) 5)) in
  u16 (Z.lor v (Z.shiftl (Z.quot (tm_sec p) 2) 0)).

(** [_ff_fat_timedate(info, julian, modified)], on [p = gmtime(&julian)]. *)
Definition _ff_fat_timedate (info : FILINFO) (p : tm) (modified : bool)
  : FILINFO :=
  let info :=
    if modified
    then mkFILINFO (fat_date p) (ftime info) (fcdate info) (fctime info)
    else mkFILINFO (fdate info) (ftime info) (fat_date p) (fctime info) in
  if modified
  then mkFILINFO (fdate info) (fat_time p) (fcdate info) (fctime info)
  else mkFILINFO (fdate info) (ftime info) (fcdate info) (fat_time p).

(** *** Specification side *)

(** Days from 1970-01-01 to the civil date [y]-[m]-[d] of the proleptic
    Gregorian calendar, by the era/day-of-era formula. *)
Definition days_from_civil (y m d : Z) : Z :=
  let y := if m <=? 2 then y - 1 else y in
  let era := y / 400 in
  let yoe := y - era * 400 in
  let doy := (153 * (m + (if 2 <? m then -3 else 9)) + 2) / 5 + d - 1 in
  let doe := yoe * 365 + yoe / 4 - yoe / 100 + doy in
  era * 146097 + doe - 719468.

(** Seconds since the epoch of the broken-down UTC time [p]. *)
Definition timegm (p : tm) : Z :=
  days_from_civil (tm_year p + 1900) (tm_mon p + 1) (tm_mday p) * 86400 +
  tm_hour p * 3600 + tm_min p * 60 + tm_sec p.

(** [p] with its seconds cut to the 2-second resolution of the format. *)
Definition even_secs (p : tm) : tm :=
  mktm (2 * (tm_sec p / 2)) (tm_min p) (tm_hour p)
       (tm_mday p) (tm_mon p) (tm_year p).

Definition blank : FILINFO := mkFILINFO 0 0 0 0.

(** A date-time of the range the round trip is claimed for. *)
Definition in_range (first_year : Z) (p : tm) : Prop :=
  first_year <= tm_year p + 1900 <= 2107 /\
  1 <= tm_mon p + 1 <= 12 /\ 1 <= tm_mday p <= 28 /\
  0 <= tm_hour p <= 23 /\ 0 <= tm_min p <= 59 /\ 0 <= tm_sec p <= 59.

(** [P] holds on the [n] integers from [lo] on. *)
Fixpoint all_from (n : nat) (lo : Z) (P : Z -> bool) : bool :=
  match n with
  | O => true
  | S k => P lo && all_from k (lo + 1) P
  end.

(** The decoder finds the three fields in the date the encoder packed. *)
Definition fields_ok (yo mo d : Z) : bool :=
  let n := fat_date (mktm 0 0 0 d mo yo) in
  (Z.land (Z.shiftr n 9) 127 =? yo - 80) &&
  (Z.land (Z.shiftr n 5) 15 =? mo + 1) &&
  (Z.land n 31 =? d).

Definition month_ok (yo mo : Z) : bool :=
  match days_to_month (yo + 1900) (mo + 1) with
  | Some t => t =? days_from_civil (yo + 1900) (mo + 1) 1
  | None => false
  end.

Definition time_ok (h mi sec : Z) : bool :=
  time_secs (fat_time (mktm sec mi h 0 0 0))
  =? h * 3600 + mi * 60 + 2 * (sec / 2).

(** A date-time of the calendar from 1981 to 2107. *)
Definition on_calendar (p : tm) : Prop :=
  1981 <= tm_year p + 1900 <= 2107 /\
  0 <= tm_mon p <= 11 /\ 1 <= tm_mday p <= 31 /\
  0 <= tm_hour p <= 23 /\ 0 <= tm_min p <= 59 /\ 0 <= tm_sec p <= 59.

End Timestamp.

(** ** Streaming CRC-32 (vfs.c, lines 2990-3031) *)

Module Crc.

(** Nibble lookup table for the 0x04C11DB7 polynomial. *)
Definition CrcTable : list Z :=
  [ 0x00000000; 0x04C11DB7; 0x09823B6E; 0x0D4326D9;
    0x130476DC; 0x17C56B6B; 0x1A864DB2; 0x1E475005;
    0x2608EDB8; 0x22C9F00F; 0x2F8AD6D6; 0x2B4BCB61;
    0x350C9B64; 0x31CD86D3; 0x3C8EA00A; 0x384FBDBD ].

(** [*pCrc = ( *pCrc << 4) ^ CrcTable[*pCrc >> 28];] *)
Definition crc_round (crc : Z) : Z :=
  Z.lxor (shl32 crc 4) (nth (Z.to_nat (shr32 crc 28)) CrcTable 0).

(** One round of the [while]: the word applied, then 8 rounds of 4 bits. *)
Definition crc_word (crc w : Z) : Z :=
  let crc := Z.lxor crc w in
  crc_round (crc_round (crc_round (crc_round
    (crc_round (crc_round (crc_round (crc_round crc))))))).

Fixpoint crc_words (crc : Z) (ws : list Z) {struct ws} : Z :=
  match ws with
  | [] => crc
  | w :: ws' => crc_words (crc_word crc w) ws'
  end.

(** [CRC_FUNC(pCrc, pUint32, vLen, vInit)]: the new value of [*pCrc], which
    is also what the function returns.  [crc] is the value [*pCrc] holds on
    entry, [pUint32] the words at the pointer; the first [vLen] are read. *)
Definition CRC_FUNC (crc : Z) (pUint32 : list Z) (vLen : Z) (vInit : bool)
  : Z :=
  let crc := if vInit then 0xFFFFFFFF else crc in
  crc_words crc (firstn (Z.to_nat vLen) pUint32).

(** **** Specification side *)

(** The CRC-32 register advanced by one bit, most significant bit first,
    polynomial 0x04C11DB7; and by the four bits of a nibble. *)
Definition POLY : Z := 0x04C11DB7.
Definition poly_step (crc : Z) : Z :=
  Z.lxor (shl32 crc 1) (if Z.testbit crc 31 then POLY else 0).
Definition poly_nibble (crc : Z) : Z :=
  poly_step (poly_step (poly_step (poly_step crc))).

(** The CRC-32 of polynomial 0x04C11DB7 taken one bit at a time: each word
    is added to the register and followed by 32 steps of one bit. *)
Fixpoint crc_bits (crc : Z) (ws : list Z) {struct ws} : Z :=
  match ws with
  | [] => crc
  | w :: ws' => crc_bits (Nat.iter 8 poly_nibble (Z.lxor crc w)) ws'
  end.

End Crc.

(** ** The wrapper (vfs.c) *)

Module Vfs.

(** *** Constants *)

(** <errno.h> (newlib numbering). *)
Definition EIO : Z := 5.
Definition ENOENT : Z := 2.
Definition ENXIO : Z := 6.
Definition EBADF : Z := 9.
Definition ENOMEM : Z := 12.
Definition EBUSY : Z := 16.
Definition EEXIST : Z := 17.
Definition ENODEV : Z := 19.
Definition ENOTDIR : Z := 20.
Definition EINVAL : Z := 22.
Definition EMFILE : Z := 24.
Definition ENOSPC : Z := 28.
Definition EROFS : Z := 30.
Definition ENOLCK : Z := 46.
Definition EDOOFUS : Z := 88.
Definition ETIMEDOUT : Z := 116.

(** <stdio.h>. *)
Definition SEEK_SET : Z := 0.
Definition SEEK_CUR : Z := 1.
Definition SEEK_END : Z := 2.

Definition MAX_PATH : Z := 64.

(** Open flags and attribute bits of vfs.h. *)
Definition VFS_RDONLY : Z := 0x01.
Definition VFS_WRONLY : Z := 0x02.
Definition VFS_RDWR : Z := 0x03.
Definition VFS_CREAT : Z := 0x10.
Definition VFS_EXCL : Z := 0x20.
Definition VFS_TRUNC : Z := 0x40.
Definition VFS_APPEND : Z := 0x80.

Definition ATR_IREAD : Z := 0x01.
Definition ATR_IWRITE : Z := 0x02.
Definition ATR_IEXEC : Z := 0x04.
Definition ATR_HID : Z := 0x08.
Definition ATR_SYS : Z := 0x10.
Definition ATR_REG : Z := 0x40.
Definition ATR_DIR : Z := 0x80.
Definition ATR_REMOVABLE_DISK : Z := 0x10.
Definition ATR_FLAT_FILESYSTEM : Z := 0x20.

(** [Fs_t]. *)
Definition FS_NONE : Z := 0.
Definition FS_ROOT : Z := 1.
Definition FS_FATFS : Z := 2.
Definition FS_LITTLEFS : Z := 3.
Definition FS_JESFS : Z := 4.
Definition FS_ANYFS : Z := 5.
Definition FS_FIXED : Z := 0x80.

Inductive VfsEvent_t : Type :=
| EVT_MOUNT
| EVT_UNMOUNT
| EVT_MOUNT_FAIL.

Definition LFS_ATTR_LABEL : Z := 0x70.
Definition LFS_ATTR_CREATE : Z := 0x74.
Definition LFS_ATTR_MODIFY : Z := 0x75.

(** [FRESULT], numbered as the comments of [_ff_errno] number it. *)
Definition FR_OK : Z := 0.
Definition FR_DISK_ERR : Z := 1.
Definition FR_INT_ERR : Z := 2.
Definition FR_NOT_READY : Z := 3.
Definition FR_NO_FILE : Z := 4.
Definition FR_NO_PATH : Z := 5.
Definition FR_INVALID_NAME : Z := 6.
Definition FR_DENIED : Z := 7.
Definition FR_EXIST : Z := 8.
Definition FR_INVALID_OBJECT : Z := 9.
Definition FR_WRITE_PROTECTED : Z := 10.
Definition FR_INVALID_DRIVE : Z := 11.
Definition FR_NOT_ENABLED : Z := 12.
Definition FR_NO_FILESYSTEM : Z := 13.
Definition FR_MKFS_ABORTED : Z := 14.
Definition FR_TIMEOUT : Z := 15.
Definition FR_LOCKED : Z := 16.
Definition FR_NOT_ENOUGH_CORE : Z := 17.
Definition FR_TOO_MANY_OPEN_FILES : Z := 18.
Definition FR_INVALID_PARAMETER : Z := 19.

(** Constants of the wrapped libraries' headers (ff.h, lfs.h, jesfs.h),
    which are not part of the sources: the wrapper is read for any values. *)
Class Headers : Type := {
  FA_READ : Z;
  FA_WRITE : Z;
  FA_CREATE_NEW : Z;
  FA_CREATE_ALWAYS : Z;
  FA_OPEN_ALWAYS : Z;
  AM_RDO : Z;
  AM_HID : Z;
  AM_SYS : Z;
  AM_DIR : Z;
  FF_MAX_SS : Z;
  FF_USE_LABEL : bool;
  LFS_O_RDONLY : Z;
  LFS_O_WRONLY : Z;
  LFS_O_CREAT : Z;
  LFS_O_EXCL : Z;
  LFS_O_TRUNC : Z;
  LFS_ERR_NOATTR : Z;
  LFS_TYPE_DIR : Z;
  LFS_SEEK_SET : Z;
  SF_OPEN_READ : Z;
  SF_OPEN_CREATE : Z;
  SF_OPEN_WRITE : Z;
  SF_OPEN_RAW : Z;
  SF_OPEN_CRC : Z;
  FS_STAT_ACTIVE : Z;
  FS_START_NORMAL : Z;
  FS_FORMAT_SOFT : Z;
  SF_SECTOR_PH : Z;
  FNAMELEN : nat
}.

(** The widths of the inode fields, set in vfs.h or vfs_conf.h. *)
Class Config : Type := {
  INODE_STORAGE_BITS : Z;
  INODE_FOLDER_BITS : Z;
  FATFS_CREATE_DT : bool     (* whether the macro is defined *)
}.

Definition INODE_ITEM_BITS `{Config} : Z :=
  Inode.INODE_ITEM_BITS INODE_STORAGE_BITS INODE_FOLDER_BITS.

(** *** Data *)

(** The first pointer of the union of [FileSystem_t] ([fatfs.fs], [lfs.fs]):
    null, a static object named in the configuration table, or a block
    [vfs_malloc] returned.  [vfs_malloc_usable_size] is nonzero on the last
    kind only. *)
Inductive FsPtr : Type :=
| PtrNull
| PtrStatic
| PtrHeap.

Record FileSystem_t : Type := mkFileSystem {
  drive : string;
  fs : FsPtr;
  eventcb : bool;          (* a callback is registered *)
  type : Z;                (* Fs_t *)
  index : Z;               (* int8_t *)
  namelen : Z              (* uint8_t *)
}.

(** A [FileSystem_t*]: null, [&vFileSystem[i]] or [&vRootSystem[0]]. *)
Inductive FsRef : Type :=
| RefNull
| RefEntry (i : nat)
| RefRoot.

Definition vRootSystem : FileSystem_t :=
  mkFileSystem EmptyString PtrNull false FS_ROOT 0 0.

(** The fields of JesFs's [FS_DESC] the wrapper reads and writes. *)
Record FS_DESC : Type := mkFS_DESC {
  file_pos : Z;
  file_len : Z;
  file_ctime : Z
}.

(** [VfsFile_t].  The FatFs and LittleFS payloads ([FIL], [lfs_file_t]) are
    owned by those libraries; [fp] stands for the address of the handle,
    by which they know the payload. *)
Record VfsFile_t : Type := mkVfsFile {
  filesys : FsRef;
  fp : nat;
  modified : Z;            (* time_t, LittleFS only *)
  jes : FS_DESC
}.

(** [VfsDir_t]; [dp] stands for the address of the handle. *)
Record VfsDir_t : Type := mkVfsDir {
  dir_filesys : FsRef;
  dp : nat;
  root : Z;                (* int, the cursor of the root listing *)
  lfspath : string;
  fno : Z;                 (* uint16_t, JesFs *)
  pattern : option string
}.

Record VfsInfo_t : Type := mkVfsInfo {
  name : string;
  size : Z;                (* uint64_t *)
  created : Z;
  info_modified : Z;
  attrib : Z;              (* uint8_t *)
  device : Z;              (* uint8_t *)
  inode : Z;               (* uint32_t *)
  blocks : Z;              (* uint32_t *)
  blocksize : Z            (* uint32_t *)
}.

(** FatFs's [FILINFO] as [f_readdir] and [f_stat] fill it; [fno_inode] is
    the field the wrapper's FatFs carries. *)
Record FILINFO : Type := mkFILINFO {
  fname : string;
  fsize : Z;
  fattrib : Z;
  fno_inode : Z;
  stamps : Timestamp.FILINFO
}.

Record lfs_info : Type := mklfs_info {
  lfs_type : Z;
  lfs_size : Z;
  lfs_name : string
}.

Record FS_STAT : Type := mkFS_STAT {
  stat_fname : string;
  stat_file_len : Z;
  stat_file_ctime : Z
}.

(** JesFs's global [sflash_info]. *)
Record SFLASH_INFO : Type := mkSFLASH_INFO {
  total_flash_size : Z;
  available_disk_size : Z;
  creation_date : Z
}.

(** Value of a LittleFS attribute buffer. *)
Inductive attr_val : Type :=
| AttrTime (t : Z)
| AttrStr (s : string).

(** *** The wrapped libraries

    Every call that leaves the wrapper, with what comes back: the return
    value, and the contents of the buffers the callee filled. *)

Inductive Call : Type -> Type :=
(* libc and the allocator *)
| vfs_malloc : Call bool
| vfs_free : Call unit
| time : Call Z
| gmtime (t : Z) : Call Timestamp.tm
(* FatFs *)
| f_open (fp : nat) (path : string) (mode : Z) : Call Z
| f_close (fp : nat) : Call Z
| f_read (fp : nat) (btr : Z) : Call (Z * list Z)
| f_lseek (fp : nat) (ofs : Z) : Call Z
| f_tell (fp : nat) : Call Z
| f_size (fp : nat) : Call Z
| f_opendir (dp : nat) (path : string) : Call Z
| f_closedir (dp : nat) : Call Z
| f_readdir (dp : nat) : Call (Z * FILINFO)
| f_stat (path : string) : Call (Z * FILINFO)
| f_getfree (path : string) : Call (Z * (Z * FsPtr * Z * Z))
    (* FRESULT; nclst, the FATFS pointer stored, its csize and n_fatent *)
| f_getlabel (path : string) : Call (Z * string)
| f_setlabel (label : string) : Call Z
| f_mkdir (path : string) : Call Z
| f_unlink (path : string) : Call Z
| f_rename (oldpath newpath : string) : Call Z
| f_chmod (path : string) (attr mask : Z) : Call Z
| f_utime (path : string) (fno : Timestamp.FILINFO) : Call Z
| f_mount (fs : FsPtr) (path : string) (opt : Z) : Call Z
| f_mkfs (path : string) : Call Z
| fatfs_csize (i : nat) : Call Z       (* fatfs.fs->csize of entry [i] *)
(* LittleFS; [i] stands for the [lfs_t] of entry [i] *)
| lfs_file_opencfg (i : nat) (fp : nat) (path : string) (flags : Z) : Call Z
| lfs_file_close (i : nat) (fp : nat) : Call Z
| lfs_file_read (i : nat) (fp : nat) (size : Z) : Call (Z * list Z)
| lfs_file_seek (i : nat) (fp : nat) (off whence : Z) : Call Z
| lfs_dir_open (i : nat) (dp : nat) (path : string) : Call Z
| lfs_dir_close (i : nat) (dp : nat) : Call Z
| lfs_dir_read (i : nat) (dp : nat) : Call (Z * lfs_info)
| lfs_stat (i : nat) (path : string) : Call (Z * lfs_info)
| lfs_getattr (i : nat) (path : string) (type size : Z)
    : Call (Z * option attr_val)      (* [None]: the buffer is left as it was *)
| lfs_setattr (i : nat) (path : string) (type : Z) (v : attr_val) (size : Z)
    : Call Z
| lfs_fs_size (i : nat) : Call Z
| lfs_block_size (i : nat) : Call Z    (* lfs.cfg->block_size *)
| lfs_block_count (i : nat) : Call Z   (* lfs.cfg->block_count *)
| lfs_mkdir (i : nat) (path : string) : Call Z
| lfs_remove (i : nat) (path : string) : Call Z
| lfs_rename (i : nat) (oldpath newpath : string) : Call Z
| lfs_mount (i : nat) : Call Z
| lfs_unmount (i : nat) : Call Z
| lfs_format (i : nat) : Call Z
(* JesFs *)
| fs_open (path : string) (flags : Z) : Call (Z * FS_DESC)
| fs_close (d : FS_DESC) : Call Z
| fs_read (d : FS_DESC) (len : Z) : Call (Z * list Z * FS_DESC)
| fs_rewind (d : FS_DESC) : Call (Z * FS_DESC)
| fs_delete (d : FS_DESC) : Call Z
| fs_rename (old new : FS_DESC) : Call Z
| fs_info (fno : Z) : Call (Z * FS_STAT)
| fs_start (mode : Z) : Call Z
| fs_format (mode : Z) : Call Z
| sflash_info : Call SFLASH_INFO
| jesfs_label (i : nat) : Call string  (* the string at jesfs.label *)
(* the lifecycle callback of entry [i] *)
| eventcb_call (i : nat) (event : VfsEvent_t) : Call unit.

(** A call and its answer, as the log keeps them. *)
Definition Logged : Type := {R : Type & (Call R * R)%type}.

Definition logged {R : Type} (c : Call R) (r : R) : Logged :=
  existT (fun R => (Call R * R)%type) R (c, r).

(** The wrapped libraries and the medium behind them: a state, and how a
    call is answered in a state. *)
Class Backend : Type := {
  BState : Type;
  respond : forall R : Type, BState -> Call R -> R * BState
}.

Section World.

Context `{Backend}.

(** What the wrapper runs in: the drive table [vFileSystem], the state of
    the libraries, and the calls made so far, oldest first. *)
Record World : Type := mkWorld {
  vFileSystem : list FileSystem_t;
  bk : BState;
  calls : list Logged
}.

(** How a run ends: with a result in a new world, in undefined behaviour
    (a null pointer dereferenced), or out of fuel before its loops ended. *)
Inductive outcome (A : Type) : Type :=
| Ok (a : A) (w : World)
| Undefined
| OutOfFuel.

Definition M (A : Type) : Type := World -> outcome A.

Definition ret {A : Type} (a : A) : M A := fun w => Ok A a w.

Definition bind {A C : Type} (m : M A) (k : A -> M C) : M C :=
  fun w =>
    match m w with
    | Ok _ a w' => k a w'
    | Undefined _ => Undefined C
    | OutOfFuel _ => OutOfFuel C
    end.

Definition undefined {A : Type} : M A := fun _ => Undefined A.

(** The value of an expression that C defines only in part. *)
Definition defined {A : Type} (o : option A) : M A :=
  match o with
  | Some a => ret a
  | None => undefined
  end.
Definition out_of_fuel {A : Type} : M A := fun _ => OutOfFuel A.

(** A call to a wrapped library: answered by the backend and logged. *)
Definition call {R : Type} (c : Call R) : M R :=
  fun w =>
    let '(r, b) := respond R (bk w) c in
    Ok R r (mkWorld (vFileSystem w) b (calls w ++ [logged c r])).

Definition get_table : M (list FileSystem_t) :=
  fun w => Ok _ (vFileSystem w) w.

Definition put_table (t : list FileSystem_t) : M unit :=
  fun w => Ok _ tt (mkWorld t (bk w) (calls w)).

End World.

Arguments Ok {_ _} a w.
Arguments Undefined {_ _}.
Arguments OutOfFuel {_ _}.

Notation "x <- m ;; k" := (bind m (fun x => k))
  (at level 61, m at next level, right associativity).
Notation "' pat <- m ;; k" :=
  (bind m (fun x => match x with pat => k end))
  (at level 61, pat pattern, m at next level, right associativity).
Notation "m ;;; k" := (bind m (fun _ => k))
  (at level 61, right associativity).

(** *** <string.h> *)

Fixpoint strlen (s : string) : nat :=
  match s with
  | EmptyString => O
  | String c r => if is_nul c then O else S (strlen r)
  end.

(** [strncmp(s1, s2, n)]. *)
Fixpoint strncmp (s1 s2 : string) (n : nat) : Z :=
  match n with
  | O => 0
  | S k =>
      let c1 := peek s1 in
      let c2 := peek s2 in
      if negb (Ascii.eqb c1 c2)
      then Z.of_nat (nat_of_ascii c1) - Z.of_nat (nat_of_ascii c2)
      else if is_nul c1 then 0
      else strncmp (next s1) (next s2) k
  end.

(** [strncasecmp(s1, s2, n)]. *)
Fixpoint strncasecmp (s1 s2 : string) (n : nat) : Z :=
  match n with
  | O => 0
  | S k =>
      let c1 := tolower (peek s1) in
      let c2 := tolower (peek s2) in
      if negb (Ascii.eqb c1 c2)
      then Z.of_nat (nat_of_ascii c1) - Z.of_nat (nat_of_ascii c2)
      else if is_nul c1 then 0
      else strncasecmp (next s1) (next s2) k
  end.

(** [strchr(s, c)] for a [c] other than NUL: the string from the first [c]
    on, [None] for a null result. *)
Fixpoint strchr (s : string) (c : ascii) : option string :=
  match s with
  | EmptyString => None
  | String d r =>
      if is_nul d then None
      else if Ascii.eqb d c then Some s
      else strchr r c
  end.

(** [strrchr(s, c)], likewise from the last [c] on. *)
Fixpoint strrchr (s : string) (c : ascii) : option string :=
  match s with
  | EmptyString => None
  | String d r =>
      if is_nul d then None
      else match strrchr r c with
           | Some x => Some x
           | None => if Ascii.eqb d c then Some s else None
           end
  end.

Fixpoint mem_char (c : ascii) (set : string) : bool :=
  match set with
  | EmptyString => false
  | String d r => Ascii.eqb c d || mem_char c r
  end.

(** [strcspn(s, reject)]. *)
Fixpoint strcspn (s reject : string) : nat :=
  match s with
  | EmptyString => O
  | String c r =>
      if is_nul c || mem_char c reject then O else S (strcspn r reject)
  end.

(** The string up to its terminator and at most [k] characters long. *)
Fixpoint take (k : nat) (s : string) : string :=
  match k, s with
  | S k', String c r => if is_nul c then EmptyString else String c (take k' r)
  | _, _ => EmptyString
  end.

(** [path[k]]. *)
Definition char_at (path : string) (k : nat) : ascii := peek (drop k path).

Definition bit_set (flags mask : Z) : bool := negb (Z.land flags mask =? 0).

(** *** Translation helpers (vfs.c, lines 52-441) *)

Definition _ff_errno (err : Z) : Z :=
  let e :=
    if err =? FR_DISK_ERR then EIO
    else if err =? FR_INT_ERR then EDOOFUS
    else if err =? FR_NOT_READY then EBUSY
    else if err =? FR_NO_FILE then ENOENT
    else if err =? FR_NO_PATH then ENOTDIR
    else if err =? FR_INVALID_NAME then EINVAL
    else if err =? FR_DENIED then ENOSPC
    else if err =? FR_EXIST then EEXIST
    else if err =? FR_INVALID_OBJECT then EBADF
    else if err =? FR_WRITE_PROTECTED then EROFS
    else if err =? FR_INVALID_DRIVE then ENODEV
    else if err =? FR_NOT_ENABLED then ENODEV
    else if err =? FR_NO_FILESYSTEM then ENXIO
    else if err =? FR_MKFS_ABORTED then EINVAL
    else if err =? FR_TIMEOUT then ETIMEDOUT
    else if err =? FR_LOCKED then ENOLCK
    else if err =? FR_NOT_ENOUGH_CORE then ENOMEM
    else if err =? FR_TOO_MANY_OPEN_FILES then EMFILE
    else if err =? FR_INVALID_PARAMETER then EINVAL
    else 0 in
  - e.

(** [_jes_errno(err)]; the parameter is an [int16_t], so the argument is
    converted on the call. *)
Definition _jes_errno (err : Z) : Z :=
  let err := s16 err in
  if 0 <=? err then err
  else
    let e :=
      if err =? -108 then ENXIO
      else if err =? -110 then EINVAL
      else if err =? -111 then ENOSPC
      else if err =? -113 then ENOSPC
      else if err =? -124 then ENOENT
      else if err =? -129 then EBADF
      else if err =? -139 then EINVAL
      else if err =? -142 then EBADF
      else if err =? -143 then EBADF
      else if err =? -147 then EBUSY
      else if err =? -148 then EBUSY
      else EIO in
    - e.

Section Helpers.

Context `{Headers}.

Definition _ff_fopen_flag (flags : Z) : Z :=
  let ff := 0 in
  let ff := if bit_set flags VFS_RDONLY then Z.lor ff FA_READ else ff in
  let ff :=
    if bit_set flags VFS_WRONLY then
      let ff := Z.lor ff FA_WRITE in
      let ff :=
        if bit_set flags VFS_TRUNC then Z.lor ff FA_CREATE_ALWAYS else ff in
      let ff :=
        if bit_set flags VFS_EXCL then Z.lor ff FA_CREATE_NEW else ff in
      if bit_set flags VFS_CREAT then Z.lor ff FA_OPEN_ALWAYS else ff
    else ff in
  u8 ff.

Definition _lfs_fopen_flag (flags : Z) : Z :=
  let ff := 0 in
  let ff := if bit_set flags VFS_RDONLY then Z.lor ff LFS_O_RDONLY else ff in
  let ff := if bit_set flags VFS_WRONLY then Z.lor ff LFS_O_WRONLY else ff in
  let ff := if bit_set flags VFS_CREAT then Z.lor ff LFS_O_CREAT else ff in
  let ff := if bit_set flags VFS_EXCL then Z.lor ff LFS_O_EXCL else ff in
  if bit_set flags VFS_TRUNC then Z.lor ff LFS_O_TRUNC else ff.

Definition _jes_open_flag (flags : Z) : Z :=
  let ff := 0 in
  let ff := if bit_set flags VFS_RDONLY then Z.lor ff SF_OPEN_READ else ff in
  let ff :=
    if bit_set flags VFS_WRONLY then
      let ff := Z.lor ff (Z.lor SF_OPEN_WRITE SF_OPEN_CRC) in
      if bit_set flags VFS_TRUNC then Z.lor ff SF_OPEN_CREATE else ff
    else ff in
  u8 ff.

(** [_jes_truncate_path(path)]: whether the name was shortened, and the
    string the buffer holds afterwards.  [None] when the first [memmove]
    would write in front of the buffer. *)
Definition _jes_truncate_path (path : string) : option (bool * string) :=
  if (FNAMELEN <? strlen path)%nat then
    let ext := strrchr path "."%char in
    let extlen := match ext with Some e => strlen e | None => O end in
    if (FNAMELEN <? 2 + extlen)%nat then None
    else
      let p := (take (FNAMELEN - 2 - extlen) path ++ "~1")%string in
      match ext with
      | Some e =>
          if (0 <? extlen)%nat
          then Some (true, (take (FNAMELEN - extlen) p ++ take extlen e)%string)
          else Some (true, p)
      | None => Some (true, p)
      end
  else Some (false, path).

End Helpers.

(** The loop of [_lfs_fix_path] that turns every backslash into a slash. *)
Fixpoint slashes (path : string) : string :=
  match path with
  | EmptyString => EmptyString
  | String c r =>
      if is_nul c then path
      else String (if Ascii.eqb c "\"%char then "/"%char else c) (slashes r)
  end.

(** [&path[k]] as the string the callers read there: the characters from
    [k] on.  [None] when [k] lies behind the terminator: the pointer is
    outside the string, and what is read there is not the program's to
    say. *)
Definition from_index (k : nat) (path : string) : option string :=
  if (k <=? strlen path)%nat then Some (drop k path) else None.

(** [path[k]] where the code reads it; [None] behind the terminator. *)
Definition char_in (path : string) (k : nat) : option ascii :=
  if (k <=? strlen path)%nat then Some (char_at path k) else None.

(** [_lfs_fix_path(pVfs, path)]: the string at the pointer returned; the
    backslashes of the caller's buffer are rewritten on the way. *)
Definition _lfs_fix_path (pVfs : FileSystem_t) (path : string)
  : option string :=
  let path := slashes path in
  let n := Z.to_nat (namelen pVfs) in
  if strncmp path (drive pVfs) n =? 0 then from_index (n + 1) path
  else if Ascii.eqb (char_at path 0) "/"%char then from_index (n + 1) path
  else Some path.

(** [_jes_fix_path(pVfs, path)]: the string at the pointer returned. *)
Definition _jes_fix_path (pVfs : FileSystem_t) (path : string)
  : option string :=
  let n := Z.to_nat (namelen pVfs) in
  if strncmp path (drive pVfs) n =? 0 then from_index (n + 1) path
  else if Ascii.eqb (char_at path 0) "\"%char
          || Ascii.eqb (char_at path 0) "/"%char
       then from_index (n + 1) path
  else Some path.

(** [type & ~FS_FIXED]. *)
Definition fs_kind (e : FileSystem_t) : Z := Z.land (type e) (Z.lnot FS_FIXED).

(** *** Drive resolution (vfs.c, lines 444-468) *)

(** The [for] loop from index [i] over the entries [l] left before the
    terminator of the table, and what follows the loop. *)
Fixpoint find_entry_from (i : Z) (l : list FileSystem_t) (name : string)
  (force : bool) : Z :=
  match l with
  | e :: l' =>
      if (strncasecmp name (drive e) (Z.to_nat (namelen e)) =? 0)
         && (force || (index e =? i + 1))
      then i
      else find_entry_from (i + 1) l' name force
  | [] =>
      (* Allow empty drive name if there is only one drive *)
      if (i =? 1) && (match strchr name ":"%char with None => true | _ => false end)
      then 0
      else - ENOENT
  end.

(** [_vfs_find_entry(name, force)] on the table [tbl]; [None] is the null
    pointer. *)
Definition _vfs_find_entry (tbl : list FileSystem_t) (name : option string)
  (force : bool) : Z :=
  match name with
  | None => - ENOENT
  | Some name => find_entry_from 0 tbl name force
  end.

(** **** Specification side *)

(** Entry [i] of the table claims [name]: its prefix compares equal, and the
    lookup is forced or the entry is mounted. *)
Definition claims (tbl : list FileSystem_t) (name : string) (force : bool)
  (i : nat) : Prop :=
  exists e, nth_error tbl i = Some e /\
    strncasecmp name (drive e) (Z.to_nat (namelen e)) = 0 /\
    (force = true \/ index e = Z.of_nat i + 1).

(** The string in lower case. *)
Fixpoint lower (s : string) : string :=
  match s with
  | EmptyString => EmptyString
  | String c r => String (tolower c) (lower r)
  end.

(** An entry for [prefix] as [vfs_init] leaves it, mounted or not. *)
Definition registered (prefix : string) (e : FileSystem_t) : Prop :=
  drive e = prefix /\ namelen e = Z.of_nat (strlen prefix).

(** *** File handles (vfs.c, lines 471-985) *)

Definition set_filesys (file : VfsFile_t) (r : FsRef) : VfsFile_t :=
  mkVfsFile r (fp file) (modified file) (jes file).
Definition set_modified (file : VfsFile_t) (t : Z) : VfsFile_t :=
  mkVfsFile (filesys file) (fp file) t (jes file).
Definition set_jes (file : VfsFile_t) (d : FS_DESC) : VfsFile_t :=
  mkVfsFile (filesys file) (fp file) (modified file) d.
Definition set_file_pos (d : FS_DESC) (pos : Z) : FS_DESC :=
  mkFS_DESC pos (file_len d) (file_ctime d).

(** The index [i] of a reference [&vFileSystem[i]]. *)
Definition ref_index (r : FsRef) : nat :=
  match r with
  | RefEntry i => i
  | _ => O
  end.

Definition sizeof_time_t : Z := 8.

Section Operations.

Context `{Headers} `{Config} `{Backend}.

(** [*r]. *)
Definition deref (r : FsRef) : M FileSystem_t :=
  fun w =>
    match r with
    | RefNull => Undefined
    | RefRoot => Ok vRootSystem w
    | RefEntry i =>
        match nth_error (vFileSystem w) i with
        | Some e => Ok e w
        | None => Undefined
        end
    end.

(** The characters at a [const char*] that is not null. *)
Definition deref_str (p : option string) : M string :=
  match p with
  | Some s => ret s
  | None => undefined
  end.

Definition when (c : bool) (m : M unit) : M unit := if c then m else ret tt.

Definition vfs_file_open (file : VfsFile_t) (path : option string)
  (flags : Z) : M (Z * VfsFile_t) :=
  tbl <- get_table ;;
  let r := - ENOENT in
  let i := _vfs_find_entry tbl path false in
  if i <? 0 then ret (r, file)
  else
    let file := set_filesys file (RefEntry (Z.to_nat i)) in
    e <- deref (filesys file) ;;
    path <- deref_str path ;;
    let n := Z.to_nat (namelen e) in
    (* We cannot open the root entries *)
    bare <-
      (if strncmp path (drive e) n =? 0 then
         c <- defined (char_in path n) ;;
         ret (negb (Ascii.eqb c "\"%char) && negb (Ascii.eqb c "/"%char))
       else ret false) ;;
    if bare then ret (- EBADF, file)
    else
      ' (r, file) <-
        (if fs_kind e =? FS_FATFS then
           r <- call (f_open (fp file) path (_ff_fopen_flag flags)) ;;
           let r := _ff_errno r in
           when ((r =? 0) && bit_set flags VFS_APPEND)
                (sz <- call (f_size (fp file)) ;;
                 call (f_lseek (fp file) sz) ;;;
                 ret tt) ;;;
           ret (r, file)
         else if fs_kind e =? FS_LITTLEFS then
           t <- call time ;;
           let file := set_modified file t in
           path <- defined (_lfs_fix_path e path) ;;
           r <- call (lfs_file_opencfg (ref_index (filesys file)) (fp file)
                        path (_lfs_fopen_flag flags)) ;;
           when (r =? 0)
                (' (g, _) <- call (lfs_getattr (ref_index (filesys file)) path
                                     LFS_ATTR_CREATE sizeof_time_t) ;;
                 when (g =? LFS_ERR_NOATTR)
                      (t <- call time ;;
                       call (lfs_setattr (ref_index (filesys file)) path
                               LFS_ATTR_CREATE (AttrTime t) sizeof_time_t) ;;;
                       ret tt)) ;;;
           ret (r, file)
         else if fs_kind e =? FS_JESFS then
           path <- defined (_jes_fix_path e path) ;;
           match _jes_truncate_path path with
           | None => undefined
           | Some (_, path) =>
               ' (r, d) <- call (fs_open path (_jes_open_flag flags)) ;;
               let file := set_jes file d in
               let r := _jes_errno r in
               let file :=
                 if bit_set flags VFS_APPEND
                 then set_jes file (set_file_pos (jes file) (file_len (jes file)))
                 else file in
               ret (r, file)
           end
         else ret (r, file)) ;;
      (* Clear the filesystem handle so this can be used to detect an open
         filehandle *)
      let file := if r <? 0 then set_filesys file RefNull else file in
      ret (r, file).

Definition vfs_file_close (file : VfsFile_t) : M (Z * VfsFile_t) :=
  e <- deref (filesys file) ;;
  r <- (if fs_kind e =? FS_FATFS then
          r <- call (f_close (fp file)) ;; ret (_ff_errno r)
        else if fs_kind e =? FS_LITTLEFS then
          call (lfs_file_close (ref_index (filesys file)) (fp file))
        else if fs_kind e =? FS_JESFS then
          r <- call (fs_close (jes file)) ;; ret (_jes_errno r)
        else ret (- EBADF)) ;;
  ret (r, set_filesys file RefNull).

(** [vfs_file_read(file, buffer, size)]: the [size_t] returned, the bytes
    the library stored at [buffer], and the handle. *)
Definition vfs_file_read (file : VfsFile_t) (size : Z)
  : M (Z * list Z * VfsFile_t) :=
  e <- deref (filesys file) ;;
  if fs_kind e =? FS_FATFS then
    ' (res, data) <- call (f_read (fp file) size) ;;
    let r := u32 (_ff_errno res) in
    let r := if r =? 0 then u32 (Z.of_nat (List.length data)) else r in
    ret (r, data, file)
  else if fs_kind e =? FS_LITTLEFS then
    ' (r, data) <- call (lfs_file_read (ref_index (filesys file)) (fp file)
                           size) ;;
    ret (u32 r, data, file)
  else if fs_kind e =? FS_JESFS then
    ' (r, data, d) <- call (fs_read (jes file) size) ;;
    ret (u32 (_jes_errno r), data, set_jes file d)
  else ret (0, [], file).

(** [vfs_file_seek(file, offset, whence)]: the [int] result converted to the
    [size_t] the function returns. *)
Definition vfs_file_seek (file : VfsFile_t) (offset whence : Z)
  : M (Z * VfsFile_t) :=
  e <- deref (filesys file) ;;
  ' (r, file) <-
    (if fs_kind e =? FS_FATFS then
       start <-
         (if whence =? SEEK_SET then ret (Some 0)
          else if whence =? SEEK_CUR then
            t <- call (f_tell (fp file)) ;; ret (Some t)
          else if whence =? SEEK_END then
            sz <- call (f_size (fp file)) ;; ret (Some (u32 (sz + 1)))
          else ret None) ;;
       match start with
       | None => ret (- EINVAL, file)
       | Some start =>
           r <- call (f_lseek (fp file) (u32 (start + offset))) ;;
           let r := _ff_errno r in
           if r =? 0 then
             t <- call (f_tell (fp file)) ;;
             ret (if negb (t =? u32 (start + offset)) then - ENOSPC else r,
                  file)
           else ret (r, file)
       end
     else if fs_kind e =? FS_LITTLEFS then
       r <- call (lfs_file_seek (ref_index (filesys file)) (fp file)
                    (s32 offset) whence) ;;
       ret (r, file)
     else if fs_kind e =? FS_JESFS then
       let start :=
         if whence =? SEEK_SET then Some 0
         else if whence =? SEEK_CUR then Some (file_pos (jes file))
         else if whence =? SEEK_END then Some (u32 (file_len (jes file) + 1))
         else None in
       match start with
       | None => ret (- EINVAL, file)
       | Some start =>
           ret (0, set_jes file (set_file_pos (jes file) (u32 (start + offset))))
       end
     else ret (- EBADF, file)) ;;
  ret (u32 r, file).

(** *** Directories (vfs.c, lines 1174-1428 and 1497-1510) *)

Definition set_dir_filesys (dir : VfsDir_t) (r : FsRef) : VfsDir_t :=
  mkVfsDir r (dp dir) (root dir) (lfspath dir) (fno dir) (pattern dir).
Definition set_root (dir : VfsDir_t) (n : Z) : VfsDir_t :=
  mkVfsDir (dir_filesys dir) (dp dir) n (lfspath dir) (fno dir) (pattern dir).
Definition set_lfspath (dir : VfsDir_t) (p : string) : VfsDir_t :=
  mkVfsDir (dir_filesys dir) (dp dir) (root dir) p (fno dir) (pattern dir).
Definition set_fno (dir : VfsDir_t) (n : Z) : VfsDir_t :=
  mkVfsDir (dir_filesys dir) (dp dir) (root dir) (lfspath dir) n (pattern dir).
Definition set_pattern (dir : VfsDir_t) (p : option string) : VfsDir_t :=
  mkVfsDir (dir_filesys dir) (dp dir) (root dir) (lfspath dir) (fno dir) p.

(** [memset(dir, 0, sizeof(VfsDir_t))]; the handle stays where it is. *)
Definition zero_dir (dir : VfsDir_t) : VfsDir_t :=
  mkVfsDir RefNull (dp dir) 0 EmptyString 0 None.

(** [memset(info, 0, sizeof(VfsInfo_t))]. *)
Definition zero_info : VfsInfo_t := mkVfsInfo EmptyString 0 0 0 0 0 0 0 0.

(** The buffer of a time attribute after [lfs_getattr]. *)
Definition attr_time (old : Z) (v : option attr_val) : Z :=
  match v with
  | Some (AttrTime t) => t
  | _ => old
  end.

(** The reject set [" \x1"] of the mount-point test. *)
Definition mount_marks : string :=
  String " "%char (String (ascii_of_nat 1) EmptyString).

Definition vfs_dir_open (dir : VfsDir_t) (path : option string)
  : M (Z * VfsDir_t) :=
  let r := - ENOENT in
  let dir := zero_dir dir in
  tbl <- get_table ;;
  let i := _vfs_find_entry tbl path false in
  if 0 <=? i then
    let dir := set_dir_filesys dir (RefEntry (Z.to_nat i)) in
    e <- deref (dir_filesys dir) ;;
    path <- deref_str path ;;
    if fs_kind e =? FS_FATFS then
      r <- call (f_opendir (dp dir) path) ;;
      ret (_ff_errno r, dir)
    else if fs_kind e =? FS_LITTLEFS then
      let dir := set_lfspath dir (take (Z.to_nat MAX_PATH) path) in
      (* _lfs_fix_path turns the backslashes of dir->lfspath in place *)
      path <- defined (_lfs_fix_path e (lfspath dir)) ;;
      let dir := set_lfspath dir (slashes (lfspath dir)) in
      r <- call (lfs_dir_open (Z.to_nat i) (dp dir) path) ;;
      ret (r, dir)
    else if fs_kind e =? FS_JESFS then
      path <- defined (_jes_fix_path e path) ;;
      if (strlen path =? 0)%nat then ret (0, set_fno dir 0)
      else ret (r, dir)
    else ret (r, dir)
  else if match path with
          | None => true
          | Some path => (strcspn path mount_marks <=? 1)%nat
          end
  then (* Deal with mountpoints... *)
    ret (0, set_root (set_dir_filesys dir RefRoot) 0)
  else ret (r, dir).

Definition vfs_dir_close (dir : VfsDir_t) : M (Z * VfsDir_t) :=
  e <- deref (dir_filesys dir) ;;
  r <- (if fs_kind e =? FS_FATFS then
          r <- call (f_closedir (dp dir)) ;; ret (_ff_errno r)
        else if fs_kind e =? FS_LITTLEFS then
          call (lfs_dir_close (ref_index (dir_filesys dir)) (dp dir))
        else if fs_kind e =? FS_JESFS then ret 0
        else ret (- EBADF)) ;;
  ret (r, set_dir_filesys dir RefNull).

(** [num / blocksize] stored in a [uint32_t], undefined on a zero divisor. *)
Definition blocks_of (num blocksize : Z) : M Z :=
  if blocksize =? 0 then undefined
  else ret (u32 (num / blocksize)).

(** The [FS_ROOT] case of [vfs_dir_read]: the entry of the table under the
    cursor, if the cursor has not reached the terminator. *)
Definition root_read (dir : VfsDir_t) (info : VfsInfo_t)
  : M (Z * VfsDir_t * VfsInfo_t) :=
  tbl <- get_table ;;
  match nth_error tbl (Z.to_nat (root dir)) with
  | None => ret (-1, dir, info)
  | Some v =>
      let i := Z.to_nat (root dir) in
      let ino := u32 (Z.shiftl (index v) INODE_ITEM_BITS) in
      let dev := u8 (index v) in
      let att := Z.lor ATR_DIR (Z.lor ATR_IREAD (Z.lor ATR_IWRITE ATR_IEXEC)) in
      info <-
        (if fs_kind v =? FS_FATFS then
           ' (_, (nclst, _, csize, n_fatent)) <- call (f_getfree (drive v)) ;;
           let bs := u32 (csize * FF_MAX_SS) in
           let bl := u32 (n_fatent - 2) in
           ret (mkVfsInfo (name info) (u64 (u32 (bl - nclst) * bs)) 0 0
                          att dev ino bl bs)
         else if fs_kind v =? FS_LITTLEFS then
           bs <- call (lfs_block_size i) ;;
           bl <- call (lfs_block_count i) ;;
           sz <- call (lfs_fs_size i) ;;
           ' (_, c) <- call (lfs_getattr i EmptyString LFS_ATTR_CREATE
                               sizeof_time_t) ;;
           ret (mkVfsInfo (name info) (u64 (sz * bs)) (attr_time 0 c) 0
                          att dev ino bl bs)
         else if fs_kind v =? FS_JESFS then
           sf <- call sflash_info ;;
           ret (mkVfsInfo (name info)
                  (u32 (total_flash_size sf - available_disk_size sf))
                  (creation_date sf) (creation_date sf)
                  (u8 (Z.lor att ATR_FLAT_FILESYSTEM)) dev ino
                  (u32 (total_flash_size sf + SF_SECTOR_PH - 1) / SF_SECTOR_PH)
                  SF_SECTOR_PH)
         else
           ret (mkVfsInfo (name info) (size info) 0 0 att dev ino
                          (blocks info) (blocksize info))) ;;
      let info :=
        mkVfsInfo (take 63 (drive v)) (size info) (created info)
                  (info_modified info) (attrib info) (device info)
                  (inode info) (blocks info) (blocksize info) in
      ret (0, set_root dir (root dir + 1), info)
  end.

(** The [FS_FATFS] case. *)
Definition fat_read (dir : VfsDir_t) (info : VfsInfo_t)
  : M (Z * VfsDir_t * VfsInfo_t) :=
  e <- deref (dir_filesys dir) ;;
  ' (res, fi) <- call (f_readdir (dp dir)) ;;
  if res =? FR_OK then
    if is_nul (peek (fname fi)) then ret (-1, dir, info)
    else
      csize <- call (fatfs_csize (ref_index (dir_filesys dir))) ;;
      let bs := u32 (csize * FF_MAX_SS) in
      bl <- blocks_of (u32 (fsize fi + bs - 1)) bs ;;
      tcr <- defined (Timestamp._ff_timestamp (stamps fi) false) ;;
      tmo <- defined (Timestamp._ff_timestamp (stamps fi) true) ;;
      let att := Z.lor ATR_IREAD ATR_IEXEC in
      let att :=
        Z.lor att (if bit_set (fattrib fi) AM_DIR then ATR_DIR else ATR_REG) in
      let att :=
        if negb (bit_set (fattrib fi) AM_RDO) then Z.lor att ATR_IWRITE
        else att in
      let att :=
        if bit_set (fattrib fi) AM_HID then Z.lor att ATR_HID else att in
      ret (0, dir,
           mkVfsInfo (take 63 (fname fi)) (fsize fi) tcr tmo
             (u8 att) (u8 (index e))
             (u32 (Z.lor (fno_inode fi) (Z.shiftl (index e) INODE_ITEM_BITS)))
             bl bs)
  else ret (-1, dir, info).

(** The [FS_LITTLEFS] case. *)
Definition lfs_read (dir : VfsDir_t) (info : VfsInfo_t)
  : M (Z * VfsDir_t * VfsInfo_t) :=
  e <- deref (dir_filesys dir) ;;
  let i := ref_index (dir_filesys dir) in
  ' (r, l) <- call (lfs_dir_read i (dp dir)) ;;
  if r =? 1 then
    bs <- call (lfs_block_size i) ;;
    bl <- blocks_of (u64 (lfs_size l + bs - 1)) bs ;;
    (* Temporary abuse file name to create a full path in order to query
       file attributes *)
    let full := take 63 (lfspath dir ++ "/" ++ lfs_name l)%string in
    ' (_, c) <- call (lfs_getattr i full LFS_ATTR_CREATE sizeof_time_t) ;;
    ' (_, m) <- call (lfs_getattr i full LFS_ATTR_MODIFY sizeof_time_t) ;;
    let att := Z.lor ATR_IREAD (Z.lor ATR_IWRITE ATR_IEXEC) in
    let att :=
      Z.lor att (if bit_set (lfs_type l) LFS_TYPE_DIR then ATR_DIR
                 else ATR_REG) in
    ret (0, dir,
         mkVfsInfo (take 63 (lfs_name l)) (lfs_size l)
           (attr_time (created info) c) (attr_time (info_modified info) m)
           (u8 att) (u8 (index e)) (inode info) bl bs)
  else ret (-1, dir, info).

(** The [FS_JESFS] case: the [do ... while (res != 0)] run for at most
    [fuel] rounds. *)
Fixpoint jes_read (fuel : nat) (e : FileSystem_t) (dir : VfsDir_t)
  (info : VfsInfo_t) : M (Z * VfsDir_t * VfsInfo_t) :=
  match fuel with
  | O => out_of_fuel
  | S k =>
      let info :=
        mkVfsInfo (name info) (size info) (created info) (info_modified info)
          (attrib info) (device info)
          (u32 (Z.lor (fno dir) (Z.shiftl (index e) INODE_ITEM_BITS)))
          (blocks info) (blocksize info) in
      ' (res, st) <- call (fs_info (fno dir)) ;;
      let dir := set_fno dir (u16 (fno dir + 1)) in
      if bit_set res FS_STAT_ACTIVE then
        ret (0, dir,
             mkVfsInfo (stat_fname st) (stat_file_len st)
               (stat_file_ctime st) (stat_file_ctime st)
               (Z.lor ATR_IREAD (Z.lor ATR_IEXEC (Z.lor ATR_REG ATR_IWRITE)))
               (u8 (index e)) (inode info)
               (u32 (u64 (stat_file_len st + SF_SECTOR_PH - 1) / SF_SECTOR_PH))
               SF_SECTOR_PH)
      else if negb (res =? 0) then jes_read k e dir info
      else ret (-1, dir, info)
  end.

Definition vfs_dir_read (fuel : nat) (dir : VfsDir_t) (info : VfsInfo_t)
  : M (Z * VfsDir_t * VfsInfo_t) :=
  e <- deref (dir_filesys dir) ;;
  if fs_kind e =? FS_ROOT then root_read dir info
  else if fs_kind e =? FS_FATFS then fat_read dir info
  else if fs_kind e =? FS_LITTLEFS then lfs_read dir info
  else if fs_kind e =? FS_JESFS then jes_read fuel e dir info
  else ret (-1, dir, info).

(** [vfs_findnext(dir, info)]: the [while] run for at most [fuel] rounds. *)
Fixpoint vfs_findnext (fuel : nat) (dir : VfsDir_t) (info : VfsInfo_t)
  : M (Z * VfsDir_t * VfsInfo_t) :=
  match fuel with
  | O => out_of_fuel
  | S k =>
      ' (r, dir, info) <- vfs_dir_read (S k) dir info ;;
      if r =? 0 then
        pat <- deref_str (pattern dir) ;;
        if Wildcard.pattern_matching pat (name info) 0 0
        then ret (r, dir, info)
        else vfs_findnext k dir info
      else ret (r, dir, info)
  end.

Definition vfs_findfirst (fuel : nat) (dir : VfsDir_t) (info : VfsInfo_t)
  (path pattern : option string) : M (Z * VfsDir_t * VfsInfo_t) :=
  ' (r, dir) <- vfs_dir_open dir path ;;
  if r =? 0 then
    let dir := set_pattern dir pattern in
    ' (r, dir, info) <- vfs_findnext fuel dir info ;;
    if negb (r =? 0) then
      ' (_, dir) <- vfs_dir_close dir ;;
      ret (r, dir, info)
    else ret (r, dir, info)
  else ret (r, dir, info).

(** *** Stat and checksum (vfs.c, lines 1708-1872 and 1975-2006) *)

(** [vFileSystem[i] = f(vFileSystem[i])]. *)
Fixpoint update_nth {A : Type} (i : nat) (f : A -> A) (l : list A) : list A :=
  match l, i with
  | [], _ => []
  | x :: l', O => f x :: l'
  | x :: l', S i' => x :: update_nth i' f l'
  end.

Definition update_entry (i : nat) (f : FileSystem_t -> FileSystem_t)
  : M unit :=
  tbl <- get_table ;;
  put_table (update_nth i f tbl).

Definition set_fs (p : FsPtr) (e : FileSystem_t) : FileSystem_t :=
  mkFileSystem (drive e) p (eventcb e) (type e) (index e) (namelen e).
Definition set_index (n : Z) (e : FileSystem_t) : FileSystem_t :=
  mkFileSystem (drive e) (fs e) (eventcb e) (type e) n (namelen e).

(** [strrchr(path, '/') + 1], undefined when there is no slash. *)
Definition after_last_slash (path : string) : M string :=
  match strrchr path "/"%char with
  | Some p => ret (drop 1 p)
  | None => undefined
  end.

(** The test for a bare mount point on the path left after the prefix. *)
Definition is_root_path (path : string) : bool :=
  is_nul (char_at path 0)
  || (Ascii.eqb (char_at path 0) "/"%char && is_nul (char_at path 1)).

Definition vfs_stat (path : option string) : M (Z * VfsInfo_t) :=
  let r := - ENOENT in
  let info := zero_info in
  tbl <- get_table ;;
  let i := _vfs_find_entry tbl path false in
  if i <? 0 then ret (i, info)
  else
    let k := Z.to_nat i in
    e <- deref (RefEntry k) ;;
    path <- deref_str path ;;
    let n := Z.to_nat (namelen e) in
    if fs_kind e =? FS_FATFS then
      c <- defined (char_in path n) ;;
      if is_nul c
         || (Ascii.eqb c "/"%char && is_nul (char_at path (n + 1)))
         || (Ascii.eqb c "\"%char && is_nul (char_at path (n + 1)))
      then
        let att := Z.lor ATR_DIR (Z.lor ATR_IREAD ATR_IWRITE) in
        (* Add attribute for REMOVABLE *)
        let att :=
          if negb (bit_set (type e) FS_FIXED)
          then Z.lor att ATR_REMOVABLE_DISK else att in
        (* Test root *)
        ' (res, (nclst, fsp, csize, n_fatent)) <- call (f_getfree path) ;;
        update_entry k (set_fs fsp) ;;;
        let r := _ff_errno res in
        ' (nm, sz, bl, bs) <-
          (if r =? 0 then
             nm <- (if FF_USE_LABEL
                    then ' (_, l) <- call (f_getlabel path) ;; ret l
                    else ret EmptyString) ;;
             match fsp with
             | PtrNull => undefined
             | _ =>
                 let bs := u32 (csize * FF_MAX_SS) in
                 let bl := u32 (n_fatent - 2) in
                 ret (nm, u64 (u32 (bl - nclst) * bs), bl, bs)
             end
           else ret (EmptyString, 0, 0, 0)) ;;
        let nm := if is_nul (peek nm) then path else nm in
        ret (r, mkVfsInfo nm sz 0 0 att (u8 (index e)) 0 bl bs)
      else
        ' (res, fi) <- call (f_stat path) ;;
        let r := _ff_errno res in
        if r =? 0 then
          nm <- after_last_slash path ;;
          csize <- call (fatfs_csize k) ;;
          let bs := u32 (csize * FF_MAX_SS) in
          bl <- blocks_of (u64 (fsize fi + bs - 1)) bs ;;
          tcr <- defined (Timestamp._ff_timestamp (stamps fi) false) ;;
          tmo <- defined (Timestamp._ff_timestamp (stamps fi) true) ;;
          let att := if bit_set (fattrib fi) AM_DIR then ATR_DIR else ATR_REG in
          let att := Z.lor att ATR_IREAD in
          let att :=
            if negb (bit_set (fattrib fi) AM_RDO) then Z.lor att ATR_IWRITE
            else att in
          let att := if bit_set (fattrib fi) AM_HID then ATR_HID else att in
          ret (r, mkVfsInfo nm (fsize fi) tcr tmo
                    att (u8 (index e)) 0 bl bs)
        else ret (r, info)
    else if fs_kind e =? FS_LITTLEFS then
      path <- defined (_lfs_fix_path e path) ;;
      if is_root_path path then
        let att := Z.lor ATR_DIR (Z.lor ATR_IREAD ATR_IWRITE) in
        let att :=
          if negb (bit_set (type e) FS_FIXED)
          then Z.lor att ATR_REMOVABLE_DISK else att in
        (* Test root *)
        sz <- call (lfs_fs_size k) ;;
        let sz := u32 sz in          (* fno.size is unsigned *)
        if 0 <=? sz then
          bs <- call (lfs_block_size k) ;;
          bl <- call (lfs_block_count k) ;;
          ret (0, mkVfsInfo path (u64 (sz * bs)) 0 0 att (u8 (index e)) 0
                    bl bs)
        else ret (r, mkVfsInfo path 0 0 0 att (u8 (index e)) 0 0 0)
      else
        (* &path[namelen + 1], on the path that was fixed already *)
        q <- defined (from_index (n + 1) path) ;;
        ' (r, l) <- call (lfs_stat k q) ;;
        if 0 <=? r then
          nm <- after_last_slash path ;;
          bs <- call (lfs_block_size k) ;;
          bl <- blocks_of (u64 (lfs_size l + bs - 1)) bs ;;
          ' (_, c) <- call (lfs_getattr k q LFS_ATTR_CREATE
                              sizeof_time_t) ;;
          ' (_, m) <- call (lfs_getattr k q LFS_ATTR_MODIFY
                              sizeof_time_t) ;;
          let att :=
            if bit_set (lfs_type l) LFS_TYPE_DIR then ATR_DIR else ATR_REG in
          let att := Z.lor att (Z.lor ATR_IREAD ATR_IWRITE) in
          ret (0, mkVfsInfo nm (lfs_size l) (attr_time 0 c) (attr_time 0 m)
                    att (u8 (index e)) 0 bl bs)
        else ret (r, info)
    else if fs_kind e =? FS_JESFS then
      path <- defined (_jes_fix_path e path) ;;
      if is_root_path path then
        nm <- call (jesfs_label k) ;;
        sf <- call sflash_info ;;
        ret (0, mkVfsInfo nm
                  (u32 (total_flash_size sf - available_disk_size sf))
                  (creation_date sf) (creation_date sf)
                  (Z.lor ATR_DIR
                     (Z.lor ATR_IREAD (Z.lor ATR_IWRITE ATR_FLAT_FILESYSTEM)))
                  0 0
                  (u32 (total_flash_size sf + SF_SECTOR_PH - 1) / SF_SECTOR_PH)
                  SF_SECTOR_PH)
      else
        ' (res, d) <- call (fs_open path SF_OPEN_READ) ;;
        let r := _jes_errno res in
        if r =? 0 then
          (* Open file and set struct values *)
          call (fs_close d) ;;;
          ret (0, mkVfsInfo path (file_len d) (file_ctime d) (file_ctime d)
                    (Z.lor ATR_REG (Z.lor ATR_IREAD ATR_IWRITE))
                    (u8 (index e)) 0
                    (u32 (u64 (file_len d + SF_SECTOR_PH - 1) / SF_SECTOR_PH))
                    SF_SECTOR_PH)
        else ret (r, info)
    else ret (r, info).

(** The buffer after the library stored [data] at its start. *)
Definition store (data buf : list Z) : list Z :=
  firstn (List.length buf) (data ++ skipn (List.length data) buf).

(** [memset(buf + n, 0, sizeof(buf) - n)]. *)
Definition zero_from (n : nat) (buf : list Z) : list Z :=
  firstn n buf ++ repeat 0 (List.length buf - n).

(** The buffer read as [uint32_t]s (little endian); bytes short of a word at
    the end of the buffer are not part of any. *)
Fixpoint words_of (buf : list Z) : list Z :=
  match buf with
  | b0 :: b1 :: b2 :: b3 :: rest =>
      (b0 + Z.shiftl b1 8 + Z.shiftl b2 16 + Z.shiftl b3 24) :: words_of rest
  | _ => []
  end.

(** The [while] of [vfs_crc], run for at most [fuel] rounds. *)
Fixpoint crc_loop (fuel : nat) (src : VfsFile_t) (buf : list Z) (crc : Z)
  {struct fuel} : M (Z * Z * VfsFile_t) :=
  match fuel with
  | O => out_of_fuel
  | S k =>
      ' (n, data, src) <- vfs_file_read src 128 ;;
      let r := s32 n in
      let buf := store data buf in
      if 0 <? r then
        let buf := if r <? 128 then zero_from (Z.to_nat r) buf else buf in
        let crc := Crc.CRC_FUNC crc (words_of buf) (r / 4) false in
        crc_loop k src buf crc
      else ret (r, crc, src)
  end.

(** [vfs_crc(path, crc)]: the result and the value left at [*crc].  [x] is
    the local handle, [buf] what the local buffer holds on entry, [crc] what
    [*crc] holds on entry. *)
Definition vfs_crc (fuel : nat) (x : VfsFile_t) (buf : list Z)
  (path : option string) (crc : Z) : M (Z * Z) :=
  ' (r, info) <- vfs_stat path ;;
  if r =? 0 then
    let crc :=
      Crc.CRC_FUNC crc [u32 (size info); u32 (Z.shiftr (size info) 32)] 2 true in
    ' (r, src) <- vfs_file_open x path VFS_RDONLY ;;
    if r =? 0 then
      ' (r, crc, src) <- crc_loop fuel src buf crc ;;
      vfs_file_close src ;;;
      ret (r, crc)
    else ret (r, crc)
  else ret (r, crc).

(** *** Mounting (vfs.c, lines 2210-2367) *)

Definition is_null (p : FsPtr) : bool :=
  match p with
  | PtrNull => true
  | _ => false
  end.

(** [vfs_malloc_usable_size(p) != 0]. *)
Definition usable (p : FsPtr) : bool :=
  match p with
  | PtrHeap => true
  | _ => false
  end.

(** The part of a mount shared by FatFs and LittleFS: the state allocated on
    first use, the index bound, the library called through [lib_mount], the
    index cleared again when that fails. *)
Definition mount_with (k : nat) (lib_mount : FileSystem_t -> M Z) (r : Z)
  : M Z :=
  e <- deref (RefEntry k) ;;
  r <- (if is_null (fs e) then
          ok <- call vfs_malloc ;;
          update_entry k (set_fs (if ok then PtrHeap else PtrNull)) ;;;
          ret (- ENOMEM)
        else ret r) ;;
  e <- deref (RefEntry k) ;;
  if negb (is_null (fs e)) then
    update_entry k (set_index (s8 (Z.of_nat k + 1))) ;;;
    r <- lib_mount e ;;
    when (negb (r =? 0)) (update_entry k (set_index 0)) ;;;
    ret r
  else ret r.

(** Likewise for an unmount. *)
Definition unmount_with (k : nat) (lib_unmount : FileSystem_t -> M Z) (r : Z)
  : M Z :=
  e <- deref (RefEntry k) ;;
  if negb (is_null (fs e)) then
    r <- lib_unmount e ;;
    update_entry k (set_index 0) ;;;
    when (usable (fs e))
         (call vfs_free ;;; update_entry k (set_fs PtrNull)) ;;;
    ret r
  else ret r.

Definition vfs_mount (path : option string) (mount : bool) : M Z :=
  let r := - ENOENT in
  tbl <- get_table ;;
  let i := _vfs_find_entry tbl path true in
  if i <? 0 then ret i
  else
    let k := Z.to_nat i in
    e <- deref (RefEntry k) ;;
    (* Try mounting according table entry *)
    r <-
      (if fs_kind e =? FS_FATFS then
         if mount then
           mount_with k
             (fun e =>
                (* Do full check on fixed volumes *)
                r <- call (f_mount (fs e) (drive e)
                             (if bit_set (type e) FS_FIXED then 1 else 0)) ;;
                ret (_ff_errno r)) r
         else
           unmount_with k
             (fun e => r <- call (f_mount PtrNull (drive e) 0) ;;
                       ret (_ff_errno r)) r
       else if fs_kind e =? FS_LITTLEFS then
         if mount then
           mount_with k
             (fun e => r <- call (lfs_mount k) ;;
                       ret (if negb (r =? 0) then - ENXIO else r)) r
         else
           unmount_with k (fun e => call (lfs_unmount k)) r
       else if fs_kind e =? FS_JESFS then
         r <- call (fs_start FS_START_NORMAL) ;;
         let r := _jes_errno r in
         when (r =? 0) (update_entry k (set_index (s8 (Z.of_nat k + 1)))) ;;;
         ret r
       else ret r) ;;
    e <- deref (RefEntry k) ;;
    (if r =? 0 then
       when (eventcb e)
            (call (eventcb_call k
                     (if index e =? 0 then EVT_UNMOUNT else EVT_MOUNT)))
     else
       when (mount && eventcb e) (call (eventcb_call k EVT_MOUNT_FAIL))) ;;;
    ret r.

Definition vfs_format (path : option string) : M Z :=
  let r := - ENOENT in
  tbl <- get_table ;;
  let i := _vfs_find_entry tbl path true in
  if i <? 0 then ret i
  else
    let k := Z.to_nat i in
    e <- deref (RefEntry k) ;;
    path <- deref_str path ;;
    if fs_kind e =? FS_FATFS then
      r <- call (f_mkfs path) ;; ret (_ff_errno r)
    else if fs_kind e =? FS_LITTLEFS then
      r <- call (lfs_format k) ;;
      when (r =? 0)
           (t <- call time ;;
            call (lfs_setattr k (drive e) LFS_ATTR_CREATE (AttrTime t)
                    sizeof_time_t) ;;;
            ret tt) ;;;
      ret r
    else if fs_kind e =? FS_JESFS then
      r <- call (fs_format FS_FORMAT_SOFT) ;; ret (_jes_errno r)
    else ret r.

(** *** The other operations on paths *)

Definition vfs_mkdir (path : option string) : M Z :=
  let r := - ENOENT in
  tbl <- get_table ;;
  let i := _vfs_find_entry tbl path false in
  if i <? 0 then ret i
  else
    let k := Z.to_nat i in
    e <- deref (RefEntry k) ;;
    path <- deref_str path ;;
    if fs_kind e =? FS_FATFS then
      r <- call (f_mkdir path) ;; ret (_ff_errno r)
    else if fs_kind e =? FS_LITTLEFS then
      path <- defined (_lfs_fix_path e path) ;;
      r <- call (lfs_mkdir k path) ;;
      when (r =? 0)
           ((* LFS timestamp *)
            t <- call time ;;
            call (lfs_setattr k path LFS_ATTR_CREATE (AttrTime t)
                    sizeof_time_t) ;;;
            call (lfs_setattr k path LFS_ATTR_MODIFY (AttrTime t)
                    sizeof_time_t) ;;;
            ret tt) ;;;
      ret r
    else ret r.

Definition vfs_remove (path : option string) : M Z :=
  let r := - ENOENT in
  tbl <- get_table ;;
  let i := _vfs_find_entry tbl path false in
  if i <? 0 then ret i
  else
    let k := Z.to_nat i in
    e <- deref (RefEntry k) ;;
    path <- deref_str path ;;
    if fs_kind e =? FS_FATFS then
      r <- call (f_unlink path) ;; ret (_ff_errno r)
    else if fs_kind e =? FS_LITTLEFS then
      path <- defined (_lfs_fix_path e path) ;;
      call (lfs_remove k path)
    else if fs_kind e =? FS_JESFS then
      path <- defined (_jes_fix_path e path) ;;
      ' (o, d) <- call (fs_open path SF_OPEN_RAW) ;;
      if o =? 0 then r <- call (fs_delete d) ;; ret (_jes_errno r)
      else ret r
    else ret r.

Definition vfs_rename (oldpath newpath : option string) : M Z :=
  let r := - ENOENT in
  tbl <- get_table ;;
  let i := _vfs_find_entry tbl oldpath false in
  if i <? 0 then ret i
  else
    let k := Z.to_nat i in
    e <- deref (RefEntry k) ;;
    oldpath <- deref_str oldpath ;;
    if fs_kind e =? FS_FATFS then
      newpath <- deref_str newpath ;;
      r <- call (f_rename oldpath newpath) ;; ret (_ff_errno r)
    else if fs_kind e =? FS_LITTLEFS then
      newpath <- deref_str newpath ;;
      oldpath <- defined (_lfs_fix_path e oldpath) ;;
      newpath <- defined (_lfs_fix_path e newpath) ;;
      call (lfs_rename k oldpath newpath)
    else if fs_kind e =? FS_JESFS then
      newpath <- deref_str newpath ;;
      oldpath <- defined (_jes_fix_path e oldpath) ;;
      match _jes_truncate_path newpath with
      | None => undefined
      | Some (_, newpath) =>
          newpath <- defined (_jes_fix_path e newpath) ;;
          ' (o, old) <- call (fs_open oldpath SF_OPEN_RAW) ;;
          if o =? 0 then
            ' (n, new) <- call (fs_open newpath SF_OPEN_CREATE) ;;
            if n =? 0 then
              r <- call (fs_rename old new) ;; ret (_jes_errno r)
            else ret r
          else ret r
      end
    else ret r.

(** [vfs_getlabel(path, label)]: the result and what [label] holds then. *)
Definition vfs_getlabel (path : option string) (label : string)
  : M (Z * string) :=
  let r := - ENOENT in
  tbl <- get_table ;;
  let i := _vfs_find_entry tbl path false in
  if i <? 0 then ret (i, label)
  else
    let k := Z.to_nat i in
    e <- deref (RefEntry k) ;;
    path <- deref_str path ;;
    if fs_kind e =? FS_FATFS then
      ' (r, l) <- call (f_getlabel path) ;; ret (_ff_errno r, l)
    else if fs_kind e =? FS_LITTLEFS then
      ' (r, v) <- call (lfs_getattr k (drive e) LFS_ATTR_LABEL MAX_PATH) ;;
      ret (r, match v with Some (AttrStr l) => l | _ => label end)
    else if fs_kind e =? FS_JESFS then
      l <- call (jesfs_label k) ;; ret (0, l)
    else ret (r, label).

Definition vfs_setlabel (label : option string) : M Z :=
  let r := - ENOENT in
  tbl <- get_table ;;
  let i := _vfs_find_entry tbl label false in
  if i <? 0 then ret i
  else
    let k := Z.to_nat i in
    e <- deref (RefEntry k) ;;
    label <- deref_str label ;;
    if fs_kind e =? FS_FATFS then
      r <- call (f_setlabel label) ;; ret (_ff_errno r)
    else if fs_kind e =? FS_LITTLEFS then
      call (lfs_setattr k (drive e) LFS_ATTR_LABEL (AttrStr label)
              (Z.of_nat (strlen label)))
    else ret r.

(** [vfs_fs_size(path)] and [vfs_fs_free(path)], which return [int64_t]. *)
Definition vfs_fs_size (path : option string) : M Z :=
  tbl <- get_table ;;
  let i := _vfs_find_entry tbl path false in
  if i <? 0 then ret i
  else
    let k := Z.to_nat i in
    e <- deref (RefEntry k) ;;
    path <- deref_str path ;;
    if fs_kind e =? FS_FATFS then
      ' (res, (nclst, _, _, _)) <- call (f_getfree path) ;;
      if res =? FR_OK then
        csize <- call (fatfs_csize k) ;;
        ret (nclst * csize * FF_MAX_SS)
      else ret 0
    else if fs_kind e =? FS_LITTLEFS then
      bs <- call (lfs_block_size k) ;;
      bl <- call (lfs_block_count k) ;;
      ret (bs * bl)
    else if fs_kind e =? FS_JESFS then
      sf <- call sflash_info ;; ret (total_flash_size sf)
    else ret 0.

Definition vfs_fs_free (path : option string) : M Z :=
  tbl <- get_table ;;
  let i := _vfs_find_entry tbl path false in
  if i <? 0 then ret i
  else
    let k := Z.to_nat i in
    e <- deref (RefEntry k) ;;
    path <- deref_str path ;;
    if fs_kind e =? FS_FATFS then
      ' (res, (nclst, _, _, _)) <- call (f_getfree path) ;;
      if res =? FR_OK then
        csize <- call (fatfs_csize k) ;;
        ret (nclst * csize * FF_MAX_SS)
      else ret 0
    else if fs_kind e =? FS_LITTLEFS then
      bs <- call (lfs_block_size k) ;;
      bl <- call (lfs_block_count k) ;;
      ret (bs * bl)
    else if fs_kind e =? FS_JESFS then
      sf <- call sflash_info ;; ret (available_disk_size sf)
    else ret 0.

(** [_ff_fat_timedate(&fno, julian, modified)] with its call of [gmtime]. *)
Definition fat_timedate (fi : Timestamp.FILINFO) (julian : Z)
  (modified : bool) : M Timestamp.FILINFO :=
  p <- call (gmtime julian) ;;
  ret (Timestamp._ff_fat_timedate fi p modified).

Definition vfs_touch (path : option string) (info : VfsInfo_t) : M Z :=
  let r := 0 in
  tbl <- get_table ;;
  let i := _vfs_find_entry tbl path false in
  if i <? 0 then ret (-1)
  else
    let k := Z.to_nat i in
    e <- deref (RefEntry k) ;;
    path <- deref_str path ;;
    if fs_kind e =? FS_FATFS then
      r <- (if negb (attrib info =? 0) then
              let attr := 0 in
              let attr :=
                if bit_set (attrib info) ATR_HID then Z.lor attr AM_HID
                else attr in
              let attr :=
                if bit_set (attrib info) ATR_SYS then Z.lor attr AM_SYS
                else attr in
              c <- call (f_chmod path (u8 attr) (Z.lor AM_HID AM_SYS)) ;;
              ret (if negb (c =? FR_OK) then -1 else r)
            else ret r) ;;
      (* Update timestamp *)
      fi <- fat_timedate Timestamp.blank (created info) false ;;
      fi <- fat_timedate fi (info_modified info) true ;;
      if negb ((if FATFS_CREATE_DT
                then Z.lor (Timestamp.fcdate fi)
                       (Z.lor (Timestamp.fctime fi)
                          (Z.lor (Timestamp.fdate fi) (Timestamp.ftime fi)))
                else Z.lor (Timestamp.fdate fi) (Timestamp.ftime fi)) =? 0)
      then
        u <- call (f_utime path fi) ;;
        ret (if negb (u =? FR_OK) then -1 else r)
      else ret r
    else if fs_kind e =? FS_LITTLEFS then
      path <- defined (_lfs_fix_path e path) ;;
      let n := Z.to_nat (namelen e) in
      (* &path[namelen + 1], on the path that was fixed already *)
      q <- defined (from_index (n + 1) path) ;;
      ' (st, _) <- call (lfs_stat k q) ;;
      if 0 <=? st then
        after_last_slash path ;;;
        r <- call (lfs_setattr k q LFS_ATTR_CREATE
                     (AttrTime (created info)) sizeof_time_t) ;;
        m <- call (lfs_setattr k q LFS_ATTR_MODIFY
                     (AttrTime (info_modified info)) sizeof_time_t) ;;
        ret (if (m <? 0) || (r <? 0) then -1 else r)
      else ret r
    else ret r.

(** **** Specification side *)

Definition valid_whence (whence : Z) : Prop :=
  whence = SEEK_SET \/ whence = SEEK_CUR \/ whence = SEEK_END.

(** The verdict [r] of the FatFs case of [vfs_file_seek] on the answer of
    [f_lseek] to [target] and on the position found afterwards. *)
Definition seek_checked (b : BState) (fp : nat) (target : Z) (r : Z) : Prop :=
  exists res b',
    respond Z b (f_lseek fp target) = (res, b') /\
    (_ff_errno res <> 0 -> r = u32 (_ff_errno res)) /\
    (_ff_errno res = 0 ->
     exists pos b'', respond Z b' (f_tell fp) = (pos, b'') /\
       (pos = target -> r = 0) /\ (pos <> target -> r = u32 (- ENOSPC))).

(** *** Volumes (vfs.c, lines 2370-2383) *)

(** [vfs_volume(num)]: the drive of entry [num], a null pointer from the
    terminator on.  There is no test for a negative [num], which reads an
    entry in front of the table. *)
Definition vfs_volume (num : Z) : M (option string) :=
  tbl <- get_table ;;
  (* for (i = 0; vFileSystem[i].drive != nullptr; i++) {} *)
  let i := Z.of_nat (List.length tbl) in
  if num <? i then
    if num <? 0 then undefined
    else e <- deref (RefEntry (Z.to_nat num)) ;; ret (Some (drive e))
  else ret None.

(** *** The POSIX layer (vfs.c, lines 2425-2640) *)

(** The flags [fopen] builds from its mode string. *)
Definition fopen_flags (mode : string) : Z :=
  let flags := 0 in
  let flags :=
    match strchr mode "r"%char with
    | Some _ => Z.lor flags VFS_RDONLY
    | None => flags
    end in
  match strchr mode "w"%char with
  | Some _ => Z.lor flags (Z.lor VFS_WRONLY VFS_TRUNC)
  | None =>
      match strchr mode "a"%char with
      | Some _ => Z.lor flags (Z.lor VFS_WRONLY VFS_APPEND)
      | None => flags
      end
  end.

(** [fopen(pathname, mode)]: the pointer returned, [None] for null, and the
    value left in [errno].  [x] is what the allocated block holds. *)
Definition fopen (x : VfsFile_t) (pathname mode : option string)
  : M (option VfsFile_t * Z) :=
  ok <- call vfs_malloc ;;
  mode <- deref_str mode ;;
  let flags := fopen_flags mode in
  if ok then
    ' (r, file) <- vfs_file_open x pathname flags ;;
    ret (Some file, - r)
  else ret (None, ENOMEM).

(** [_fclose(stream)]: the result, which is also left in [errno]. *)
Definition _fclose (stream : option VfsFile_t) : M Z :=
  match stream with
  | None => undefined
  | Some file =>
      ' (r, _) <- vfs_file_close file ;;
      call vfs_free ;;;
      ret (- r)
  end.

(** [opendir(path)]: the pointer returned, and the value written to [errno]
    if one is. *)
Definition opendir (x : VfsDir_t) (path : option string)
  : M (option VfsDir_t * option Z) :=
  ok <- call vfs_malloc ;;
  if ok then
    ' (r, dir) <- vfs_dir_open x path ;;
    if r <? 0 then
      call vfs_free ;;;
      ret (None, Some r)
    else ret (Some dir, None)
  else ret (None, None).

(** [closedir(dir)]: the result, which is also left in [errno], and the
    handle. *)
Definition closedir (dir : option VfsDir_t) : M (Z * VfsDir_t) :=
  match dir with
  | None => undefined
  | Some d =>
      ' (r, d) <- vfs_dir_close d ;;
      ret (- r, d)
  end.

(** *** Position, size and lines (vfs.c, lines 854-907, 1047-1171 and
    2483-2498) *)

(** [vfs_file_rewind(file)]. *)
Definition vfs_file_rewind (file : VfsFile_t) : M (Z * VfsFile_t) :=
  e <- deref (filesys file) ;;
  if fs_kind e =? FS_FATFS then
    r <- call (f_lseek (fp file) 0) ;; ret (_ff_errno r, file)
  else if fs_kind e =? FS_LITTLEFS then
    r <- call (lfs_file_seek (ref_index (filesys file)) (fp file) 0
                 LFS_SEEK_SET) ;;
    ret (r, file)
  else if fs_kind e =? FS_JESFS then
    ' (r, d) <- call (fs_rewind (jes file)) ;;
    ret (_jes_errno r, set_jes file d)
  else ret (- EBADF, file).

(** The buffer after the library stored [data] at [&buff[rv]]. *)
Definition store_at (rv : nat) (data buff : list Z) : list Z :=
  firstn rv buff ++ store data (skipn rv buff).

(** The [while] of the LittleFS case of [vfs_gets], run for at most [fuel]
    rounds: the buffer it leaves.  [buff] is the memory at [buff]; a round
    that passes an element beyond it to the library is undefined. *)
Fixpoint lfs_gets (fuel : nat) (i fp : nat) (buff : list Z) (len rv : Z)
  {struct fuel} : M (list Z) :=
  match fuel with
  | O => out_of_fuel
  | S k =>
      if rv <? len - 1 then
        if (Z.to_nat rv <? List.length buff)%nat then
          ' (r, data) <- call (lfs_file_read i fp 1) ;;
          let buff := store_at (Z.to_nat rv) data buff in
          if 0 <? r then
            if nth (Z.to_nat rv) buff 0 =? 10 then
              ret (store_at (Z.to_nat rv) [0] buff)
            else lfs_gets k i fp buff len (rv + 1)
          else lfs_gets k i fp buff len rv
        else undefined
      else ret buff
  end.

(** The [while] of the JesFs case: the buffer and the descriptor it
    leaves. *)
Fixpoint jes_gets (fuel : nat) (d : FS_DESC) (buff : list Z) (len rv : Z)
  {struct fuel} : M (list Z * FS_DESC) :=
  match fuel with
  | O => out_of_fuel
  | S k =>
      if rv <? len - 1 then
        if (Z.to_nat rv <? List.length buff)%nat then
          ' (r, data, d) <- call (fs_read d 1) ;;
          let buff := store_at (Z.to_nat rv) data buff in
          if 0 <? r then
            if nth (Z.to_nat rv) buff 0 =? 10 then
              ret (store_at (Z.to_nat rv) [0] buff, d)
            else jes_gets k d buff len (rv + 1)
          else jes_gets k d buff len rv
        else undefined
      else ret (buff, d)
  end.

Section Unlisted.

(** The functions of FatFs and LittleFS that [Call] does not list, as what
    they do in a world; [i] stands for the [lfs_t] of entry [i].  [f_gets]
    gives whether its result is [buff] and not a null pointer, and the
    buffer as it leaves it. *)
Variable f_eof : nat -> M Z.
Variable f_gets : list Z -> Z -> nat -> M (bool * list Z).
Variable lfs_file_tell : nat -> nat -> M Z.
Variable lfs_file_size : nat -> nat -> M Z.

(** [vfs_file_tell(file)]. *)
Definition vfs_file_tell (file : VfsFile_t) : M Z :=
  e <- deref (filesys file) ;;
  if fs_kind e =? FS_FATFS then
    r <- call (f_tell (fp file)) ;; ret (u32 r)
  else if fs_kind e =? FS_LITTLEFS then
    r <- lfs_file_tell (ref_index (filesys file)) (fp file) ;; ret (u32 r)
  else if fs_kind e =? FS_JESFS then
    (* Assumes valid file handle *)
    ret (u32 (file_pos (jes file)))
  else ret 0.

(** [vfs_file_size(file)]. *)
Definition vfs_file_size (file : VfsFile_t) : M Z :=
  e <- deref (filesys file) ;;
  if fs_kind e =? FS_FATFS then
    r <- call (f_size (fp file)) ;; ret (u32 r)
  else if fs_kind e =? FS_LITTLEFS then
    r <- lfs_file_size (ref_index (filesys file)) (fp file) ;; ret (u32 r)
  else if fs_kind e =? FS_JESFS then
    (* Assumes valid file handle *)
    ret (u32 (file_len (jes file)))
  else ret 0.

(** [vfs_file_eof(file)]; its [switch] has no case for JesFs.  The two
    calls of the LittleFS case are taken from left to right. *)
Definition vfs_file_eof (file : VfsFile_t) : M Z :=
  e <- deref (filesys file) ;;
  r <- (if fs_kind e =? FS_FATFS then
          r <- f_eof (fp file) ;; ret (u32 r)
        else if fs_kind e =? FS_LITTLEFS then
          t <- lfs_file_tell (ref_index (filesys file)) (fp file) ;;
          s <- lfs_file_size (ref_index (filesys file)) (fp file) ;;
          ret (if t =? s then 1 else 0)
        else ret 0) ;;
  ret (s32 r).

(** [vfs_gets(buff, len, file)]: whether the result is [buff] and not a null
    pointer, the buffer and the handle.  [len - 1] overflows for the least
    [int]. *)
Definition vfs_gets (fuel : nat) (buff : list Z) (len : Z)
  (file : VfsFile_t) : M (bool * list Z * VfsFile_t) :=
  e <- deref (filesys file) ;;
  if fs_kind e =? FS_FATFS then
    ' (r, buff) <- f_gets buff len (fp file) ;;
    ret (r, buff, file)
  else if fs_kind e =? FS_LITTLEFS then
    if len =? - 2 ^ 31 then undefined
    else
      buff <- lfs_gets fuel (ref_index (filesys file)) (fp file) buff len 0 ;;
      ret (true, buff, file)
  else if fs_kind e =? FS_JESFS then
    if len =? - 2 ^ 31 then undefined
    else
      ' (buff, d) <- jes_gets fuel (jes file) buff len 0 ;;
      ret (true, buff, set_jes file d)
  else ret (false, buff, file).

(** [feof(stream)] of the POSIX layer; the two calls are taken from left to
    right. *)
Definition feof (stream : option VfsFile_t) : M Z :=
  match stream with
  | None => undefined
  | Some file =>
      t <- vfs_file_tell file ;;
      s <- vfs_file_size file ;;
      ret (if t =? s then 1 else 0)
  end.

End Unlisted.

(** *** Writing and copying (vfs.c, lines 744-797 and 1664-1705) *)

(** The bytes of a string. *)
Definition chars (s : string) : list Z :=
  map (fun c => Z.of_nat (nat_of_ascii c)) (list_ascii_of_string s).

(** The string [vfs_copy] builds at [buf] with [strcpy] and [strcat]: the
    destination, with the file name of the source behind a last '/' and the
    path of the source from its first '/' on behind a last ':'.  [None]
    where that is undefined: a string longer than the 128 bytes of [buf],
    an empty destination, whose last character is read in front of it, and
    a source without the '/' that is searched for. *)
Definition copy_target (source dest : string) : option string :=
  if (128 <? strlen dest + 1)%nat then None
  else if (strlen dest =? 0)%nat then None
  else
    let buf := take (strlen dest) dest in
    let last := char_at dest (strlen dest - 1) in
    if Ascii.eqb last "/"%char then
      match strrchr source "/"%char with
      | Some p =>
          let name := drop 1 p in
          if (128 <? strlen dest + strlen name + 1)%nat then None
          else Some (buf ++ take (strlen name) name)%string
      | None => None
      end
    else if Ascii.eqb last ":"%char then
      match strchr source "/"%char with
      | Some p =>
          if (128 <? strlen dest + strlen p + 1)%nat then None
          else Some (buf ++ take (strlen p) p)%string
      | None => None
      end
    else Some buf.

Section Writers.

(** The write functions of the three libraries, which [Call] does not
    list, as what they do in a world; each is given the bytes at [buffer].
    [f_write] gives its [FRESULT] and the count it stores at [*bw]. *)
Variable f_write : nat -> list Z -> M (Z * Z).
Variable lfs_file_write : nat -> nat -> list Z -> M Z.
Variable fs_write : FS_DESC -> list Z -> M (Z * FS_DESC).

(** [vfs_file_write(file, buffer, size)], [data] the [size] bytes at
    [buffer]: the [size_t] returned, and the handle. *)
Definition vfs_file_write (file : VfsFile_t) (data : list Z)
  : M (Z * VfsFile_t) :=
  e <- deref (filesys file) ;;
  if fs_kind e =? FS_FATFS then
    ' (res, bw) <- f_write (fp file) data ;;
    let r := u32 (_ff_errno res) in
    let r := if r =? 0 then u32 bw else r in
    ret (r, file)
  else if fs_kind e =? FS_LITTLEFS then
    t <- call time ;;
    let file := set_modified file t in
    r <- lfs_file_write (ref_index (filesys file)) (fp file) data ;;
    ret (u32 r, file)
  else if fs_kind e =? FS_JESFS then
    ' (r, d) <- fs_write (jes file) data ;;
    ret (u32 (_jes_errno r), set_jes file d)
  else ret (0, file).

(** [vfs_putc(c, file)] and [vfs_puts(str, file)]: the [int] returned. *)
Definition vfs_putc (c : Z) (file : VfsFile_t) : M (Z * VfsFile_t) :=
  ' (r, file) <- vfs_file_write file [c] ;;
  ret (s32 r, file).

Definition vfs_puts (str : option string) (file : VfsFile_t)
  : M (Z * VfsFile_t) :=
  str <- deref_str str ;;
  ' (r, file) <- vfs_file_write file (chars (take (strlen str) str)) ;;
  ret (s32 r, file).

(** The [while] of [vfs_copy], run for at most [fuel] rounds: the last
    value of [ret], and the two handles. *)
Fixpoint copy_loop (fuel : nat) (vSrc vDst : VfsFile_t) (buf : list Z)
  {struct fuel} : M (Z * VfsFile_t * VfsFile_t) :=
  match fuel with
  | O => out_of_fuel
  | S k =>
      ' (n, data, vSrc) <- vfs_file_read vSrc 128 ;;
      let r := s32 n in
      let buf := store data buf in
      if 0 <? r then
        ' (n, vDst) <- vfs_file_write vDst (firstn (Z.to_nat r) buf) ;;
        let r := s32 n in
        if r <? 0 then
          (* Abort on write error *)
          ret (r, vSrc, vDst)
        else copy_loop k vSrc vDst buf
      else ret (r, vSrc, vDst)
  end.

(** [vfs_copy(source, dest)].  [xs] and [xd] are the two local handles and
    [buf] what the local buffer holds on entry. *)
Definition vfs_copy (fuel : nat) (xs xd : VfsFile_t) (buf : list Z)
  (source dest : option string) : M Z :=
  ' (r, vSrc) <- vfs_file_open xs source VFS_RDONLY ;;
  if r =? 0 then
    ' (_, info) <- vfs_stat source ;;
    source <- deref_str source ;;
    dest <- deref_str dest ;;
    match copy_target source dest with
    | None => undefined
    | Some target =>
        let buf := store (chars target ++ [0]) buf in
        ' (r, vDst) <- vfs_file_open xd (Some target)
                         (Z.lor VFS_WRONLY (Z.lor VFS_CREAT VFS_TRUNC)) ;;
        ' (r, vSrc) <-
          (if r =? 0 then
             (* Copy file attributes *)
             vfs_touch (Some target) info ;;;
             ' (r, vSrc, vDst) <- copy_loop fuel vSrc vDst buf ;;
             vfs_file_close vDst ;;;
             ret (r, vSrc)
           else ret (r, vSrc)) ;;
        vfs_file_close vSrc ;;;
        ret r
    end
  else ret r.

End Writers.

End Operations.

(** *** The callback's view of a run

    The events a stretch of the log holds, oldest first, each with the
    position of the entry whose callback was called. *)
Definition event_of (l : Logged) : option (nat * VfsEvent_t) :=
  match l with
  | existT _ _ (c, _) =>
      match c with
      | eventcb_call i ev => Some (i, ev)
      | _ => None
      end
  end.

Fixpoint events (l : list Logged) : list (nat * VfsEvent_t) :=
  match l with
  | [] => []
  | x :: l' =>
      match event_of x with
      | Some ev => ev :: events l'
      | None => events l'
      end
  end.

(** *** The libraries' view of the directory handles

    What a logged call does to a directory handle of FatFs or LittleFS: an
    open answered with success (a code the wrapper returns 0 for), an open
    refused, a close. *)
Inductive DirCall : Type := DirOpened | DirOpenFailed | DirClosed.

Definition dir_call_of (l : Logged) : option DirCall :=
  match l with
  | existT _ _ (c, r) =>
      match c in Call R return R -> option DirCall with
      | f_opendir _ _ =>
          fun r => Some (if _ff_errno r =? 0 then DirOpened else DirOpenFailed)
      | lfs_dir_open _ _ _ =>
          fun r => Some (if r =? 0 then DirOpened else DirOpenFailed)
      | f_closedir _ => fun _ => Some DirClosed
      | lfs_dir_close _ _ => fun _ => Some DirClosed
      | _ => fun _ => None
      end r
  end.

Fixpoint dir_calls (l : list Logged) : list DirCall :=
  match l with
  | [] => []
  | x :: l' =>
      match dir_call_of x with
      | Some c => c :: dir_calls l'
      | None => dir_calls l'
      end
  end.

(** The entry behind the handle keeps its directories in a library: JesFs
    and the root listing have a counter in the handle and nothing else. *)
Definition lib_dir (tbl : list FileSystem_t) (dir : VfsDir_t) : bool :=
  match dir_filesys dir with
  | RefEntry k =>
      match nth_error tbl k with
      | Some e => (fs_kind e =? FS_FATFS) || (fs_kind e =? FS_LITTLEFS)
      | None => false
      end
  | _ => false
  end.

(** A run from [w] to [w'] that opened and closed no directory and left the
    drive table, the drive of the handle and its pattern as they were. *)
Definition quiet {bkd : Backend} (w w' : World) (dir dir' : VfsDir_t) : Prop :=
  (exists l, calls w' = calls w ++ l /\ dir_calls l = []) /\
  vFileSystem w' = vFileSystem w /\
  dir_filesys dir' = dir_filesys dir /\ pattern dir' = pattern dir.

(** *** Specification side of the properties of Part II *)

(** The extension [_jes_truncate_path] keeps: the name from its last dot. *)
Definition extension (path : string) : string :=
  match strrchr path "."%char with
  | Some e => take (strlen e) e
  | None => EmptyString
  end.

(** A run from [w] to [w'] that left the drive table as it was and called no
    callback. *)
Definition keeps_table {bkd : Backend} (w w' : World) : Prop :=
  vFileSystem w' = vFileSystem w /\
  exists l, calls w' = calls w ++ l /\ events l = [].

(** What a logged call does to the number of blocks held from [vfs_malloc]. *)
Definition heap_of (l : Logged) : Z :=
  match l with
  | existT _ _ (c, r) =>
      match c in Call R return R -> Z with
      | vfs_malloc => fun ok => if ok then 1 else 0
      | vfs_free => fun _ => -1
      | _ => fun _ => 0
      end r
  end.

Fixpoint heap_delta (l : list Logged) : Z :=
  match l with
  | [] => 0
  | x :: l' => heap_of x + heap_delta l'
  end.

End Vfs.

(** ** A simulated backend

    One file and one directory on a medium held in memory, for running the
    wrapper on concrete inputs. *)

Module Sim.
Import Vfs.

(** Values of ff.h (R0.12), lfs.h (v2) and jesfs.h. *)
#[export] Instance headers : Headers := {|
  FA_READ := 0x01;
  FA_WRITE := 0x02;
  FA_CREATE_NEW := 0x04;
  FA_CREATE_ALWAYS := 0x08;
  FA_OPEN_ALWAYS := 0x10;
  AM_RDO := 0x01;
  AM_HID := 0x02;
  AM_SYS := 0x04;
  AM_DIR := 0x10;
  FF_MAX_SS := 512;
  FF_USE_LABEL := false;
  LFS_O_RDONLY := 1;
  LFS_O_WRONLY := 2;
  LFS_O_CREAT := 0x0100;
  LFS_O_EXCL := 0x0200;
  LFS_O_TRUNC := 0x0400;
  LFS_ERR_NOATTR := -61;
  LFS_TYPE_DIR := 0x002;
  LFS_SEEK_SET := 0;
  SF_OPEN_READ := 1;
  SF_OPEN_CREATE := 2;
  SF_OPEN_WRITE := 4;
  SF_OPEN_RAW := 8;
  SF_OPEN_CRC := 16;
  FS_STAT_ACTIVE := 1;
  FS_START_NORMAL := 0;
  FS_FORMAT_SOFT := 2;
  SF_SECTOR_PH := 4096;
  FNAMELEN := 21
|}.

(** The defaults of vfs.h. *)
#[export] Instance config : Config := {|
  INODE_STORAGE_BITS := 2;
  INODE_FOLDER_BITS := 10;
  FATFS_CREATE_DT := false
|}.

Record State : Type := mkState {
  content : list Z;        (* the bytes of the file *)
  position : Z;            (* its read/write pointer *)
  listing : list string;   (* the names the directory has left to give *)
  mounts : list Z          (* what the next mount attempts answer *)
}.

Definition no_fileinfo : FILINFO :=
  mkFILINFO EmptyString 0 0 0 Timestamp.blank.

(** The silent answer to a call: success, and nothing in the buffers. *)
Definition silent {R : Type} (c : Call R) : R :=
  match c in Call R return R with
  | vfs_malloc => true
  | vfs_free => tt
  | time => 0
  | gmtime _ => Timestamp.mktm 0 0 0 1 0 70
  | f_open _ _ _ => 0
  | f_close _ => 0
  | f_read _ _ => (0, [])
  | f_lseek _ _ => 0
  | f_tell _ => 0
  | f_size _ => 0
  | f_opendir _ _ => 0
  | f_closedir _ => 0
  | f_readdir _ => (0, no_fileinfo)
  | f_stat _ => (0, no_fileinfo)
  | f_getfree _ => (0, (0, PtrStatic, 1, 2))
  | f_getlabel _ => (0, EmptyString)
  | f_setlabel _ => 0
  | f_mkdir _ => 0
  | f_unlink _ => 0
  | f_rename _ _ => 0
  | f_chmod _ _ _ => 0
  | f_utime _ _ => 0
  | f_mount _ _ _ => 0
  | f_mkfs _ => 0
  | fatfs_csize _ => 1
  | lfs_file_opencfg _ _ _ _ => 0
  | lfs_file_close _ _ => 0
  | lfs_file_read _ _ _ => (0, [])
  | lfs_file_seek _ _ _ _ => 0
  | lfs_dir_open _ _ _ => 0
  | lfs_dir_close _ _ => 0
  | lfs_dir_read _ _ => (0, mklfs_info 0 0 EmptyString)
  | lfs_stat _ _ => (0, mklfs_info 0 0 EmptyString)
  | lfs_getattr _ _ _ _ => (0, None)
  | lfs_setattr _ _ _ _ _ => 0
  | lfs_fs_size _ => 0
  | lfs_block_size _ => 4096
  | lfs_block_count _ => 256
  | lfs_mkdir _ _ => 0
  | lfs_remove _ _ => 0
  | lfs_rename _ _ _ => 0
  | lfs_mount _ => 0
  | lfs_unmount _ => 0
  | lfs_format _ => 0
  | fs_open _ _ => (0, mkFS_DESC 0 0 0)
  | fs_close _ => 0
  | fs_read d _ => (0, [], d)
  | fs_rewind d => (0, d)
  | fs_delete _ => 0
  | fs_rename _ _ => 0
  | fs_info _ => (0, mkFS_STAT EmptyString 0 0)
  | fs_start _ => 0
  | fs_format _ => 0
  | sflash_info => mkSFLASH_INFO 0 0 0
  | jesfs_label _ => EmptyString
  | eventcb_call _ _ => tt
  end.

(** The next [n] bytes of the file from the pointer. *)
Definition chunk (st : State) (n : Z) : list Z :=
  firstn (Z.to_nat n) (skipn (Z.to_nat (position st)) (content st)).

Definition advance (st : State) (n : Z) : State :=
  mkState (content st) (position st + n) (listing st) (mounts st).

Definition seek_to (st : State) (pos : Z) : State :=
  mkState (content st) pos (listing st) (mounts st).

Definition next_name (st : State) : string * State :=
  match listing st with
  | [] => (EmptyString, st)
  | n :: l => (n, mkState (content st) (position st) l (mounts st))
  end.

Definition next_mount (st : State) : Z * State :=
  match mounts st with
  | [] => (0, st)
  | r :: l => (r, mkState (content st) (position st) (listing st) l)
  end.

Definition file_size (st : State) : Z := Z.of_nat (List.length (content st)).

(** The simulated libraries.  Reading gives the bytes of the file; seeking
    beyond the end of the file stops at the end, as [f_lseek] does on a file
    opened for reading; listing gives the names in turn. *)
Definition answer (R : Type) (st : State) (c : Call R) : R * State :=
  match c in Call R return R * State with
  | f_read _ n =>
      let d := chunk st n in
      ((0, d), advance st (Z.of_nat (List.length d)))
  | lfs_file_read _ _ n =>
      let d := chunk st n in
      ((Z.of_nat (List.length d), d), advance st (Z.of_nat (List.length d)))
  | f_size _ => (file_size st, st)
  | f_tell _ => (position st, st)
  | f_lseek _ ofs => (0, seek_to st (Z.min ofs (file_size st)))
  | lfs_file_seek _ _ off whence =>
      let target :=
        if whence =? SEEK_SET then off
        else if whence =? SEEK_CUR then position st + off
        else file_size st + off in
      let pos := Z.min target (file_size st) in
      (pos, seek_to st pos)
  | f_stat _ =>
      ((0, mkFILINFO "f" (file_size st) 0 0 Timestamp.blank), st)
  | lfs_stat _ _ => ((0, mklfs_info 1 (file_size st) "f"), st)
  | f_readdir _ =>
      let '(n, st') := next_name st in
      ((0, mkFILINFO n 0 0 0 Timestamp.blank), st')
  | lfs_dir_read _ _ =>
      let '(n, st') := next_name st in
      ((if (String.length n =? 0)%nat then 0 else 1, mklfs_info 1 0 n), st')
  | f_mount _ _ _ => next_mount st
  | lfs_mount _ => next_mount st
  | fs_start _ => next_mount st
  | c => (silent c, st)
  end.

#[export] Instance backend : Backend := {|
  BState := State;
  respond := answer
|}.

Definition world (tbl : list FileSystem_t) (st : State) : World :=
  mkWorld tbl st [].

Definition no_file : VfsFile_t := mkVfsFile RefNull 0 0 (mkFS_DESC 0 0 0).
Definition no_dir : VfsDir_t := mkVfsDir RefNull 0 0 EmptyString 0 None.

(** What a run returned, without the world it ended in. *)
Definition result {A : Type} (o : outcome A) : option A :=
  match o with
  | Ok a _ => Some a
  | _ => None
  end.

Definition final {A : Type} (o : outcome A) : option World :=
  match o with
  | Ok _ w => Some w
  | _ => None
  end.

(** A file of ten bytes behind a LittleFS drive and behind a FatFs drive,
    and a handle open on it. *)
Definition ten : State := mkState [0; 1; 2; 3; 4; 5; 6; 7; 8; 9] 0 [] [].
Definition lfs_drive : FileSystem_t :=
  mkFileSystem "L:" PtrStatic true FS_LITTLEFS 1 2.
Definition fat_drive : FileSystem_t :=
  mkFileSystem "A:" PtrStatic true FS_FATFS 1 2.
Definition open_file : VfsFile_t :=
  mkVfsFile (RefEntry 0) 0 0 (mkFS_DESC 0 0 0).

(** The table of vfs_conf_template.c: one JesFs drive on the SPI flash, not
    started yet. *)
Definition jes_drive : FileSystem_t :=
  mkFileSystem "SPI:" PtrNull true (Z.lor FS_JESFS FS_FIXED) 0 4.

(** A FatFs drive not mounted yet, on a medium whose first mount attempt
    finds no filesystem and whose second succeeds. *)
Definition fresh_fat_drive : FileSystem_t :=
  mkFileSystem "A:" PtrStatic true FS_FATFS 0 2.
Definition unformatted : State := mkState [] 0 [] [FR_NO_FILESYSTEM; 0].

(** The worlds after the first and the second mount attempt on it. *)
Definition failed_once : World :=
  mkWorld [fresh_fat_drive] (mkState [] 0 [] [0])
    [logged (f_mount PtrStatic "A:" 0) FR_NO_FILESYSTEM;
     logged (eventcb_call 0 EVT_MOUNT_FAIL) tt].
Definition mounted : World :=
  mkWorld [mkFileSystem "A:" PtrStatic true FS_FATFS 1 2] (mkState [] 0 [] [])
    (calls failed_once ++
     [logged (f_mount PtrStatic "A:" 0) 0;
      logged (eventcb_call 0 EVT_MOUNT) tt]).

(** The JesFs table after [fs_start] has succeeded. *)
Definition jes_started : World :=
  mkWorld [mkFileSystem "SPI:" PtrNull true (Z.lor FS_JESFS FS_FIXED) 1 4] ten
    [logged (fs_start FS_START_NORMAL) 0;
     logged (eventcb_call 0 EVT_MOUNT) tt].

(** A medium that holds one file, its bytes [c], read up to byte [p]. *)
Definition file_at (c : list Z) (p : nat) : State :=
  mkState c (Z.of_nat p) [] [].

(** A FatFs directory that has the names [names] left to give. *)
Definition shelf (names : list string) : State := mkState [] 0 names [].

(** A name FatFs can give: [f_readdir] ends the listing with an empty one. *)
Definition named (n : string) : bool := negb (is_nul (peek n)).

(** A handle on the drive at position 0. *)
Definition on_drive (dir : VfsDir_t) : Prop := dir_filesys dir = RefEntry 0.

(** The name [vfs_findnext] stops at: the first that matches once cut to the
    63 characters of [info->name]. *)
Definition first_match (pat : string) (names : list string) : option string :=
  find (fun n => Wildcard.pattern_matching pat (take 63 n) 0 0) names.

(** Two names, neither a C source; what a find for "*.c" leaves behind. *)
Definition two_names : list string := ["a.txt"%string; "b.bin"%string].
Definition entry_of (n : string) : FILINFO :=
  mkFILINFO n 0 0 0 Timestamp.blank.
Definition last_seen : VfsInfo_t :=
  mkVfsInfo "b.bin" 0 315446400 315446400 71 1 1048576 0 512.
Definition after_no_match : World :=
  mkWorld [fat_drive] (shelf [])
    [logged (f_opendir 0 "A:") 0;
     logged (f_readdir 0) (0, entry_of "a.txt");
     logged (fatfs_csize 0) 1;
     logged (f_readdir 0) (0, entry_of "b.bin");
     logged (fatfs_csize 0) 1;
     logged (f_readdir 0) (0, entry_of EmptyString);
     logged (f_closedir 0) 0].

End Sim.

(** * Part II: properties *)

Module CIntFacts.

Lemma u32_small x : 0 <= x < 2 ^ 32 -> u32 x = x.
Proof. intros H. unfold u32. now apply Z.mod_small. Qed.

Lemma u32_range x : 0 <= u32 x < 2 ^ 32.
Proof. unfold u32. apply Z.mod_pos_bound. lia. Qed.

(** Two bit fields that do not overlap are joined by [|] as by [+]. *)
Lemma lor_disjoint_add a b n :
  0 <= n -> 0 <= b < 2 ^ n -> Z.lor (a * 2 ^ n) b = a * 2 ^ n + b.
Proof.
  intros Hn Hb.
  assert (Hand : Z.land (a * 2 ^ n) b = 0).
  { apply Z.bits_inj'. intros k Hk.
    rewrite Z.land_spec, Z.bits_0.
    destruct (Z.lt_ge_cases k n) as [Hlt | Hge].
    - rewrite Z.mul_pow2_bits_low by lia. reflexivity.
    - replace (Z.testbit b k) with false; [apply andb_false_r|].
      symmetry. destruct (Z.eq_dec b 0) as [-> | Hnz]; [apply Z.bits_0|].
      apply Z.bits_above_log2; [lia|].
      apply Z.lt_le_trans with n; [apply Z.log2_lt_pow2; lia | lia]. }
  rewrite <- (Z.add_lor_land (a * 2 ^ n) b), Hand. lia.
Qed.

Lemma land_low_mask x n :
  0 <= n -> 0 <= x < 2 ^ n -> Z.land x (2 ^ n - 1) = x.
Proof.
  intros Hn Hx.
  replace (2 ^ n - 1) with (Z.ones n) by (rewrite Z.ones_equiv; lia).
  rewrite Z.land_ones by lia. now apply Z.mod_small.
Qed.

End CIntFacts.
Import CIntFacts.

(** ** The checksum: CRC_FUNC *)

Module CrcFacts.
Import Crc.

(** Shifting is linear for exclusive or, and so is a step. *)
Lemma shl32_lxor a b n :
  0 <= n -> shl32 (Z.lxor a b) n = Z.lxor (shl32 a n) (shl32 b n).
Proof.
  intros Hn. unfold shl32, u32.
  rewrite <- !Z.land_ones by lia.
  rewrite Z.shiftl_lxor.
  apply Z.bits_inj'. intros k _.
  rewrite !Z.lxor_spec, !Z.land_spec, !Z.lxor_spec.
  destruct (Z.testbit (Z.shiftl a n) k), (Z.testbit (Z.shiftl b n) k),
    (Z.testbit (Z.ones 32) k); reflexivity.
Qed.

Lemma lxor_swap a b c d :
  Z.lxor (Z.lxor a b) (Z.lxor c d) = Z.lxor (Z.lxor a c) (Z.lxor b d).
Proof.
  apply Z.bits_inj'. intros n _. rewrite !Z.lxor_spec.
  destruct (Z.testbit a n), (Z.testbit b n), (Z.testbit c n), (Z.testbit d n);
    reflexivity.
Qed.

Lemma poly_step_lxor a b :
  poly_step (Z.lxor a b) = Z.lxor (poly_step a) (poly_step b).
Proof.
  unfold poly_step. rewrite shl32_lxor by lia. rewrite Z.lxor_spec.
  rewrite lxor_swap. f_equal.
  destruct (Z.testbit a 31), (Z.testbit b 31); simpl xorb; cbv iota;
    now rewrite ?Z.lxor_nilpotent, ?Z.lxor_0_r, ?Z.lxor_0_l.
Qed.

Lemma poly_nibble_lxor a b :
  poly_nibble (Z.lxor a b) = Z.lxor (poly_nibble a) (poly_nibble b).
Proof. unfold poly_nibble. now rewrite !poly_step_lxor. Qed.

(** A register with its top bit clear is shifted and nothing else. *)
Lemma poly_step_low x : 0 <= x < 2 ^ 31 -> poly_step x = 2 * x.
Proof.
  intros Hx. unfold poly_step.
  assert (Hbit : Z.testbit x 31 = false).
  { destruct (Z.eq_dec x 0) as [-> | Hnz]; [reflexivity|].
    apply Z.bits_above_log2; [lia|]. apply Z.log2_lt_pow2; lia. }
  rewrite Hbit, Z.lxor_0_r. unfold shl32.
  rewrite Z.shiftl_mul_pow2 by lia. rewrite u32_small; lia.
Qed.

Lemma poly_nibble_low x : 0 <= x < 2 ^ 28 -> poly_nibble x = 16 * x.
Proof.
  intros Hx. unfold poly_nibble.
  rewrite (poly_step_low x) by lia.
  rewrite (poly_step_low (2 * x)) by lia.
  rewrite (poly_step_low (2 * (2 * x))) by lia.
  rewrite (poly_step_low (2 * (2 * (2 * x)))) by lia. lia.
Qed.

(** The table holds what four steps make of each top nibble. *)
Lemma CrcTable_poly :
  CrcTable = map (fun i => poly_nibble (Z.of_nat i * 2 ^ 28)) (seq 0 16).
Proof. vm_compute. reflexivity. Qed.

(** A round of the table is four steps of one bit. *)
Lemma crc_round_poly c : 0 <= c < 2 ^ 32 -> crc_round c = poly_nibble c.
Proof.
  intros Hc.
  set (hi := c / 2 ^ 28). set (lo := c mod 2 ^ 28).
  assert (Hlo : 0 <= lo < 2 ^ 28) by (apply Z.mod_pos_bound; lia).
  assert (Hhi : 0 <= hi < 16).
  { unfold hi. split; [apply Z.div_pos; lia|].
    apply Z.div_lt_upper_bound; lia. }
  assert (Hsplit : c = hi * 2 ^ 28 + lo).
  { unfold hi, lo. rewrite Z.mul_comm. apply Z.div_mod. lia. }
  assert (Hx : c = Z.lxor (hi * 2 ^ 28) lo).
  { rewrite Hsplit at 1. rewrite <- lor_disjoint_add by lia.
    symmetry. apply Z.lxor_lor.
    apply Z.bits_inj'. intros k Hk.
    rewrite Z.land_spec, Z.bits_0.
    destruct (Z.lt_ge_cases k 28) as [Hlt | Hge].
    - rewrite Z.mul_pow2_bits_low by lia. reflexivity.
    - replace (Z.testbit lo k) with false; [apply andb_false_r|].
      symmetry. destruct (Z.eq_dec lo 0) as [-> | Hnz]; [apply Z.bits_0|].
      apply Z.bits_above_log2; [lia|].
      apply Z.lt_le_trans with 28; [apply Z.log2_lt_pow2; lia | lia]. }
  unfold crc_round.
  assert (Hshl : shl32 c 4 = 16 * lo).
  { unfold shl32, u32. rewrite Z.shiftl_mul_pow2 by lia. rewrite Hsplit.
    change (2 ^ 28) with 268435456 in *. change (2 ^ 4) with 16.
    change (2 ^ 32) with 4294967296 in *.
    replace ((hi * 268435456 + lo) * 16) with (16 * lo + hi * 4294967296)
      by lia.
    rewrite Z_mod_plus_full. apply Z.mod_small. lia. }
  assert (Hshr : shr32 c 28 = hi).
  { unfold shr32. now rewrite Z.shiftr_div_pow2 by lia. }
  rewrite Hshl, Hshr, Hx at 1.
  rewrite poly_nibble_lxor, (poly_nibble_low lo) by lia.
  rewrite Z.lxor_comm. f_equal.
  rewrite CrcTable_poly.
  assert (Hcase : hi = 0 \/ hi = 1 \/ hi = 2 \/ hi = 3 \/ hi = 4 \/ hi = 5 \/
                  hi = 6 \/ hi = 7 \/ hi = 8 \/ hi = 9 \/ hi = 10 \/ hi = 11 \/
                  hi = 12 \/ hi = 13 \/ hi = 14 \/ hi = 15) by lia.
  clearbody hi. clear -Hcase.
  repeat (destruct Hcase as [-> | Hcase]; [vm_compute; reflexivity|]).
  subst hi. vm_compute. reflexivity.
Qed.

Lemma lxor_u32 a b :
  0 <= a < 2 ^ 32 -> 0 <= b < 2 ^ 32 -> 0 <= Z.lxor a b < 2 ^ 32.
Proof.
  intros Ha Hb.
  assert (Hnn : 0 <= Z.lxor a b) by (apply Z.lxor_nonneg; lia).
  split; [exact Hnn|].
  destruct (Z.eq_dec (Z.lxor a b) 0) as [-> | Hnz]; [lia|].
  apply Z.log2_lt_pow2; [lia|].
  apply Z.le_lt_trans with (Z.max (Z.log2 a) (Z.log2 b));
    [apply Z.log2_lxor; lia|].
  assert (Hla : Z.log2 a < 32).
  { destruct (Z.eq_dec a 0) as [-> | Hna]; [simpl; lia|].
    apply Z.log2_lt_pow2; lia. }
  assert (Hlb : Z.log2 b < 32).
  { destruct (Z.eq_dec b 0) as [-> | Hnb]; [simpl; lia|].
    apply Z.log2_lt_pow2; lia. }
  lia.
Qed.

Lemma poly_step_range c : 0 <= poly_step c < 2 ^ 32.
Proof.
  unfold poly_step. apply lxor_u32.
  - unfold shl32. apply u32_range.
  - destruct (Z.testbit c 31); unfold POLY; lia.
Qed.

Lemma poly_nibble_range c : 0 <= poly_nibble c < 2 ^ 32.
Proof. unfold poly_nibble. apply poly_step_range. Qed.

(** A word is folded by 8 rounds of 4 steps of one bit. *)
Lemma crc_word_poly crc w :
  0 <= crc < 2 ^ 32 -> 0 <= w < 2 ^ 32 ->
  crc_word crc w = Nat.iter 8 poly_nibble (Z.lxor crc w).
Proof.
  intros Hcrc Hw. unfold crc_word.
  pose proof (lxor_u32 crc w Hcrc Hw) as Hx.
  generalize dependent (Z.lxor crc w). intros x Hx.
  cbv zeta. cbn [Nat.iter nat_rect].
  set (x1 := poly_nibble x).
  rewrite (crc_round_poly x) by exact Hx. fold x1.
  set (x2 := poly_nibble x1).
  rewrite (crc_round_poly x1) by apply poly_nibble_range. fold x2.
  set (x3 := poly_nibble x2).
  rewrite (crc_round_poly x2) by apply poly_nibble_range. fold x3.
  set (x4 := poly_nibble x3).
  rewrite (crc_round_poly x3) by apply poly_nibble_range. fold x4.
  set (x5 := poly_nibble x4).
  rewrite (crc_round_poly x4) by apply poly_nibble_range. fold x5.
  set (x6 := poly_nibble x5).
  rewrite (crc_round_poly x5) by apply poly_nibble_range. fold x6.
  set (x7 := poly_nibble x6).
  rewrite (crc_round_poly x6) by apply poly_nibble_range. fold x7.
  apply crc_round_poly. apply poly_nibble_range.
Qed.

End CrcFacts.

(** ** Inode numbers *)

Module InodeFacts.
Import Inode.

Section Widths.

Variables INODE_STORAGE_BITS INODE_FOLDER_BITS : Z.

Hypothesis storage_bits_pos : 0 < INODE_STORAGE_BITS.
Hypothesis folder_bits_nonneg : 0 <= INODE_FOLDER_BITS.
Hypothesis item_bits_pos :
  INODE_STORAGE_BITS + INODE_FOLDER_BITS < 32.

Local Abbreviation SB := INODE_STORAGE_BITS.
Local Abbreviation FB := INODE_FOLDER_BITS.
Local Abbreviation IB := (INODE_ITEM_BITS SB FB).
Local Abbreviation ITEM_MASK := (INODE_ITEM_MASK SB FB).
Local Abbreviation FOLDER_MASK := (INODE_FOLDER_MASK SB FB).
Local Abbreviation pack := (inode_pack SB FB).

Lemma item_bits_eq : IB = 32 - FB - SB.
Proof. reflexivity. Qed.

Lemma pow_split : 2 ^ 32 = 2 ^ SB * 2 ^ FB * 2 ^ IB.
Proof.
  rewrite <- !Z.pow_add_r by (unfold INODE_ITEM_BITS; lia).
  f_equal. unfold INODE_ITEM_BITS. lia.
Qed.

Lemma item_mask_eq : ITEM_MASK = 2 ^ IB - 1.
Proof.
  unfold INODE_ITEM_MASK, shr32, UINT32_MAX.
  rewrite Z.shiftr_div_pow2 by lia.
  change 4294967295 with (2 ^ 32 - 1).
  assert (Hs : 2 ^ 32 = 2 ^ IB * 2 ^ (FB + SB)).
  { rewrite <- Z.pow_add_r by (unfold INODE_ITEM_BITS; lia).
    f_equal. unfold INODE_ITEM_BITS. lia. }
  rewrite Hs.
  assert (0 < 2 ^ (FB + SB)) by (apply Z.pow_pos_nonneg; lia).
  assert (0 < 2 ^ IB)
    by (apply Z.pow_pos_nonneg; unfold INODE_ITEM_BITS; lia).
  symmetry. apply Z.div_unique with (r := 2 ^ (FB + SB) - 1); nia.
Qed.

Lemma folder_mask_eq : FOLDER_MASK = (2 ^ FB - 1) * 2 ^ IB.
Proof.
  assert (HIB : 0 < IB) by (unfold INODE_ITEM_BITS; lia).
  assert (HpS : 0 < 2 ^ SB) by (apply Z.pow_pos_nonneg; lia).
  assert (HpF : 0 < 2 ^ FB) by (apply Z.pow_pos_nonneg; lia).
  assert (HpI : 0 < 2 ^ IB) by (apply Z.pow_pos_nonneg; lia).
  pose proof pow_split as Hsplit.
  unfold INODE_FOLDER_MASK, shr32, shl32, u32, UINT32_MAX.
  rewrite Z.shiftr_div_pow2, Z.shiftl_mul_pow2 by lia.
  change 4294967295 with (2 ^ 32 - 1).
  assert (HFI : 2 ^ (FB + IB) = 2 ^ FB * 2 ^ IB)
    by (apply Z.pow_add_r; lia).
  assert (HpFI : 0 < 2 ^ FB * 2 ^ IB) by lia.
  (* the right shift keeps the low FB + IB bits set *)
  assert (Hr : (2 ^ 32 - 1) / 2 ^ SB = 2 ^ (FB + IB) - 1).
  { symmetry. apply Z.div_unique with (r := 2 ^ SB - 1); [lia|].
    rewrite HFI, Hsplit. ring. }
  (* the left shift, cut to 32 bits, keeps the high SB + FB bits set *)
  assert (Hl : ((2 ^ 32 - 1) * 2 ^ IB) mod 2 ^ 32
               = (2 ^ SB * 2 ^ FB - 1) * 2 ^ IB).
  { symmetry. apply Z.mod_unique with (q := 2 ^ IB - 1).
    - left. rewrite Hsplit. nia.
    - rewrite Hsplit. ring. }
  rewrite Hr, Hl.
  replace (2 ^ (FB + IB) - 1) with (Z.ones (FB + IB))
    by (rewrite Z.ones_equiv; lia).
  rewrite Z.land_comm, Z.land_ones by lia.
  symmetry. apply Z.mod_unique with (q := 2 ^ SB - 1).
  - left. rewrite HFI. nia.
  - rewrite HFI. ring.
Qed.

Section Fields.

Variables s f i : Z.
Hypothesis s_range : 0 <= s < 2 ^ SB.
Hypothesis f_range : 0 <= f < 2 ^ FB.
Hypothesis i_range : 0 <= i < 2 ^ IB.

(** The packed value is the positional sum of its three fields. *)
Lemma inode_pack_sum :
  pack s f i = s * (2 ^ FB * 2 ^ IB) + f * 2 ^ IB + i.
Proof.
  assert (HIB : 0 < IB) by (unfold INODE_ITEM_BITS; lia).
  assert (HpS : 0 < 2 ^ SB) by (apply Z.pow_pos_nonneg; lia).
  assert (HpF : 0 < 2 ^ FB) by (apply Z.pow_pos_nonneg; lia).
  assert (HpI : 0 < 2 ^ IB) by (apply Z.pow_pos_nonneg; lia).
  pose proof pow_split as Hsplit.
  unfold inode_pack, shl32.
  rewrite item_mask_eq, land_low_mask by lia.
  rewrite !Z.shiftl_mul_pow2 by lia.
  assert (Htop : 2 ^ (32 - SB) = 2 ^ FB * 2 ^ IB).
  { rewrite <- Z.pow_add_r by lia. f_equal.
    unfold INODE_ITEM_BITS. lia. }
  rewrite Htop.
  rewrite (u32_small (s * _)) by nia.
  rewrite (u32_small (f * _)) by nia.
  assert (HFI : 2 ^ (FB + IB) = 2 ^ FB * 2 ^ IB)
    by (apply Z.pow_add_r; lia).
  assert (Hf : 0 <= f * 2 ^ IB < 2 ^ (FB + IB)) by (rewrite HFI; nia).
  rewrite <- HFI.
  rewrite (lor_disjoint_add s (f * 2 ^ IB) (FB + IB))
    by lia.
  rewrite HFI.
  replace (s * (2 ^ FB * 2 ^ IB) + f * 2 ^ IB)
    with ((s * 2 ^ FB + f) * 2 ^ IB) by ring.
  rewrite lor_disjoint_add by lia. ring.
Qed.

Lemma storage_of_pack : INODE_STORAGE SB (pack s f i) = s.
Proof.
  assert (HIB : 0 < IB) by (unfold INODE_ITEM_BITS; lia).
  assert (HpF : 0 < 2 ^ FB) by (apply Z.pow_pos_nonneg; lia).
  assert (HpI : 0 < 2 ^ IB) by (apply Z.pow_pos_nonneg; lia).
  unfold INODE_STORAGE, shr32. rewrite inode_pack_sum.
  rewrite Z.shiftr_div_pow2 by lia.
  assert (Htop : 2 ^ (32 - INODE_STORAGE_BITS) = 2 ^ FB * 2 ^ IB).
  { rewrite <- Z.pow_add_r by lia. f_equal.
    unfold INODE_ITEM_BITS. lia. }
  rewrite Htop. symmetry.
  apply Z.div_unique with (r := f * 2 ^ IB + i); nia.
Qed.

Lemma folder_of_pack : INODE_FOLDER SB FB (pack s f i) = f.
Proof.
  assert (HIB : 0 < IB) by (unfold INODE_ITEM_BITS; lia).
  assert (HpF : 0 < 2 ^ FB) by (apply Z.pow_pos_nonneg; lia).
  assert (HpI : 0 < 2 ^ IB) by (apply Z.pow_pos_nonneg; lia).
  unfold INODE_FOLDER, shr32. rewrite inode_pack_sum, folder_mask_eq.
  change (32 - INODE_FOLDER_BITS - INODE_STORAGE_BITS) with IB.
  (* masking with the folder field: drop the item bits, keep FB bits *)
  assert (Hland : Z.land (s * (2 ^ FB * 2 ^ IB) + f * 2 ^ IB + i)
                         ((2 ^ FB - 1) * 2 ^ IB) = f * 2 ^ IB).
  { replace (s * (2 ^ FB * 2 ^ IB) + f * 2 ^ IB + i)
      with (i + (s * 2 ^ FB + f) * 2 ^ IB) by ring.
    replace (2 ^ FB - 1) with (Z.ones FB)
      by (rewrite Z.ones_equiv; lia).
    rewrite <- !(Z.shiftl_mul_pow2 _ IB) by lia.
    apply Z.bits_inj'. intros k Hk.
    rewrite Z.land_spec.
    destruct (Z.lt_ge_cases k IB) as [Hlt | Hge].
    - rewrite !(Z.shiftl_spec_low _ IB k) by lia. apply andb_false_r.
    - rewrite !(Z.shiftl_spec _ IB k) by lia.
      rewrite Z.shiftl_mul_pow2 by lia.
      assert (Hbit : Z.testbit (i + (s * 2 ^ FB + f) * 2 ^ IB) k
                     = Z.testbit (s * 2 ^ FB + f) (k - IB)).
      { replace k with ((k - IB) + IB) at 1 by lia.
        rewrite <- Z.div_pow2_bits by lia.
        rewrite Z.div_add by lia. rewrite Z.div_small by lia.
        reflexivity. }
      rewrite Hbit.
      rewrite Z.testbit_ones_nonneg by lia.
      destruct (Z.ltb_spec (k - IB) FB) as [Hlo | Hhi].
      + rewrite andb_true_r.
        rewrite <- (Z.mod_pow2_bits_low (s * 2 ^ FB + f) FB) by lia.
        rewrite Z.add_comm, Z.mod_add by lia.
        rewrite Z.mod_small by lia. reflexivity.
      + rewrite andb_false_r. symmetry.
        destruct (Z.eq_dec f 0) as [-> | Hnz]; [apply Z.bits_0|].
        apply Z.bits_above_log2; [lia|].
        apply Z.lt_le_trans with FB; [|lia].
        apply Z.log2_lt_pow2; lia. }
  rewrite Hland, Z.shiftr_div_pow2 by lia.
  apply Z.div_mul. lia.
Qed.

Lemma item_of_pack : Z.land (pack s f i) ITEM_MASK = i.
Proof.
  assert (HIB : 0 < IB) by (unfold INODE_ITEM_BITS; lia).
  assert (HpI : 0 < 2 ^ IB) by (apply Z.pow_pos_nonneg; lia).
  rewrite inode_pack_sum, item_mask_eq.
  replace (2 ^ IB - 1) with (Z.ones IB) by (rewrite Z.ones_equiv; lia).
  rewrite Z.land_ones by lia.
  replace (s * (2 ^ FB * 2 ^ IB) + f * 2 ^ IB + i)
    with (i + (s * 2 ^ FB + f) * 2 ^ IB) by ring.
  rewrite Z.mod_add by lia. apply Z.mod_small. lia.
Qed.

End Fields.

End Widths.

(** C2 (inode round-trip).  For field widths with at least one storage bit,
    no negative folder width and at least one item bit, and for fields within
    those widths, the three decoding macros of [vfs.h] recover storage,
    folder and item from the packed 32-bit value.  The defaults of [vfs.h]
    are widths 2, 10 and 20. *)
Theorem inode_roundtrip (SB FB s f i : Z) :
  0 < SB -> 0 <= FB -> SB + FB < 32 ->
  0 <= s < 2 ^ SB -> 0 <= f < 2 ^ FB -> 0 <= i < 2 ^ INODE_ITEM_BITS SB FB ->
  let x := inode_pack SB FB s f i in
  INODE_STORAGE SB x = s /\
  INODE_FOLDER SB FB x = f /\
  Z.land x (INODE_ITEM_MASK SB FB) = i.
Proof.
  intros HS HF HI Hs Hf Hi x. subst x. repeat split.
  - now apply storage_of_pack.
  - now apply folder_of_pack.
  - now apply item_of_pack.
Qed.

(** The round trip at the default widths of [vfs.h], on the largest fields. *)
Lemma inode_roundtrip_default :
  (0 < 2 /\ 0 <= 10 /\ 2 + 10 < 32) /\
  INODE_ITEM_BITS 2 10 = 20 /\
  let x := inode_pack 2 10 3 1023 1048575 in
  INODE_STORAGE 2 x = 3 /\
  INODE_FOLDER 2 10 x = 1023 /\
  Z.land x (INODE_ITEM_MASK 2 10) = 1048575.
Proof.
  split; [lia|]. split; [reflexivity|].
  apply (inode_roundtrip 2 10 3 1023 1048575); vm_compute; intuition congruence.
Defined.

End InodeFacts.

(** ** C strings *)

Module CStrFacts.

#[local] Arguments Ascii.eqb : simpl never.

Lemma is_nul_toupper c : is_nul (toupper c) = is_nul c.
Proof. destruct c as [[] [] [] [] [] [] [] []]; reflexivity. Qed.

Lemma is_nul_true c : is_nul c = true <-> c = zero.
Proof. unfold is_nul. apply Ascii.eqb_eq. Qed.

Lemma is_nul_false c : is_nul c = false <-> c <> zero.
Proof. unfold is_nul. apply Ascii.eqb_neq. Qed.

Lemma drop_nil k : drop k EmptyString = EmptyString.
Proof. destruct k; reflexivity. Qed.

Lemma drop_length k s : String.length (drop k s) = (String.length s - k)%nat.
Proof.
  revert s. induction k as [|k IH]; intros [|c s]; simpl; auto with arith.
Qed.

Lemma drop_drop j k s : drop j (drop k s) = drop (k + j) s.
Proof.
  revert s. induction k as [|k IH]; intros s; simpl; [reflexivity|].
  destruct s as [|c s]; [apply drop_nil | apply IH].
Qed.

Lemma drop_cons k s :
  (k < String.length s)%nat ->
  drop k s = String (peek (drop k s)) (drop (S k) s).
Proof.
  revert s. induction k as [|k IH]; intros [|c s] Hk; simpl in *; try lia.
  - reflexivity.
  - apply IH. lia.
Qed.

Lemma nonul_drop k s : nonul s -> nonul (drop k s).
Proof.
  revert s. induction k as [|k IH]; intros [|c s] H; simpl in *; auto.
  apply IH, H.
Qed.

Lemma peek_nul_empty s : nonul s -> peek s = zero -> s = EmptyString.
Proof. destruct s as [|c s]; simpl; [reflexivity|]. intros [Hc _] ->. now elim Hc. Qed.

Lemma toupper_nul c : toupper c = zero <-> c = zero.
Proof. rewrite <- !is_nul_true. now rewrite is_nul_toupper. Qed.

End CStrFacts.
Import CStrFacts.

(** ** Wildcard matcher *)

Module WildcardFacts.
Import Wildcard.

#[local] Arguments Ascii.eqb : simpl never.
#[local] Arguments toupper : simpl never.
#[local] Arguments is_wild : simpl never.
#[local] Arguments is_nul : simpl never.

Lemma pre_skip_spec k nam :
  nonul nam ->
  pre_skip k nam =
  if (k <=? String.length nam)%nat then Some (drop k nam) else None.
Proof.
  revert nam. induction k as [|k IH]; intros nam Hn; simpl; [reflexivity|].
  rewrite is_nul_toupper. destruct nam as [|c nam]; simpl in *; [reflexivity|].
  destruct Hn as [Hc Hn]. apply is_nul_false in Hc. rewrite Hc. now apply IH.
Qed.

Lemma pattern_matching_eq pat nam skip inf :
  pattern_matching pat nam skip inf =
  match pre_skip skip nam with
  | None => false
  | Some nam =>
      if is_nul (peek pat) && negb (inf =? 0) then true
      else retry pattern_matching pat inf nam
  end.
Proof. destruct pat; reflexivity. Qed.

(** Inversion of [wild] on the head of the pattern. *)

Lemma wild_nil_inv n : wild EmptyString n -> n = EmptyString.
Proof. inversion 1; reflexivity. Qed.

Lemma wild_lit_inv c p n :
  is_wild c = false -> wild (String c p) n ->
  exists d n', n = String d n' /\ toupper c = toupper d /\ wild p n'.
Proof.
  intros Hc H. inversion H; subst; try discriminate Hc.
  eexists _, _; eauto.
Qed.

Lemma wild_one_inv p n :
  wild (String "?"%char p) n -> exists d n', n = String d n' /\ wild p n'.
Proof.
  intros H. inversion H; subst; try discriminate.
  eexists _, _; eauto.
Qed.

Lemma wild_star_inv p n :
  wild (String "*"%char p) n ->
  exists j, (j <= String.length n)%nat /\ wild p (drop j n).
Proof.
  intros H. remember (String "*"%char p) as q eqn:Hq.
  induction H as [|c d p' n' Hc _ _ _| | |d p' n' H IH]; try discriminate.
  - injection Hq as -> _. discriminate Hc.
  - injection Hq as ->. exists 0%nat. split; [lia | assumption].
  - destruct (IH Hq) as [j [Hj Hw]]. injection Hq as ->.
    exists (S j). split; [simpl; lia | assumption].
Qed.

Lemma wild_star_drop p : forall j n,
  (j <= String.length n)%nat -> wild p (drop j n) -> wild (String "*"%char p) n.
Proof.
  induction j as [|j IH]; intros n Hj Hw.
  - now apply wild_star_none.
  - destruct n as [|d n]; simpl in *; [lia|].
    apply wild_star_more, IH; [lia | assumption].
Qed.

Lemma after_run_none pp np : after_run 0 0 pp np <-> wild pp np.
Proof.
  split.
  - intros [k [_ [Hk Hw]]]. now rewrite (Hk eq_refl) in Hw.
  - intros Hw. exists 0%nat. repeat split; [lia | lia | assumption].
Qed.

Lemma after_run_one nm nx pp np :
  after_run nm nx (String "?"%char pp) np <-> after_run (S nm) nx pp np.
Proof.
  split.
  - intros [k [Hk [Hx Hw]]]. apply wild_one_inv in Hw as [d [n' [Hd Hw]]].
    assert (Hlen : (k < String.length np)%nat).
    { pose proof (drop_length k np) as Hl. rewrite Hd in Hl. simpl in Hl. lia. }
    exists (S k). repeat split; [lia | lia | intros H; rewrite (Hx H); reflexivity |].
    rewrite (drop_cons k np Hlen) in Hd. now injection Hd as _ <-.
  - intros [k [Hk [Hx Hw]]]. destruct k as [|k]; [lia|].
    exists k. repeat split; [lia | lia | intros H; specialize (Hx H); lia |].
    rewrite (drop_cons k np) by lia. now apply wild_one.
Qed.

Lemma after_run_star nm nx pp np :
  after_run nm nx (String "*"%char pp) np <-> after_run nm 1 pp np.
Proof.
  split.
  - intros [k [Hk [_ Hw]]]. apply wild_star_inv in Hw as [j [Hj Hw]].
    rewrite drop_length in Hj. rewrite drop_drop in Hw.
    exists (k + j)%nat. repeat split; [lia | lia | lia | assumption].
  - intros [k [Hk [_ Hw]]].
    exists nm. repeat split; [lia | lia |].
    apply wild_star_drop with (j := (k - nm)%nat).
    + rewrite drop_length. lia.
    + rewrite drop_drop. now replace (nm + (k - nm))%nat with k by lia.
Qed.

Lemma rec_spec_le rec n m : (m <= n)%nat -> rec_spec rec n -> rec_spec rec m.
Proof. intros Hle H pp np nm nx Hl. apply H. lia. Qed.

Lemma is_wild_cases c :
  is_wild c = true -> c = "?"%char \/ c = "*"%char.
Proof.
  unfold is_wild. intros H. apply orb_true_iff in H.
  destruct H as [H | H]; apply Ascii.eqb_eq in H; auto.
Qed.

Section Branch.

Variable rec : string -> string -> nat -> Z -> bool.

Lemma wild_run_nc np : forall pp nm nx nc,
  wild_run rec np pp nm nx = Mismatched nc -> nc = peek np.
Proof.
  induction pp as [|c pp IH]; intros nm nx nc; simpl.
  - destruct (rec _ _ _ _); [discriminate | now intros [= <-]].
  - destruct (is_wild c).
    + destruct (Ascii.eqb c "?"); apply IH.
    + destruct (rec _ _ _ _); [discriminate | now intros [= <-]].
Qed.

Lemma wild_run_spec n np : forall pp nm nx,
  rec_spec rec n -> (String.length pp < n)%nat -> nonul pp -> nonul np ->
  (wild_run rec np pp nm nx = Matched <-> after_run nm nx pp np).
Proof.
  induction pp as [|c pp IH]; intros nm nx Hrec Hlen Hpp Hnp.
  - simpl. rewrite <- (Hrec EmptyString np nm nx Hlen Hpp Hnp).
    destruct (rec _ _ _ _); split; congruence.
  - simpl. destruct (is_wild c) eqn:Hw.
    + destruct Hpp as [_ Hpp]. simpl in Hlen.
      destruct (Ascii.eqb_spec c "?"%char) as [-> | Hq].
      * rewrite after_run_one. apply IH; auto. lia.
      * destruct (is_wild_cases c Hw) as [-> | ->]; [now elim Hq|].
        rewrite after_run_star. apply IH; auto. lia.
    + rewrite <- (Hrec (String c pp) np nm nx Hlen Hpp Hnp).
      destruct (rec _ _ _ _); split; congruence.
Qed.

Lemma scan_spec : forall pp np,
  rec_spec rec (String.length pp) -> nonul pp -> nonul np ->
  (scan rec pp np = Matched <-> wild pp np).
Proof.
  induction pp as [|c pp IH]; intros np Hrec Hpp Hnp.
  - simpl. change (toupper zero) with zero.
    destruct (Ascii.eqb_spec zero (toupper (peek np))) as [He | He]; simpl.
    + symmetry in He. apply (proj1 (toupper_nul _)) in He.
      rewrite (peek_nul_empty np Hnp He). split; [constructor | reflexivity].
    + split; [discriminate|]. intros H. apply wild_nil_inv in H. subst np.
      now elim He.
  - simpl. destruct Hpp as [Hc Hpp]. simpl in Hrec.
    destruct (is_wild c) eqn:Hw.
    + destruct (Ascii.eqb_spec c "?"%char) as [-> | Hq].
      * rewrite <- after_run_none, after_run_one.
        apply wild_run_spec with (n := S (String.length pp)); auto.
      * destruct (is_wild_cases c Hw) as [-> | ->]; [now elim Hq|].
        rewrite <- after_run_none, after_run_star.
        apply wild_run_spec with (n := S (String.length pp)); auto.
    + destruct (Ascii.eqb_spec (toupper c) (toupper (peek np))) as [He | He];
        simpl.
      * assert (Hnul : is_nul (toupper c) = false)
          by (rewrite is_nul_toupper; now apply is_nul_false).
        rewrite Hnul.
        destruct np as [|d np]; simpl in He.
        { apply (proj1 (toupper_nul _)) in He. now elim Hc. }
        destruct Hnp as [Hd Hnp]. simpl.
        rewrite IH
          by (auto; apply rec_spec_le with (n := S (String.length pp)); auto).
        split; [intros H; now apply wild_lit|].
        intros H. apply wild_lit_inv in H as [d' [n' [[= <- <-] [_ H]]]]; auto.
      * split; [discriminate|]. intros H.
        apply wild_lit_inv in H as [d [n' [-> [Hcd _]]]]; [|assumption].
        simpl in He. now elim He.
Qed.

Lemma wild_lit_len p n : wild p n -> (lit_len p <= String.length n)%nat.
Proof.
  induction 1 as [|c d p n Hc _ _ IH| | |]; simpl; try lia.
  rewrite Hc. lia.
Qed.

Lemma scan_nc_name_left : forall pp np nc,
  scan rec pp np = Mismatched nc -> is_nul nc = false -> np <> EmptyString.
Proof.
  induction pp as [|c pp IH]; intros np nc; simpl.
  - change (toupper zero) with zero.
    destruct (Ascii.eqb zero (toupper (peek np))); simpl; [discriminate|].
    intros [= <-] Hn ->. discriminate Hn.
  - destruct (is_wild c).
    + assert (Hnc : forall nm nx, wild_run rec np pp nm nx = Mismatched nc ->
                      is_nul nc = false -> np <> EmptyString).
      { intros nm nx H Hn ->. apply wild_run_nc in H. subst nc.
        discriminate Hn. }
      destruct (Ascii.eqb c "?"); apply Hnc.
    + destruct (Ascii.eqb (toupper c) (toupper (peek np))); simpl.
      * destruct (is_nul (toupper c)); [discriminate|].
        intros H Hn ->. now apply (IH _ _ H Hn).
      * intros [= <-] Hn ->. discriminate Hn.
Qed.

Lemma scan_nc_name_short : forall pp np nc,
  nonul np ->
  scan rec pp np = Mismatched nc -> is_nul nc = true ->
  (String.length np <= lit_len pp)%nat.
Proof.
  induction pp as [|c pp IH]; intros np nc Hnp; simpl.
  - change (toupper zero) with zero.
    destruct (Ascii.eqb_spec zero (toupper (peek np))) as [He | He]; simpl;
      [discriminate|].
    intros [= <-] Hn. apply is_nul_true in Hn. now elim He.
  - destruct (is_wild c).
    + assert (Hnc : forall nm nx, wild_run rec np pp nm nx = Mismatched nc ->
                      is_nul nc = true -> (String.length np <= 0)%nat).
      { intros nm nx H Hn. apply wild_run_nc in H. subst nc.
        apply is_nul_true in Hn. now rewrite (peek_nul_empty np Hnp Hn). }
      destruct (Ascii.eqb c "?"); apply Hnc.
    + destruct (Ascii.eqb (toupper c) (toupper (peek np))); simpl.
      * destruct (is_nul (toupper c)); [discriminate|].
        destruct np as [|d np]; simpl; [lia|].
        intros H Hn. apply le_n_S. apply (IH np nc); [apply Hnp | |]; assumption.
      * intros [= <-] Hn. rewrite is_nul_toupper in Hn.
        apply is_nul_true in Hn. rewrite (peek_nul_empty np Hnp Hn).
        simpl. lia.
Qed.

Lemma retry_spec pat inf : forall nam,
  rec_spec rec (String.length pat) -> nonul pat -> nonul nam ->
  (retry rec pat inf nam = true <->
   exists k, (k <= String.length nam)%nat /\ (inf = 0 -> k = 0%nat) /\
             wild pat (drop k nam)).
Proof.
  intros nam Hrec Hpat. induction nam as [|d nam IH]; intros Hnam.
  - simpl. pose proof (scan_spec pat EmptyString Hrec Hpat Hnam) as Hs.
    destruct (scan rec pat EmptyString) as [|nc].
    + split; [|reflexivity]. intros _. exists 0%nat.
      repeat split; [lia | now apply Hs].
    + assert (Hf : (if negb (inf =? 0) && negb (is_nul nc) then false else false)
                   = false) by (destruct (_ && _); reflexivity).
      rewrite Hf. split; [discriminate|].
      intros [k [Hk [_ Hw]]]. rewrite drop_nil in Hw.
      apply Hs in Hw. discriminate Hw.
  - simpl. pose proof (scan_spec pat (String d nam) Hrec Hpat Hnam) as Hs.
    pose proof (scan_nc_name_short pat (String d nam)) as Hshort.
    destruct (scan rec pat (String d nam)) as [|nc].
    + split; [|reflexivity]. intros _. exists 0%nat.
      repeat split; [lia | now apply Hs].
    + assert (Hno : ~ wild pat (String d nam))
        by (intros Hw; apply Hs in Hw; discriminate Hw).
      destruct (Z.eqb_spec inf 0) as [-> | Hinf]; simpl.
      * split; [discriminate|]. intros [k [_ [Hk Hw]]].
        rewrite (Hk eq_refl) in Hw. now elim Hno.
      * destruct (is_nul nc) eqn:Hnc; simpl.
        -- split; [discriminate|]. intros [k [Hk [_ Hw]]].
           destruct k as [|k]; [destruct (Hno Hw)|].
           specialize (Hshort nc Hnam eq_refl Hnc).
           apply wild_lit_len in Hw. simpl in Hw, Hshort, Hk.
           rewrite drop_length in Hw. lia.
        -- destruct Hnam as [_ Hnam]. rewrite (IH Hnam). split.
           ++ intros [k [Hk [_ Hw]]]. exists (S k).
              repeat split; [simpl; lia | intros; contradiction | assumption].
           ++ intros [k [Hk [_ Hw]]]. destruct k as [|k]; [destruct (Hno Hw)|].
              exists k. repeat split; [simpl in Hk; lia | intros; contradiction
                                      | assumption].
Qed.

End Branch.

Lemma pattern_matching_spec : forall n, rec_spec pattern_matching n.
Proof.
  induction n as [|n IH]; intros pat nam skip inf Hlen Hpat Hnam; [lia|].
  rewrite pattern_matching_eq, (pre_skip_spec skip nam Hnam).
  destruct (Nat.leb_spec skip (String.length nam)) as [Hle | Hgt].
  2:{ split; [discriminate|]. intros [k [Hk _]]. lia. }
  destruct (is_nul (peek pat) && negb (inf =? 0)) eqn:Hshort.
  - split; [|reflexivity]. intros _.
    apply andb_true_iff in Hshort as [Hp Hi].
    apply is_nul_true in Hp. rewrite (peek_nul_empty pat Hpat Hp).
    exists (String.length nam). repeat split; [lia | lia | |].
    + intros ->. discriminate Hi.
    + assert (He : drop (String.length nam) nam = EmptyString).
      { pose proof (drop_length (String.length nam) nam) as Hl.
        destruct (drop _ nam); [reflexivity | simpl in Hl; lia]. }
      rewrite He. constructor.
  - rewrite retry_spec;
      [| apply rec_spec_le with (n := n); [lia | exact IH]
       | assumption | now apply nonul_drop].
    split.
    + intros [k [Hk [Hi Hw]]]. rewrite drop_length in Hk. rewrite drop_drop in Hw.
      exists (skip + k)%nat. repeat split; [lia | lia | | assumption].
      intros H. rewrite (Hi H). lia.
    + intros [k [Hk [Hi Hw]]]. exists (k - skip)%nat.
      rewrite drop_length, drop_drop.
      replace (skip + (k - skip))%nat with k by lia.
      repeat split; [lia | | assumption].
      intros H. rewrite (Hi H). lia.
Qed.

Lemma pattern_matching_wild pat nam :
  nonul pat -> nonul nam ->
  (pattern_matching pat nam 0 0 = true <-> wild pat nam).
Proof.
  intros Hp Hn. rewrite <- after_run_none.
  apply (pattern_matching_spec (S (String.length pat))); auto.
Qed.

Local Open Scope string_scope.

Lemma pattern_matching_tail nam inf :
  inf <> 0 -> pattern_matching EmptyString nam 0 inf = true.
Proof.
  intros Hinf. rewrite pattern_matching_eq. simpl.
  destruct (Z.eqb_spec inf 0) as [He | _]; [now elim Hinf | reflexivity].
Qed.

Lemma pattern_matching_star nam : pattern_matching "*" nam 0 0 = true.
Proof. destruct nam; reflexivity. Qed.

(** C4 (wildcard matching).  On C strings, [pattern_matching pat nam 0 0]
    holds exactly when the name is an instance of the pattern, where a
    literal matches one character up to case, [?] exactly one character and
    [*] any number of them; the empty pattern matches the empty name, and the
    empty pattern after a starred block matches whatever is left of the
    name.  The listed patterns and names behave as stated. *)
Theorem wildcard_matching :
  (forall pat nam, nonul pat -> nonul nam ->
     (pattern_matching pat nam 0 0 = true <-> wild pat nam)) /\
  (forall inf, pattern_matching "" "" 0 inf = true) /\
  (forall nam inf, inf <> 0 -> pattern_matching "" nam 0 inf = true) /\
  (pattern_matching "*.txt" "a.txt" 0 0 = true /\
   pattern_matching "*.txt" ".txt" 0 0 = true /\
   pattern_matching "*.txt" "a.tx" 0 0 = false) /\
  (pattern_matching "a?c" "abc" 0 0 = true /\
   pattern_matching "a?c" "ac" 0 0 = false /\
   pattern_matching "a?c" "abbc" 0 0 = false) /\
  (forall nam, pattern_matching "*" nam 0 0 = true) /\
  (pattern_matching "a*b*c" "aXbYc" 0 0 = true /\
   pattern_matching "a*b*c" "abc" 0 0 = true /\
   pattern_matching "a*b*c" "acb" 0 0 = false) /\
  (pattern_matching "A*.TxT" "abc.txt" 0 0 = true /\
   pattern_matching "a*.txt" "ABC.TXT" 0 0 = true).
Proof.
  split; [exact pattern_matching_wild|].
  split; [intros inf; rewrite pattern_matching_eq; simpl;
          destruct (inf =? 0)%Z; reflexivity|].
  split; [exact pattern_matching_tail|].
  split; [repeat split; reflexivity|].
  split; [repeat split; reflexivity|].
  split; [exact pattern_matching_star|].
  split; repeat split; reflexivity.
Qed.

(** The equivalence used at a concrete pattern and name: the run of the
    matcher yields the derivation. *)
Lemma wildcard_matching_witness :
  nonul "a*b*c" /\ nonul "aXbYc" /\ wild "a*b*c" "aXbYc".
Proof.
  assert (Hp : nonul "a*b*c") by (simpl; repeat split; discriminate).
  assert (Hn : nonul "aXbYc") by (simpl; repeat split; discriminate).
  split; [exact Hp|]. split; [exact Hn|].
  apply (proj1 (proj1 wildcard_matching "a*b*c" "aXbYc" Hp Hn))%string.
  reflexivity.
Defined.

End WildcardFacts.

(** ** FAT timestamps *)

Module TimestampFacts.
Import Timestamp.

Lemma all_from_spec P : forall n lo,
  all_from n lo P = true ->
  forall x, lo <= x < lo + Z.of_nat n -> P x = true.
Proof.
  induction n as [|n IH]; intros lo H x Hx; [lia|].
  simpl in H. apply andb_true_iff in H as [H0 H1].
  destruct (Z.eq_dec x lo) as [-> | Hne]; [assumption|].
  apply (IH (lo + 1) H1). lia.
Qed.

Lemma fat_date_fields yo mo d :
  81 <= yo <= 207 -> 0 <= mo <= 11 -> 1 <= d <= 28 ->
  let n := fat_date (mktm 0 0 0 d mo yo) in
  Z.land (Z.shiftr n 9) 127 = yo - 80 /\
  Z.land (Z.shiftr n 5) 15 = mo + 1 /\
  Z.land n 31 = d.
Proof.
  intros Hy Hm Hd.
  assert (Hall : all_from 127 81 (fun yo =>
                   all_from 12 0 (fun mo =>
                     all_from 28 1 (fun d => fields_ok yo mo d))) = true)
    by (vm_compute; reflexivity).
  pose proof (all_from_spec _ _ _ Hall yo ltac:(lia)) as H1. cbv beta in H1.
  pose proof (all_from_spec _ _ _ H1 mo ltac:(lia)) as H2. cbv beta in H2.
  pose proof (all_from_spec _ _ _ H2 d ltac:(lia)) as H3. cbv beta in H3.
  unfold fields_ok in H3. cbv zeta in *.
  apply andb_true_iff in H3 as [H3 Hc]. apply andb_true_iff in H3 as [Ha Hb].
  apply Z.eqb_eq in Ha, Hb, Hc. auto.
Qed.

Lemma days_to_month_civil yo mo :
  81 <= yo <= 207 -> 0 <= mo <= 11 ->
  days_to_month (yo + 1900) (mo + 1)
  = Some (days_from_civil (yo + 1900) (mo + 1) 1).
Proof.
  intros Hy Hm.
  assert (Hall : all_from 127 81 (fun yo =>
                   all_from 12 0 (fun mo => month_ok yo mo)) = true)
    by (vm_compute; reflexivity).
  pose proof (all_from_spec _ _ _ Hall yo ltac:(lia)) as H1. cbv beta in H1.
  pose proof (all_from_spec _ _ _ H1 mo ltac:(lia)) as H2. cbv beta in H2.
  unfold month_ok in H2.
  destruct (days_to_month (yo + 1900) (mo + 1)) as [t|]; [|discriminate].
  apply Z.eqb_eq in H2. now subst.
Qed.

Lemma days_from_civil_day y m d :
  days_from_civil y m d = days_from_civil y m 1 + (d - 1).
Proof. unfold days_from_civil. lia. Qed.

(** Every date from 1981-01-01 to 2107-12-28 with a day of at most 28
    decodes to its day number. *)
Lemma date_roundtrip yo mo d :
  81 <= yo <= 207 -> 0 <= mo <= 11 -> 1 <= d <= 28 ->
  date_days (fat_date (mktm 0 0 0 d mo yo))
  = Some (days_from_civil (yo + 1900) (mo + 1) d).
Proof.
  intros Hy Hm Hd.
  destruct (fat_date_fields yo mo d Hy Hm Hd) as (Ha & Hb & Hc).
  unfold date_days. cbv zeta. rewrite Ha, Hb, Hc.
  replace (yo - 80 + 1980) with (yo + 1900) by lia.
  rewrite days_to_month_civil by lia.
  f_equal. symmetry. apply days_from_civil_day.
Qed.

Lemma time_roundtrip h mi sec :
  0 <= h <= 23 -> 0 <= mi <= 59 -> 0 <= sec <= 59 ->
  time_secs (fat_time (mktm sec mi h 0 0 0))
  = h * 3600 + mi * 60 + 2 * (sec / 2).
Proof.
  intros Hh Hm Hs. apply Z.eqb_eq. change (time_ok h mi sec = true).
  assert (Hall : all_from 24 0 (fun h =>
                   all_from 60 0 (fun mi =>
                     all_from 60 0 (fun sec => time_ok h mi sec))) = true)
    by (vm_compute; reflexivity).
  pose proof (all_from_spec _ _ _ Hall h ltac:(lia)) as H1. cbv beta in H1.
  pose proof (all_from_spec _ _ _ H1 mi ltac:(lia)) as H2. cbv beta in H2.
  exact (all_from_spec _ _ _ H2 sec ltac:(lia)).
Qed.

Lemma timestamp_of_timedate info p modified :
  _ff_timestamp (_ff_fat_timedate info p modified) modified
  = match date_days (fat_date p) with
    | Some t => Some (t * 86400 + time_secs (fat_time p))
    | None => None
    end.
Proof. destruct modified; reflexivity. Qed.

(** From 1981 on the codec round-trips to the 2-second resolution. *)
Lemma fat_roundtrip_from_1981 info p modified :
  in_range 1981 p ->
  _ff_timestamp (_ff_fat_timedate info p modified) modified
  = Some (timegm (even_secs p)).
Proof.
  intros (Hy & Hm & Hd & Hh & Hmi & Hs).
  rewrite timestamp_of_timedate.
  destruct p as [sec mi h d mo yo]; simpl in *.
  change (fat_date (mktm sec mi h d mo yo))
    with (fat_date (mktm 0 0 0 d mo yo)).
  change (fat_time (mktm sec mi h d mo yo))
    with (fat_time (mktm sec mi h 0 0 0)).
  rewrite date_roundtrip, time_roundtrip by lia.
  f_equal. unfold timegm, even_secs; simpl. lia.
Qed.

(** A source year up to 1980 stores the zero date. *)
Lemma fat_date_sentinel p : tm_year p + 1900 <= 1980 -> fat_date p = 0.
Proof.
  intros H. unfold fat_date.
  destruct (Z.ltb_spec 80 (tm_year p)); [lia | reflexivity].
Qed.

(** C3 (timestamp round trip), at 1980-06-15 12:30:10.  The guard
    [tm_year > 80] leaves the date field at zero for the whole of 1980, and
    the decoder reads the zero field as the day before 1980-01-01: the pair
    comes back as 1979-12-31 12:30:10 instead of the date that went in.
    Years before 1980 store the zero date as claimed, and from 1981 to 2107
    the round trip holds ([fat_roundtrip_from_1981]). *)
Theorem fat_roundtrip_1980 :
  let p := mktm 10 30 12 15 5 80 in
  in_range 1980 p /\
  fdate (_ff_fat_timedate blank p true) = 0 /\
  _ff_timestamp (_ff_fat_timedate blank p true) true
  = Some (timegm (mktm 10 30 12 31 11 79)) /\
  _ff_timestamp (_ff_fat_timedate blank p true) true
  <> Some (timegm (even_secs p)).
Proof.
  cbv zeta. split; [unfold in_range; simpl; lia|].
  split; [reflexivity|]. split; [reflexivity|].
  vm_compute. discriminate.
Qed.

End TimestampFacts.

(** ** Drive resolution *)

Module ResolveFacts.
Import Vfs.

Lemma find_entry_from_found name force : forall l i j e,
  nth_error l j = Some e ->
  strncasecmp name (drive e) (Z.to_nat (namelen e)) = 0 ->
  (force = true \/ index e = i + Z.of_nat j + 1) ->
  (forall k e', (k < j)%nat -> nth_error l k = Some e' ->
     ~ (strncasecmp name (drive e') (Z.to_nat (namelen e')) = 0 /\
        (force = true \/ index e' = i + Z.of_nat k + 1))) ->
  find_entry_from i l name force = i + Z.of_nat j.
Proof.
  induction l as [|e0 l IH]; intros i j e Hn Hc Hm Hfirst.
  - destruct j; discriminate Hn.
  - destruct j as [|j]; simpl in Hn |- *.
    + injection Hn as ->. rewrite Hc, Z.eqb_refl. simpl.
      assert (Hacc : force || (index e =? i + 1) = true).
      { destruct Hm as [-> | Hm]; [reflexivity|].
        apply orb_true_iff. right. apply Z.eqb_eq. lia. }
      rewrite Hacc. lia.
    + assert (Hrej : (strncasecmp name (drive e0) (Z.to_nat (namelen e0)) =? 0)
                     && (force || (index e0 =? i + 1)) = false).
      { apply not_true_is_false. intros Ht.
        apply andb_true_iff in Ht as [Ha Hb]. apply Z.eqb_eq in Ha.
        apply (Hfirst 0%nat e0); [lia | reflexivity |]. split; [assumption|].
        apply orb_true_iff in Hb as [Hb | Hb]; [now left | right].
        apply Z.eqb_eq in Hb. lia. }
      rewrite Hrej.
      rewrite (IH (i + 1) j e Hn Hc); [lia | |].
      * destruct Hm as [Hm | Hm]; [now left | right; lia].
      * intros k e' Hk Hn' [Ha Hb]. apply (Hfirst (S k) e'); [lia | exact Hn' |].
        split; [assumption|]. destruct Hb as [Hb | Hb]; [now left | right; lia].
Qed.

Lemma find_entry_from_none name force : forall l i,
  (forall k e', nth_error l k = Some e' ->
     ~ (strncasecmp name (drive e') (Z.to_nat (namelen e')) = 0 /\
        (force = true \/ index e' = i + Z.of_nat k + 1))) ->
  find_entry_from i l name force =
  if (i + Z.of_nat (List.length l) =? 1)
     && (match strchr name ":"%char with None => true | _ => false end)
  then 0 else - ENOENT.
Proof.
  induction l as [|e0 l IH]; intros i Hnone; simpl.
  - now rewrite Z.add_0_r.
  - assert (Hrej : (strncasecmp name (drive e0) (Z.to_nat (namelen e0)) =? 0)
                     && (force || (index e0 =? i + 1)) = false).
    { apply not_true_is_false. intros Ht.
      apply andb_true_iff in Ht as [Ha Hb]. apply Z.eqb_eq in Ha.
      apply (Hnone 0%nat e0); [reflexivity|]. split; [assumption|].
      apply orb_true_iff in Hb as [Hb | Hb]; [now left | right].
      apply Z.eqb_eq in Hb. lia. }
    rewrite Hrej, IH.
    + replace (i + 1 + Z.of_nat (List.length l))
        with (i + Z.of_nat (S (List.length l))) by lia. reflexivity.
    + intros k e' Hn' [Ha Hb]. apply (Hnone (S k) e'); [exact Hn'|].
      split; [assumption|]. destruct Hb as [Hb | Hb]; [now left | right; lia].
Qed.

Lemma claimed_first tbl name force i :
  claims tbl name force i ->
  (forall j, (j < i)%nat -> ~ claims tbl name force j) ->
  _vfs_find_entry tbl (Some name) force = Z.of_nat i.
Proof.
  intros (e & Hn & Hc & Hm) Hfirst. simpl.
  rewrite (find_entry_from_found name force tbl 0 i e Hn Hc);
    [lia | destruct Hm as [Hm | Hm]; [now left | right; lia] |].
  intros k e' Hk Hn' [Ha Hb]. apply (Hfirst k Hk). exists e'.
  repeat split; [assumption | assumption |].
  destruct Hb as [Hb | Hb]; [now left | right; lia].
Qed.

Lemma unclaimed tbl name force :
  (forall j, ~ claims tbl name force j) ->
  _vfs_find_entry tbl (Some name) force =
  if (Z.of_nat (List.length tbl) =? 1)
     && (match strchr name ":"%char with None => true | _ => false end)
  then 0 else - ENOENT.
Proof.
  intros Hnone. simpl. rewrite find_entry_from_none; [reflexivity|].
  intros k e' Hn' [Ha Hb]. apply (Hnone k). exists e'.
  repeat split; [assumption | assumption |].
  destruct Hb as [Hb | Hb]; [now left | right; lia].
Qed.

#[local] Arguments Ascii.eqb : simpl never.
#[local] Arguments tolower : simpl never.
#[local] Arguments is_nul : simpl never.

Lemma is_nul_tolower c : is_nul (tolower c) = is_nul c.
Proof. destruct c as [[] [] [] [] [] [] [] []]; reflexivity. Qed.

Lemma nat_of_ascii_diff c1 c2 :
  c1 <> c2 -> Z.of_nat (nat_of_ascii c1) - Z.of_nat (nat_of_ascii c2) <> 0.
Proof.
  intros Hne Hz. apply Hne.
  rewrite <- (ascii_nat_embedding c1), <- (ascii_nat_embedding c2).
  f_equal. lia.
Qed.

Lemma strncasecmp_prefix : forall d name,
  nonul d ->
  (strncasecmp name d (strlen d) = 0 <->
   lower (take (strlen d) name) = lower d).
Proof.
  induction d as [|c r IH]; intros name Hd.
  - simpl. destruct name; simpl; split; reflexivity.
  - destruct Hd as [Hc Hr].
    assert (Hcn : is_nul c = false) by (apply Ascii.eqb_neq; exact Hc).
    simpl strlen. rewrite Hcn. simpl strncasecmp. simpl peek.
    destruct (Ascii.eqb_spec (tolower (peek name)) (tolower c)) as [He | Hne];
      simpl negb; cbv iota.
    + assert (Hn1 : is_nul (tolower (peek name)) = false)
        by (rewrite He, is_nul_tolower; exact Hcn).
      rewrite Hn1. rewrite is_nul_tolower in Hn1.
      destruct name as [|a n']; [discriminate Hn1|]. simpl in Hn1, He |- *.
      rewrite Hn1. simpl. rewrite He. rewrite (IH n' Hr).
      split; [intros ->; reflexivity | intros [= ->]; reflexivity].
    + split.
      * intros Hz. now apply nat_of_ascii_diff in Hne.
      * intros Hl. exfalso. apply Hne.
        destruct name as [|a n']; [discriminate Hl|]. simpl in Hl |- *.
        destruct (is_nul a); [discriminate Hl|]. simpl in Hl. now injection Hl.
Qed.

Local Open Scope string_scope.

Lemma registered_inv prefix e :
  registered prefix e ->
  e = mkFileSystem prefix (fs e) (eventcb e) (type e) (index e)
        (Z.of_nat (strlen prefix)).
Proof. destruct e; simpl. intros [H1 H2]; simpl in *. now subst. Qed.

Lemma resolve_A_of_AB a b force :
  registered "A:" a -> registered "B:" b ->
  (force = true \/ index a = 1) ->
  _vfs_find_entry [a; b] (Some "A:/x") force = 0 /\
  _vfs_find_entry [a; b] (Some "a:/x") force = 0.
Proof.
  intros Ha Hb Hm. rewrite (registered_inv _ _ Ha).
  unfold _vfs_find_entry, find_entry_from. simpl drive. simpl namelen. simpl index.
  change (strncasecmp "A:/x" "A:" (Z.to_nat (Z.of_nat (strlen "A:")))) with 0%Z.
  change (strncasecmp "a:/x" "A:" (Z.to_nat (Z.of_nat (strlen "A:")))) with 0%Z.
  simpl.
  destruct Hm as [-> | ->]; [split; reflexivity|].
  rewrite orb_true_r. split; reflexivity.
Qed.

Lemma resolve_A_unmounted a b :
  registered "A:" a -> registered "B:" b -> index a <> 1%Z ->
  _vfs_find_entry [a; b] (Some "A:/x") false = (- ENOENT)%Z.
Proof.
  intros Ha Hb Hm. rewrite (registered_inv _ _ Ha), (registered_inv _ _ Hb).
  unfold _vfs_find_entry, find_entry_from. simpl drive. simpl namelen. simpl index.
  change (strncasecmp "A:/x" "A:" (Z.to_nat (Z.of_nat (strlen "A:")))) with 0%Z.
  change (strncasecmp "A:/x" "B:" (Z.to_nat (Z.of_nat (strlen "B:")))) with (-1)%Z.
  simpl. destruct (Z.eqb_spec (index a) 1); [contradiction | reflexivity].
Qed.

Lemma resolve_C_of_AB a b force :
  registered "A:" a -> registered "B:" b ->
  _vfs_find_entry [a; b] (Some "C:/x") force = (- ENOENT)%Z.
Proof.
  intros Ha Hb. rewrite (registered_inv _ _ Ha), (registered_inv _ _ Hb).
  reflexivity.
Qed.

Lemma resolve_bare_of_A a force :
  registered "A:" a -> _vfs_find_entry [a] (Some "/x") force = 0%Z.
Proof. intros Ha. rewrite (registered_inv _ _ Ha). reflexivity. Qed.

(** C1 (drive resolution).  A null name is Not-Found.  Otherwise the first
    entry of the table whose prefix compares equal over its cached length
    (which, at the length of the prefix, is equality of the name's first
    characters with the prefix up to case) and which is mounted, or any such
    entry when the lookup is forced, is the result; when no entry claims the
    name, the name resolves to entry 0 if the table has exactly one entry and
    the name has no colon, and is Not-Found otherwise.  With "A:" and "B:"
    registered, "A:/x" resolves to 0 (forced or mounted) and "C:/x" is
    Not-Found; with "A:" alone, "/x" resolves to 0. *)
Theorem find_entry_resolution :
  (forall tbl force, _vfs_find_entry tbl None force = - ENOENT)%Z /\
  (forall d name, nonul d ->
     (strncasecmp name d (strlen d) = 0%Z <->
      lower (take (strlen d) name) = lower d)) /\
  (forall tbl name force i,
     claims tbl name force i ->
     (forall j, (j < i)%nat -> ~ claims tbl name force j) ->
     _vfs_find_entry tbl (Some name) force = Z.of_nat i) /\
  (forall tbl name force,
     (forall j, ~ claims tbl name force j) ->
     List.length tbl = 1%nat -> strchr name ":"%char = None ->
     _vfs_find_entry tbl (Some name) force = 0%Z) /\
  (forall tbl name force,
     (forall j, ~ claims tbl name force j) ->
     List.length tbl <> 1%nat \/ strchr name ":"%char <> None ->
     _vfs_find_entry tbl (Some name) force = (- ENOENT)%Z) /\
  (forall a b force,
     registered "A:" a -> registered "B:" b ->
     (force = true \/ index a = 1%Z) ->
     _vfs_find_entry [a; b] (Some "A:/x") force = 0%Z /\
     _vfs_find_entry [a; b] (Some "a:/x") force = 0%Z) /\
  (forall a b,
     registered "A:" a -> registered "B:" b -> index a <> 1%Z ->
     _vfs_find_entry [a; b] (Some "A:/x") false = (- ENOENT)%Z) /\
  (forall a b force,
     registered "A:" a -> registered "B:" b ->
     _vfs_find_entry [a; b] (Some "C:/x") force = (- ENOENT)%Z) /\
  (forall a force,
     registered "A:" a -> _vfs_find_entry [a] (Some "/x") force = 0%Z).
Proof.
  split; [reflexivity|].
  split; [exact strncasecmp_prefix|].
  split; [exact claimed_first|].
  split.
  { intros tbl name force Hnone Hlen Hcolon.
    rewrite (unclaimed tbl name force Hnone), Hlen, Hcolon. reflexivity. }
  split.
  { intros tbl name force Hnone Hor.
    rewrite (unclaimed tbl name force Hnone).
    destruct Hor as [Hlen | Hcolon].
    - destruct (Z.eqb_spec (Z.of_nat (List.length tbl)) 1) as [He | _];
        [elim Hlen; lia | reflexivity].
    - destruct (strchr name ":"%char); [|now elim Hcolon].
      now rewrite andb_false_r. }
  split; [exact resolve_A_of_AB|].
  split; [exact resolve_A_unmounted|].
  split; [exact resolve_C_of_AB | exact resolve_bare_of_A].
Qed.

(** The table of the example, "A:" mounted at position 0 and "B:" not
    mounted, resolved without force. *)
Lemma find_entry_resolution_witness :
  let a := mkFileSystem "A:" PtrStatic true FS_FATFS 1 2 in
  let b := mkFileSystem "B:" PtrNull true FS_LITTLEFS 0 2 in
  registered "A:" a /\ registered "B:" b /\
  _vfs_find_entry [a; b] (Some "A:/x") false = 0%Z.
Proof.
  intros a b.
  assert (Ha : registered "A:" a) by (split; reflexivity).
  assert (Hb : registered "B:" b) by (split; reflexivity).
  split; [exact Ha|]. split; [exact Hb|].
  destruct find_entry_resolution as (_ & _ & _ & _ & _ & Hex & _).
  exact (proj1 (Hex a b false Ha Hb (or_intror eq_refl))).
Defined.

End ResolveFacts.

(** ** The wrapper *)

Module VfsFacts.
Import Vfs.

(** Case analysis on the next test of the run in hypothesis [H]. *)
Ltac branch H :=
  match type of H with
  | context [match ?x with _ => _ end] =>
      match x with
      | context [match _ with _ => _ end] => fail 1
      | _ => destruct x eqn:?
      end
  end.

Ltac run H :=
  repeat (first [ discriminate H | progress cbn beta iota in H | branch H ]).

(** *** Null paths *)

Section NullPath.

Context {hdr : Headers} {cfg : Config} {bkd : Backend}.

Lemma null_file_open file flags w :
  vfs_file_open file None flags w = Ok (- ENOENT, file) w.
Proof. destruct w; reflexivity. Qed.

Lemma null_stat w : vfs_stat None w = Ok (- ENOENT, zero_info) w.
Proof. destruct w; reflexivity. Qed.

Lemma null_mkdir w : vfs_mkdir None w = Ok (- ENOENT) w.
Proof. destruct w; reflexivity. Qed.

Lemma null_remove w : vfs_remove None w = Ok (- ENOENT) w.
Proof. destruct w; reflexivity. Qed.

Lemma null_rename newpath w : vfs_rename None newpath w = Ok (- ENOENT) w.
Proof. destruct w; reflexivity. Qed.

Lemma null_getlabel label w :
  vfs_getlabel None label w = Ok (- ENOENT, label) w.
Proof. destruct w; reflexivity. Qed.

Lemma null_setlabel w : vfs_setlabel None w = Ok (- ENOENT) w.
Proof. destruct w; reflexivity. Qed.

Lemma null_fs_size w : vfs_fs_size None w = Ok (- ENOENT) w.
Proof. destruct w; reflexivity. Qed.

Lemma null_fs_free w : vfs_fs_free None w = Ok (- ENOENT) w.
Proof. destruct w; reflexivity. Qed.

Lemma null_mount mount w : vfs_mount None mount w = Ok (- ENOENT) w.
Proof. destruct w; reflexivity. Qed.

Lemma null_format w : vfs_format None w = Ok (- ENOENT) w.
Proof. destruct w; reflexivity. Qed.

Lemma null_touch info w : vfs_touch None info w = Ok (-1) w.
Proof. destruct w; reflexivity. Qed.

Lemma null_dir_open dir w :
  vfs_dir_open dir None w
  = Ok (0, mkVfsDir RefRoot (dp dir) 0 EmptyString 0 None) w.
Proof. destruct w; reflexivity. Qed.

Lemma unresolved_dir_open dir path w :
  _vfs_find_entry (vFileSystem w) (Some path) false < 0 ->
  (strcspn path mount_marks <= 1)%nat ->
  vfs_dir_open dir (Some path) w
  = Ok (0, mkVfsDir RefRoot (dp dir) 0 EmptyString 0 None) w.
Proof.
  intros Hneg Hm. destruct w as [tbl b l]. cbn [vFileSystem] in Hneg.
  unfold vfs_dir_open, bind, get_table. cbn [vFileSystem].
  destruct (Z.leb_spec 0 (_vfs_find_entry tbl (Some path) false)); [lia|].
  destruct (Nat.leb_spec (strcspn path mount_marks) 1); [reflexivity | lia].
Qed.

Lemma unresolved_dir_open_far dir path w :
  _vfs_find_entry (vFileSystem w) (Some path) false < 0 ->
  (1 < strcspn path mount_marks)%nat ->
  vfs_dir_open dir (Some path) w = Ok (- ENOENT, zero_dir dir) w.
Proof.
  intros Hneg Hm. destruct w as [tbl b l]. cbn [vFileSystem] in Hneg.
  unfold vfs_dir_open, bind, get_table. cbn [vFileSystem].
  destruct (Z.leb_spec 0 (_vfs_find_entry tbl (Some path) false)); [lia|].
  destruct (Nat.leb_spec (strcspn path mount_marks) 1); [lia | reflexivity].
Qed.

(** A path that the resolver finds a drive for is opened on that drive. *)
Lemma resolved_dir_open dir path w r dir' w' :
  0 <= _vfs_find_entry (vFileSystem w) (Some path) false ->
  vfs_dir_open dir (Some path) w = Ok (r, dir') w' ->
  dir_filesys dir'
  = RefEntry (Z.to_nat (_vfs_find_entry (vFileSystem w) (Some path) false)).
Proof.
  intros Hres Hrun. apply Z.leb_le in Hres.
  unfold vfs_dir_open, bind, get_table, deref, deref_str, defined, call, ret,
    undefined in Hrun.
  cbn [vFileSystem bk calls] in Hrun. rewrite Hres in Hrun.
  run Hrun. all: injection Hrun as <- <- <-; reflexivity.
Qed.

(** The only drive of a table is the drive of every name without a colon. *)
Lemma sole_drive_resolves e path force :
  strchr path ":"%char = None -> _vfs_find_entry [e] (Some path) force = 0.
Proof.
  intros Hno. unfold _vfs_find_entry. cbn [find_entry_from].
  destruct (_ && _); [reflexivity|].
  rewrite Hno. reflexivity.
Qed.

(** C10 (null paths), as amended.  With a null path every operation that
    goes through the resolver returns at the resolver's guard, in the world
    it was called in: no library was called and the drive table is as it
    was.  The value returned is Not-Found, except that [vfs_touch] returns
    -1.  [vfs_dir_open] makes a handle on the root listing of a null path.
    Of a string it makes one only when the resolver does not find it a
    drive, and then when its first character is followed by a blank, a
    [\x1] or the end of the string, the result being Not-Found otherwise; a
    string the resolver finds a drive for is opened on that drive and never
    as the root listing; and in a table of one drive the resolver finds
    that drive for every string without a colon, the empty one included. *)
Theorem null_path_behaviour (w : World) (file : VfsFile_t) (flags : Z)
  (newpath : option string) (label : string) (mount : bool)
  (info : VfsInfo_t) (dir : VfsDir_t) :
  - ENOENT < 0 /\
  vfs_file_open file None flags w = Ok (- ENOENT, file) w /\
  vfs_stat None w = Ok (- ENOENT, zero_info) w /\
  vfs_mkdir None w = Ok (- ENOENT) w /\
  vfs_remove None w = Ok (- ENOENT) w /\
  vfs_rename None newpath w = Ok (- ENOENT) w /\
  vfs_getlabel None label w = Ok (- ENOENT, label) w /\
  vfs_setlabel None w = Ok (- ENOENT) w /\
  vfs_fs_size None w = Ok (- ENOENT) w /\
  vfs_fs_free None w = Ok (- ENOENT) w /\
  vfs_mount None mount w = Ok (- ENOENT) w /\
  vfs_format None w = Ok (- ENOENT) w /\
  vfs_touch None info w = Ok (-1) w /\
  vfs_dir_open dir None w
  = Ok (0, mkVfsDir RefRoot (dp dir) 0 EmptyString 0 None) w /\
  (forall path,
     _vfs_find_entry (vFileSystem w) (Some path) false < 0 ->
     ((strcspn path mount_marks <= 1)%nat ->
      vfs_dir_open dir (Some path) w
      = Ok (0, mkVfsDir RefRoot (dp dir) 0 EmptyString 0 None) w) /\
     ((1 < strcspn path mount_marks)%nat ->
      vfs_dir_open dir (Some path) w = Ok (- ENOENT, zero_dir dir) w)) /\
  (forall path r dir' w',
     0 <= _vfs_find_entry (vFileSystem w) (Some path) false ->
     vfs_dir_open dir (Some path) w = Ok (r, dir') w' ->
     dir_filesys dir'
     = RefEntry (Z.to_nat (_vfs_find_entry (vFileSystem w) (Some path) false))
     /\ dir_filesys dir' <> RefRoot) /\
  (forall e path,
     vFileSystem w = [e] -> strchr path ":"%char = None ->
     _vfs_find_entry (vFileSystem w) (Some path) false = 0).
Proof.
  split; [reflexivity|].
  split; [apply null_file_open|]. split; [apply null_stat|].
  split; [apply null_mkdir|]. split; [apply null_remove|].
  split; [apply null_rename|]. split; [apply null_getlabel|].
  split; [apply null_setlabel|]. split; [apply null_fs_size|].
  split; [apply null_fs_free|]. split; [apply null_mount|].
  split; [apply null_format|]. split; [apply null_touch|].
  split; [apply null_dir_open|].
  split; [|split].
  - intros path Hneg. split; intros Hm.
    + now apply unresolved_dir_open.
    + now apply unresolved_dir_open_far.
  - intros path r dir' w' Hres Hrun.
    rewrite (resolved_dir_open _ _ _ _ _ _ Hres Hrun).
    split; [reflexivity | discriminate].
  - intros e path -> Hno. now apply sole_drive_resolves.
Qed.

End NullPath.

(** *** File handles *)

Section Handles.

Context {hdr : Headers} {cfg : Config} {bkd : Backend}.

Lemma file_close_detaches file w r file' w' :
  vfs_file_close file w = Ok (r, file') w' -> filesys file' = RefNull.
Proof.
  unfold vfs_file_close, bind, call, ret, deref. intros Hrun.
  run Hrun; injection Hrun as <- <- <-; reflexivity.
Qed.

(** Where [vfs_file_open] returns from, when it returns an error: before an
    entry was found, at the test for a bare mount point, or at its end. *)
Lemma file_open_failure file path flags w r file' w' :
  vfs_file_open file path flags w = Ok (r, file') w' -> r < 0 ->
  (_vfs_find_entry (vFileSystem w) path false < 0 /\ file' = file /\ w' = w)
  \/ (r = - EBADF /\ w' = w /\
      file' = set_filesys file
                (RefEntry (Z.to_nat (_vfs_find_entry (vFileSystem w) path false))))
  \/ filesys file' = RefNull.
Proof.
  intros Hrun Hneg. unfold vfs_file_open, bind, get_table in Hrun.
  destruct (Z.ltb_spec (_vfs_find_entry (vFileSystem w) path false) 0)
    as [Hlt | Hge].
  { left. injection Hrun as <- <- <-. auto. }
  right. unfold deref, deref_str, defined, call, ret, when, undefined, bind in Hrun.
  cbn [filesys set_filesys] in Hrun.
  destruct (nth_error _ _) as [e|]; [|discriminate Hrun].
  destruct path as [path|]; [|discriminate Hrun].
  run Hrun; injection Hrun as <- <- <-.
  all: first
    [ right; reflexivity
    | left; split; [reflexivity | split; reflexivity]
    | exfalso; match goal with
      | Hx : (_ <? 0) = false |- _ => apply Z.ltb_ge in Hx; lia
      end
    | exfalso; match goal with
      | Hx : (- ENOENT <? 0) = false |- _ => discriminate Hx
      end ].
Qed.

(** C6 (handle detachment), on the bare mount point of a mounted FatFs
    drive.  The rejection returns in front of the statement that clears the
    reference on failure: the call comes back with Bad-Handle and with the
    handle attached to the entry.  On the failures that reach the end of
    [vfs_file_open] the reference is cleared ([file_open_failure]), and
    [vfs_file_close] clears it always ([file_close_detaches]). *)
Theorem file_open_root_keeps_reference (b : BState) (l : list Logged)
  (file : VfsFile_t) (flags : Z) :
  let a := mkFileSystem "A:" PtrStatic true FS_FATFS 1 2 in
  let w := mkWorld [a] b l in
  vfs_file_open file (Some "A:"%string) flags w
  = Ok (- EBADF, set_filesys file (RefEntry 0)) w /\
  filesys (set_filesys file (RefEntry 0)) <> RefNull.
Proof. split; [reflexivity | discriminate]. Qed.

Lemma seek_invalid_whence file offset whence w e :
  deref (filesys file) w = Ok e w ->
  fs_kind e = FS_FATFS \/ fs_kind e = FS_JESFS ->
  ~ valid_whence whence ->
  vfs_file_seek file offset whence w = Ok (u32 (- EINVAL), file) w.
Proof.
  intros He Hk Hw. unfold vfs_file_seek, bind. rewrite He.
  assert (Hs : (whence =? SEEK_SET) = false)
    by (apply Z.eqb_neq; intros ->; apply Hw; left; reflexivity).
  assert (Hc : (whence =? SEEK_CUR) = false)
    by (apply Z.eqb_neq; intros ->; apply Hw; right; left; reflexivity).
  assert (Hn : (whence =? SEEK_END) = false)
    by (apply Z.eqb_neq; intros ->; apply Hw; right; right; reflexivity).
  destruct Hk as [Hk | Hk]; rewrite Hk; cbn; rewrite Hs, Hc, Hn; reflexivity.
Qed.

Lemma seek_fatfs file offset whence w e r file' w' :
  deref (filesys file) w = Ok e w ->
  fs_kind e = FS_FATFS -> valid_whence whence ->
  vfs_file_seek file offset whence w = Ok (r, file') w' ->
  file' = file /\
  exists start b,
    (whence = SEEK_SET -> start = 0 /\ b = bk w) /\
    (whence = SEEK_CUR -> respond Z (bk w) (f_tell (fp file)) = (start, b)) /\
    seek_checked b (fp file) (u32 (start + offset)) r.
Proof.
  intros He Hk Hw Hrun. unfold vfs_file_seek, bind in Hrun.
  rewrite He, Hk in Hrun. cbn [Z.eqb FS_FATFS Pos.eqb] in Hrun.
  unfold call, ret, bind in Hrun.
  destruct Hw as [-> | [-> | ->]]; cbn in Hrun.
  - destruct (respond Z (bk w) (f_lseek (fp file) (u32 offset)))
      as [res b1] eqn:Hseek.
    destruct (Z.eqb_spec (_ff_errno res) 0) as [Hz | Hnz];
      cbn in Hrun.
    + destruct (respond Z b1 (f_tell (fp file))) as [pos b2] eqn:Htell.
      injection Hrun as <- <- <-. split; [reflexivity|].
      exists 0, (bk w). split; [auto|]. split; [discriminate|].
      exists res, b1. split; [exact Hseek|]. split; [contradiction|].
      intros _. exists pos, b2. split; [exact Htell|].
      rewrite Hz. destruct (Z.eqb_spec pos (u32 offset)); cbn;
        split; intros; congruence.
    + injection Hrun as <- <- <-. split; [reflexivity|].
      exists 0, (bk w). split; [auto|]. split; [discriminate|].
      exists res, b1. split; [exact Hseek|]. split; [reflexivity | contradiction].
  - destruct (respond Z (bk w) (f_tell (fp file))) as [start b0] eqn:Hstart.
    cbn in Hrun.
    destruct (respond Z b0 (f_lseek (fp file) (u32 (start + offset))))
      as [res b1] eqn:Hseek.
    destruct (Z.eqb_spec (_ff_errno res) 0) as [Hz | Hnz];
      cbn in Hrun.
    + destruct (respond Z b1 (f_tell (fp file))) as [pos b2] eqn:Htell.
      injection Hrun as <- <- <-. split; [reflexivity|].
      exists start, b0. split; [discriminate|]. split; [auto|].
      exists res, b1. split; [exact Hseek|]. split; [contradiction|].
      intros _. exists pos, b2. split; [exact Htell|].
      rewrite Hz. destruct (Z.eqb_spec pos (u32 (start + offset))); cbn;
        split; intros; congruence.
    + injection Hrun as <- <- <-. split; [reflexivity|].
      exists start, b0. split; [discriminate|]. split; [auto|].
      exists res, b1. split; [exact Hseek|]. split; [reflexivity | contradiction].
  - destruct (respond Z (bk w) (f_size (fp file))) as [sz b0] eqn:Hsize.
    cbn in Hrun.
    destruct (respond Z b0 (f_lseek (fp file) (u32 (u32 (sz + 1) + offset))))
      as [res b1] eqn:Hseek.
    destruct (Z.eqb_spec (_ff_errno res) 0) as [Hz | Hnz];
      cbn in Hrun.
    + destruct (respond Z b1 (f_tell (fp file))) as [pos b2] eqn:Htell.
      injection Hrun as <- <- <-. split; [reflexivity|].
      exists (u32 (sz + 1)), b0. split; [discriminate|]. split; [discriminate|].
      exists res, b1. split; [exact Hseek|]. split; [contradiction|].
      intros _. exists pos, b2. split; [exact Htell|].
      rewrite Hz. destruct (Z.eqb_spec pos (u32 (u32 (sz + 1) + offset))); cbn;
        split; intros; congruence.
    + injection Hrun as <- <- <-. split; [reflexivity|].
      exists (u32 (sz + 1)), b0. split; [discriminate|]. split; [discriminate|].
      exists res, b1. split; [exact Hseek|]. split; [reflexivity | contradiction].
Qed.

Lemma seek_littlefs file offset whence w e :
  deref (filesys file) w = Ok e w ->
  fs_kind e = FS_LITTLEFS ->
  vfs_file_seek file offset whence w =
  let c := lfs_file_seek (ref_index (filesys file)) (fp file) (s32 offset)
             whence in
  let '(r, b) := respond Z (bk w) c in
  Ok (u32 r, file) (mkWorld (vFileSystem w) b (calls w ++ [logged c r])).
Proof.
  intros He Hk. unfold vfs_file_seek, bind. rewrite He, Hk.
  cbn [Z.eqb FS_LITTLEFS FS_FATFS Pos.eqb]. unfold call, ret, bind. cbn zeta.
  destruct (respond Z (bk w) _) as [r b]. reflexivity.
Qed.

Lemma seek_jesfs file offset whence w e :
  deref (filesys file) w = Ok e w ->
  fs_kind e = FS_JESFS -> valid_whence whence ->
  exists start,
    (whence = SEEK_SET -> start = 0) /\
    (whence = SEEK_CUR -> start = file_pos (jes file)) /\
    vfs_file_seek file offset whence w =
    Ok (0, set_jes file (set_file_pos (jes file) (u32 (start + offset)))) w.
Proof.
  intros He Hk Hw. unfold vfs_file_seek, bind. rewrite He, Hk.
  cbn [Z.eqb FS_JESFS FS_LITTLEFS FS_FATFS Pos.eqb].
  destruct Hw as [-> | [-> | ->]]; cbn.
  - exists 0. split; [reflexivity|]. split; [discriminate | reflexivity].
  - exists (file_pos (jes file)).
    split; [discriminate|]. split; reflexivity.
  - exists (u32 (file_len (jes file) + 1)).
    split; [discriminate|]. split; [discriminate | reflexivity].
Qed.

Lemma seek_returns file offset whence w e :
  deref (filesys file) w = Ok e w ->
  exists r file' w', vfs_file_seek file offset whence w = Ok (r, file') w'.
Proof.
  intros He. unfold vfs_file_seek, bind, call, ret. rewrite He.
  repeat match goal with
         | |- context [match ?x with _ => _ end] =>
             match x with
             | context [match _ with _ => _ end] => fail 1
             | _ => destruct x
             end
         end; cbn; eauto.
Qed.

(** C7 (seek), as amended.  A handle whose entry can be read returns from
    [vfs_file_seek].  On FatFs and JesFs a [whence] other than SET, CUR and
    END yields Invalid-Argument and nothing else happens.  On FatFs the
    target is the offset for SET and the position [f_tell] gives plus the
    offset for CUR; [f_lseek] is called on the target, its error is the
    result, and when it reports none the position is read again: equal to
    the target gives 0, different gives No-Space.  On LittleFS the offset and
    [whence] are handed to [lfs_file_seek] and its answer is the result, with
    no check of the position.  On JesFs the position is set to the target
    (the offset for SET, the position plus the offset for CUR) and the
    result is 0. *)
Theorem file_seek_semantics (file : VfsFile_t) (offset whence : Z)
  (w : World) (e : FileSystem_t) :
  deref (filesys file) w = Ok e w ->
  (exists r file' w', vfs_file_seek file offset whence w = Ok (r, file') w') /\
  (fs_kind e = FS_FATFS \/ fs_kind e = FS_JESFS ->
   ~ valid_whence whence ->
   vfs_file_seek file offset whence w = Ok (u32 (- EINVAL), file) w) /\
  (fs_kind e = FS_FATFS -> valid_whence whence ->
   forall r file' w',
     vfs_file_seek file offset whence w = Ok (r, file') w' ->
     file' = file /\
     exists start b,
       (whence = SEEK_SET -> start = 0 /\ b = bk w) /\
       (whence = SEEK_CUR ->
        respond Z (bk w) (f_tell (fp file)) = (start, b)) /\
       seek_checked b (fp file) (u32 (start + offset)) r) /\
  (fs_kind e = FS_LITTLEFS ->
   vfs_file_seek file offset whence w =
   let c := lfs_file_seek (ref_index (filesys file)) (fp file) (s32 offset)
              whence in
   let '(r, b) := respond Z (bk w) c in
   Ok (u32 r, file) (mkWorld (vFileSystem w) b (calls w ++ [logged c r]))) /\
  (fs_kind e = FS_JESFS -> valid_whence whence ->
   exists start,
     (whence = SEEK_SET -> start = 0) /\
     (whence = SEEK_CUR -> start = file_pos (jes file)) /\
     vfs_file_seek file offset whence w =
     Ok (0, set_jes file (set_file_pos (jes file) (u32 (start + offset)))) w).
Proof.
  intros He.
  split; [now apply seek_returns with (e := e)|].
  split; [now apply seek_invalid_whence|].
  split; [intros Hk Hw r file' w'; now apply seek_fatfs with (e := e)|].
  split; [now apply seek_littlefs with (e := e)|].
  now apply seek_jesfs.
Qed.

End Handles.

(** *** Runs on the simulated backend *)

(** ** Mounting and its events *)

Lemma events_app l1 l2 : events (l1 ++ l2) = events l1 ++ events l2.
Proof.
  induction l1 as [|x l1 IH]; simpl; [reflexivity|].
  destruct (event_of x); simpl; now rewrite IH.
Qed.

Lemma nth_error_update_nth {A} (f : A -> A) : forall l k,
  nth_error (update_nth k f l) k = option_map f (nth_error l k).
Proof.
  induction l as [|x l IH]; intros [|k]; simpl; auto.
Qed.

Lemma update_nth_twice {A} (f g : A -> A) : forall l k,
  update_nth k f (update_nth k g l) = update_nth k (fun x => f (g x)) l.
Proof.
  induction l as [|x l IH]; intros [|k]; simpl; auto. now rewrite IH.
Qed.

Lemma s8_small x : 0 <= x < 128 -> s8 x = x.
Proof.
  intros Hx. unfold s8, u8. rewrite Z.mod_small by lia.
  destruct (Z.ltb_spec x (2 ^ 7)); lia.
Qed.

(** A case analysis on the test of a conditional, through its negation and
    its short-circuit operators; an entry read back from an updated table is
    left to rewriting. *)
Ltac case_on x :=
  lazymatch x with
  | nth_error (update_nth _ _ _) _ => fail
  | negb ?y => case_on y
  | andb ?y _ => case_on y
  | orb ?y _ => case_on y
  | _ => destruct x eqn:?
  end.

Ltac branch_test H :=
  match type of H with
  | context [match ?x with _ => _ end] =>
      match x with
      | context [match _ with _ => _ end] => fail 1
      | _ => case_on x
      end
  end.

Ltac eqb_props :=
  repeat match goal with
         | Hx : (_ =? _) = true |- _ => apply Z.eqb_eq in Hx
         | Hx : (_ =? _) = false |- _ => apply Z.eqb_neq in Hx
         end.

(** The resolver answers below the length of the table. *)
Lemma find_entry_from_below name force : forall l i,
  0 <= i -> find_entry_from i l name force < i + Z.of_nat (List.length l).
Proof.
  induction l as [|e l IH]; intros i Hi; simpl find_entry_from.
  - destruct ((i =? 1) && _) eqn:Hone.
    + apply andb_prop in Hone. destruct Hone as [Hone _].
      apply Z.eqb_eq in Hone. simpl. lia.
    + unfold ENOENT. simpl. lia.
  - destruct (_ && _).
    + simpl List.length. lia.
    + specialize (IH (i + 1) ltac:(lia)). simpl List.length. lia.
Qed.

Lemma find_entry_below tbl path force :
  _vfs_find_entry tbl path force < 0 \/
  (Z.to_nat (_vfs_find_entry tbl path force) < List.length tbl)%nat.
Proof.
  destruct path as [name|]; [|left; reflexivity].
  unfold _vfs_find_entry.
  pose proof (find_entry_from_below name force tbl 0 ltac:(lia)).
  lia.
Qed.

Section Mount.

Context {hdr : Headers} {cfg : Config} {bkd : Backend}.

(** Whatever the table and the libraries, a call of [vfs_mount] that returns
    has called the callbacks at most once. *)
Lemma mount_at_most_one_event path mount w r w' :
  vfs_mount path mount w = Ok r w' ->
  exists l, calls w' = calls w ++ l /\ (List.length (events l) <= 1)%nat.
Proof.
  intros Hrun.
  unfold vfs_mount, mount_with, unmount_with, update_entry, when, bind, call,
    ret, get_table, put_table, deref in Hrun.
  cbn [vFileSystem bk calls] in Hrun.
  run Hrun.
  all: try (injection Hrun as <- <-).
  all: cbn [calls].
  all: rewrite <- ?app_assoc.
  all: try (eexists; split; [reflexivity | cbn; lia]).
  all: try (exists []; split; [now rewrite app_nil_r | cbn; lia]).
Qed.

(** [vfs_mount] has no loop and never reads an entry that is not there: it
    returns. *)
Lemma mount_returns path mount w :
  exists r w', vfs_mount path mount w = Ok r w'.
Proof.
  destruct (vfs_mount path mount w) as [r w'| |] eqn:Hrun; [eauto | exfalso ..].
  all: unfold vfs_mount, mount_with, unmount_with, update_entry, when, bind,
         call, ret, get_table, put_table, deref in Hrun.
  all: cbn [vFileSystem bk calls] in Hrun.
  all: pose proof (find_entry_below (vFileSystem w) path true) as Hb.
  all: remember (_vfs_find_entry (vFileSystem w) path true) as i eqn:Hi.
  all: clear Hi.
  all: destruct (Z.ltb_spec i 0) as [Hneg | Hneg]; [discriminate Hrun|].
  all: remember (Z.to_nat i) as k eqn:Hk.
  all: destruct (nth_error (vFileSystem w) k) as [e|] eqn:Hnth;
       [| apply nth_error_None in Hnth; lia].
  all: clear Hb Hk Hneg.
  all: repeat (first [ discriminate Hrun
                | progress cbn beta iota in Hrun
                | progress cbn [vFileSystem bk calls index fs eventcb type drive
                                set_fs set_index option_map] in Hrun
                | progress rewrite ?nth_error_update_nth, ?Hnth in Hrun
                | progress cbn [negb andb orb is_null usable] in Hrun
                | branch_test Hrun ]).
Qed.

(** The event and the index after a call on entry [k] whose callback is
    registered, by request and result. *)
Lemma mount_transitions path mount w r w' k e :
  _vfs_find_entry (vFileSystem w) path true = Z.of_nat k ->
  nth_error (vFileSystem w) k = Some e ->
  eventcb e = true -> Z.of_nat k + 1 < 128 ->
  vfs_mount path mount w = Ok r w' ->
  exists l e',
    calls w' = calls w ++ l /\ nth_error (vFileSystem w') k = Some e' /\
    (mount = true -> r = 0 ->
     events l = [(k, EVT_MOUNT)] /\ index e' = Z.of_nat k + 1) /\
    (mount = true -> r <> 0 ->
     events l = [(k, EVT_MOUNT_FAIL)] /\ (index e = 0 -> index e' = 0)) /\
    (mount = false -> fs_kind e = FS_FATFS \/ fs_kind e = FS_LITTLEFS ->
     r = 0 -> events l = [(k, EVT_UNMOUNT)] /\ index e' = 0) /\
    (mount = false -> fs_kind e = FS_JESFS -> r = 0 ->
     events l = [(k, EVT_MOUNT)] /\ index e' = Z.of_nat k + 1) /\
    (mount = false -> r <> 0 -> events l = []).
Proof.
  intros Hfind Hnth Hcb Hk Hrun.
  assert (Hs8 : s8 (Z.of_nat k + 1) = Z.of_nat k + 1) by (apply s8_small; lia).
  unfold vfs_mount, mount_with, unmount_with, update_entry, when, bind, call,
    ret, get_table, put_table, deref in Hrun.
  cbn [vFileSystem bk calls] in Hrun.
  rewrite Hfind, Nat2Z.id in Hrun.
  destruct (Z.ltb_spec (Z.of_nat k) 0) as [Hlt | _]; [lia|].
  rewrite Hnth in Hrun.
  repeat (first [ discriminate Hrun
                | progress cbn beta iota in Hrun
                | progress cbn [vFileSystem bk calls index fs eventcb type drive
                                set_fs set_index option_map] in Hrun
                | progress rewrite ?nth_error_update_nth, ?Hnth, ?Hcb, ?Hs8
                    in Hrun
                | progress cbn [negb andb orb is_null usable] in Hrun
                | branch_test Hrun ]).
  all: try (injection Hrun as <- <-).
  all: cbn [calls vFileSystem].
  all: rewrite <- ?app_assoc.
  all: eexists; eexists.
  all: (split; [try reflexivity; try (symmetry; apply app_nil_r)|]).
  all: (split; [rewrite ?update_nth_twice, ?nth_error_update_nth, ?Hnth;
                 try reflexivity; try exact Hnth|]).
  all: cbn [index set_index set_fs fs option_map].
  all: eqb_props.
  all: try (exfalso; lia).
  all: try (exfalso; congruence).
  all: cbn [events event_of app logged projT1 projT2 fst snd].
  all: repeat split; intros.
  all: try discriminate.
  all: try (exfalso; lia).
  all: try (exfalso; congruence).
  all: try reflexivity.
  all: try assumption.
  all: try lia.
  all: exfalso; unfold FS_FATFS, FS_LITTLEFS, FS_JESFS in *; intuition lia.
Qed.

(** C5 (mount lifecycle events).  A call of [vfs_mount] that returns has
    called the callbacks at most once.  On entry [k] with a callback: a
    mount request that fails raises the one event [EVT_MOUNT_FAIL] and an
    index that was 0 stays 0; a mount request that succeeds raises the one
    event [EVT_MOUNT] and sets the index to [k + 1]; an unmount request that
    succeeds on FatFs or LittleFS raises the one event [EVT_UNMOUNT] and
    clears the index.  On JesFs the request is not looked at: an unmount
    request that succeeds has started the filesystem, raises [EVT_MOUNT] and
    sets the index to [k + 1]. *)
Theorem mount_lifecycle path mount w :
  exists r w' l,
    vfs_mount path mount w = Ok r w' /\
    calls w' = calls w ++ l /\
    (List.length (events l) <= 1)%nat /\
    forall k e,
      _vfs_find_entry (vFileSystem w) path true = Z.of_nat k ->
      nth_error (vFileSystem w) k = Some e ->
      eventcb e = true -> Z.of_nat k + 1 < 128 ->
      exists e',
        nth_error (vFileSystem w') k = Some e' /\
        (mount = true -> r <> 0 ->
         events l = [(k, EVT_MOUNT_FAIL)] /\ (index e = 0 -> index e' = 0)) /\
        (mount = true -> r = 0 ->
         events l = [(k, EVT_MOUNT)] /\ index e' = Z.of_nat k + 1) /\
        (mount = false -> fs_kind e = FS_FATFS \/ fs_kind e = FS_LITTLEFS ->
         r = 0 -> events l = [(k, EVT_UNMOUNT)] /\ index e' = 0) /\
        (mount = false -> fs_kind e = FS_JESFS -> r = 0 ->
         events l = [(k, EVT_MOUNT)] /\ index e' = Z.of_nat k + 1).
Proof.
  destruct (mount_returns path mount w) as (r & w' & Hrun).
  destruct (mount_at_most_one_event _ _ _ _ _ Hrun) as (l & Hl & Hone).
  exists r, w', l. split; [exact Hrun|]. split; [exact Hl|].
  split; [exact Hone|].
  intros k e Hfind Hnth Hcb Hk.
  destruct (mount_transitions _ _ _ _ _ _ _ Hfind Hnth Hcb Hk Hrun)
    as (l' & e' & Hl' & He' & Hok & Hfail & Hun & Hjes & _).
  assert (l' = l) as -> by (rewrite Hl in Hl'; now apply app_inv_head in Hl').
  exists e'. split; [exact He'|]. split; [exact Hfail|].
  split; [exact Hok|]. split; [exact Hun | exact Hjes].
Qed.

End Mount.

(** ** Finding: the directory is closed when the first lookup fails *)

Lemma dir_calls_app l1 l2 : dir_calls (l1 ++ l2) = dir_calls l1 ++ dir_calls l2.
Proof.
  induction l1 as [|x l1 IH]; simpl; [reflexivity|].
  destruct (dir_call_of x); simpl; now rewrite IH.
Qed.

Section Find.

Context {hdr : Headers} {cfg : Config} {bkd : Backend}.

Lemma quiet_refl w dir : quiet w w dir dir.
Proof.
  split; [|auto]. exists []. split; [now rewrite app_nil_r | reflexivity].
Qed.

Lemma quiet_trans w1 w2 w3 d1 d2 d3 :
  quiet w1 w2 d1 d2 -> quiet w2 w3 d2 d3 -> quiet w1 w3 d1 d3.
Proof.
  intros [(l1 & Hl1 & Hq1) (Ht1 & Hf1 & Hp1)] [(l2 & Hl2 & Hq2) (Ht2 & Hf2 & Hp2)].
  split; [|repeat split; congruence].
  exists (l1 ++ l2). rewrite Hl2, Hl1, app_assoc. split; [reflexivity|].
  now rewrite dir_calls_app, Hq1, Hq2.
Qed.

Ltac quiet_done :=
  unfold quiet; split;
  [ eexists; split;
    [ cbn [calls]; rewrite <- ?app_assoc;
      first [ reflexivity | symmetry; apply app_nil_r ]
    | reflexivity ]
  | split; [reflexivity | split; reflexivity] ].

(** Reading an entry opens and closes nothing, on any backend. *)
Lemma jes_read_quiet : forall fuel e dir info w r dir' info' w',
  jes_read fuel e dir info w = Ok (r, dir', info') w' -> quiet w w' dir dir'.
Proof.
  induction fuel as [|fuel IH]; intros e dir info w r dir' info' w' Hrun;
    [discriminate Hrun|].
  cbn [jes_read] in Hrun. unfold bind, call, ret in Hrun.
  destruct (respond _ (bk w) (fs_info (fno dir))) as [[res st] b] eqn:Hres.
  cbn beta iota in Hrun.
  destruct (bit_set res FS_STAT_ACTIVE).
  - injection Hrun as <- <- <- <-. quiet_done.
  - destruct (negb (res =? 0)).
    + apply IH in Hrun. eapply quiet_trans; [|exact Hrun]. quiet_done.
    + injection Hrun as <- <- <- <-. quiet_done.
Qed.

Lemma dir_read_quiet fuel dir info w r dir' info' w' :
  vfs_dir_read fuel dir info w = Ok (r, dir', info') w' -> quiet w w' dir dir'.
Proof.
  intros Hrun. unfold vfs_dir_read in Hrun. unfold bind at 1 in Hrun.
  destruct (deref (dir_filesys dir) w) as [e w0| |] eqn:Hderef;
    try discriminate Hrun.
  assert (w0 = w) as ->.
  { unfold deref in Hderef. destruct (dir_filesys dir); try discriminate.
    - destruct (nth_error _ _); [now injection Hderef|discriminate].
    - now injection Hderef. }
  destruct (fs_kind e =? FS_ROOT).
  { unfold root_read, bind, call, ret, get_table in Hrun.
    cbn [vFileSystem bk calls] in Hrun. run Hrun.
    all: injection Hrun as <- <- <- <-; quiet_done. }
  destruct (fs_kind e =? FS_FATFS).
  { unfold fat_read, blocks_of, defined, bind, call, ret, undefined in Hrun.
    rewrite Hderef in Hrun.
    cbn [vFileSystem bk calls] in Hrun. run Hrun.
    all: injection Hrun as <- <- <- <-; quiet_done. }
  destruct (fs_kind e =? FS_LITTLEFS).
  { unfold lfs_read, blocks_of, bind, call, ret, undefined in Hrun.
    rewrite Hderef in Hrun.
    cbn [vFileSystem bk calls] in Hrun. run Hrun.
    all: injection Hrun as <- <- <- <-; quiet_done. }
  destruct (fs_kind e =? FS_JESFS).
  { eapply jes_read_quiet. exact Hrun. }
  unfold ret in Hrun. injection Hrun as <- <- <- <-. apply quiet_refl.
Qed.

(** Nor does [vfs_findnext]; a result of 0 comes with a name the pattern
    matches. *)
Lemma findnext_quiet : forall fuel dir info w r dir' info' w',
  vfs_findnext fuel dir info w = Ok (r, dir', info') w' ->
  quiet w w' dir dir' /\
  (r = 0 ->
   exists pat, pattern dir = Some pat /\
     Wildcard.pattern_matching pat (name info') 0 0 = true).
Proof.
  induction fuel as [|fuel IH]; intros dir info w r dir' info' w' Hrun;
    [discriminate Hrun|].
  cbn [vfs_findnext] in Hrun. unfold bind at 1 in Hrun.
  destruct (vfs_dir_read (S fuel) dir info w) as [[[r1 dir1] info1] w1| |]
    eqn:Hread; try discriminate Hrun.
  apply dir_read_quiet in Hread.
  cbn beta iota in Hrun.
  destruct (r1 =? 0) eqn:Hr1.
  - unfold bind at 1 in Hrun. unfold deref_str in Hrun.
    destruct (pattern dir1) as [pat|] eqn:Hpat; [|discriminate Hrun].
    unfold ret at 1 in Hrun. cbn beta iota in Hrun.
    assert (Hsame : pattern dir = Some pat).
    { destruct Hread as (_ & _ & _ & Hp). congruence. }
    destruct (Wildcard.pattern_matching pat (name info1) 0 0) eqn:Hmatch.
    + injection Hrun as <- <- <- <-. split; [exact Hread|].
      intros _. exists pat. split; [exact Hsame | exact Hmatch].
    + apply IH in Hrun. destruct Hrun as [Hq Hm]. split.
      * eapply quiet_trans; eassumption.
      * intros Hr. destruct (Hm Hr) as (pat' & Hp' & Hm').
        exists pat'. split; [|exact Hm'].
        destruct Hread as (_ & _ & _ & Hp). congruence.
  - injection Hrun as <- <- <- <-. split; [exact Hread|].
    intros Hr. apply Z.eqb_neq in Hr1. contradiction.
Qed.

(** [vfs_dir_open]: one library open behind a result of 0 on FatFs and
    LittleFS, none held otherwise. *)
Lemma dir_open_calls dir path w r dir' w' :
  vfs_dir_open dir path w = Ok (r, dir') w' ->
  vFileSystem w' = vFileSystem w /\
  exists l, calls w' = calls w ++ l /\
    (r = 0 ->
     dir_filesys dir' <> RefNull /\
     dir_calls l = if lib_dir (vFileSystem w) dir' then [DirOpened] else []) /\
    (r <> 0 -> dir_calls l = [DirOpenFailed] \/ dir_calls l = []).
Proof.
  intros Hrun.
  unfold vfs_dir_open, deref_str, defined, bind, call, ret, undefined, get_table, deref
    in Hrun.
  cbn [vFileSystem bk calls dir_filesys set_dir_filesys zero_dir] in Hrun.
  run Hrun.
  all: injection Hrun as <- <- <-.
  all: cbn [vFileSystem calls].
  all: (split; [reflexivity|]).
  all: unfold lib_dir, _vfs_find_entry in *.
  all: cbn [dir_filesys set_dir_filesys set_lfspath set_fno set_root zero_dir].
  all: repeat match goal with
         | Hx : nth_error _ _ = _ |- _ => rewrite Hx
         | Hx : (fs_kind _ =? _) = _ |- _ => rewrite Hx
         end.
  all: cbn [orb].
  all: (eexists; split;
        [ first [ reflexivity | symmetry; apply app_nil_r ] |]).
  all: cbn [dir_calls dir_call_of logged].
  all: eqb_props.
  all: split; intros Hr.
  all: try (exfalso; unfold ENOENT in *; lia).
  all: try (split; [discriminate|]).
  all: repeat match goal with
         | Hx : ?x = 0 |- context [?x =? 0] => rewrite Hx
         | Hx : ?x <> 0 |- context [?x =? 0] =>
             rewrite (proj2 (Z.eqb_neq x 0) Hx)
         end.
  all: try reflexivity.
  all: try (left; reflexivity).
  all: try (right; reflexivity).
Qed.

(** [vfs_dir_close]: the handle detached, and the library's closed where it
    has one. *)
Lemma dir_close_calls dir w r dir' w' :
  vfs_dir_close dir w = Ok (r, dir') w' ->
  dir_filesys dir' = RefNull /\
  exists l, calls w' = calls w ++ l /\
    dir_calls l = if lib_dir (vFileSystem w) dir then [DirClosed] else [].
Proof.
  intros Hrun.
  unfold vfs_dir_close, bind, call, ret, deref, lib_dir in *.
  destruct (dir_filesys dir) as [|k|] eqn:Hfs; try discriminate Hrun.
  - destruct (nth_error (vFileSystem w) k) as [e|]; [|discriminate Hrun].
    run Hrun.
    all: injection Hrun as <- <- <-.
    all: (split; [reflexivity|]).
    all: cbn [calls orb].
    all: eexists; (split; [first [reflexivity | symmetry; apply app_nil_r]|]).
    all: reflexivity.
  - change (fs_kind vRootSystem =? FS_FATFS) with false in Hrun.
    change (fs_kind vRootSystem =? FS_LITTLEFS) with false in Hrun.
    change (fs_kind vRootSystem =? FS_JESFS) with false in Hrun.
    cbn beta iota in Hrun. injection Hrun as <- <- <-.
    split; [reflexivity|]. exists []. split; [now rewrite app_nil_r|reflexivity].
Qed.

(** One round of [vfs_findnext]: a result of the reader that is not 0 is
    returned as it is; an entry read is returned with 0 when the matcher
    accepts its name for the pattern of the handle, and passed over for the
    next round when it does not. *)
Lemma findnext_round fuel dir info w r dir1 info1 w1 :
  vfs_dir_read (S fuel) dir info w = Ok (r, dir1, info1) w1 ->
  (r <> 0 -> vfs_findnext (S fuel) dir info w = Ok (r, dir1, info1) w1) /\
  (r = 0 -> forall p, pattern dir1 = Some p ->
     vfs_findnext (S fuel) dir info w
     = if Wildcard.pattern_matching p (name info1) 0 0
       then Ok (0, dir1, info1) w1
       else vfs_findnext fuel dir1 info1 w1).
Proof.
  intros Hread. split.
  - intros Hr. cbn [vfs_findnext]. unfold bind at 1. rewrite Hread.
    cbn beta iota. apply Z.eqb_neq in Hr. rewrite Hr. reflexivity.
  - intros -> p Hp. cbn [vfs_findnext]. unfold bind at 1. rewrite Hread.
    cbn beta iota. cbn [Z.eqb]. cbn beta iota.
    unfold bind at 1. rewrite Hp. unfold deref_str, ret at 1.
    cbn beta iota.
    destruct (Wildcard.pattern_matching p (name info1) 0 0); reflexivity.
Qed.

(** What a [vfs_findfirst] that returns has done. *)
Lemma findfirst_runs fuel dir info path pat w r dir' info' w' :
  vfs_findfirst fuel dir info path pat w = Ok (r, dir', info') w' ->
  exists l,
    calls w' = calls w ++ l /\
    (r <> 0 ->
     (dir_calls l = [DirOpened; DirClosed] \/ dir_calls l = [DirOpenFailed] \/
      dir_calls l = []) /\
     (forall r1 dir1 w1,
        vfs_dir_open dir path w = Ok (r1, dir1) w1 -> r1 <> 0 ->
        r = r1 /\ dir' = dir1 /\ info' = info /\ w' = w1) /\
     (forall dir1 w1,
        vfs_dir_open dir path w = Ok (0, dir1) w1 ->
        dir_filesys dir' = RefNull /\
        exists dir2 w2 rc,
          vfs_findnext fuel (set_pattern dir1 pat) info w1
          = Ok (r, dir2, info') w2 /\
          vfs_dir_close dir2 w2 = Ok (rc, dir') w')) /\
    (r = 0 ->
     (dir_calls l = [DirOpened] \/ dir_calls l = []) /\
     dir_filesys dir' <> RefNull /\
     (exists p, pat = Some p /\
        Wildcard.pattern_matching p (name info') 0 0 = true) /\
     exists dir1 w1,
       vfs_dir_open dir path w = Ok (0, dir1) w1 /\
       vfs_findnext fuel (set_pattern dir1 pat) info w1
       = Ok (0, dir', info') w').
Proof.
  intros Hrun. unfold vfs_findfirst in Hrun. unfold bind at 1 in Hrun.
  destruct (vfs_dir_open dir path w) as [[r1 dir1] w1| |] eqn:Hopen;
    try discriminate Hrun.
  destruct (dir_open_calls _ _ _ _ _ _ Hopen) as (Ht1 & l1 & Hl1 & Hok1 & Hno1).
  cbn beta iota in Hrun.
  destruct (Z.eqb_spec r1 0) as [-> | Hr1].
  - destruct (Hok1 eq_refl) as [Hatt Hc1]. clear Hok1 Hno1.
    unfold bind at 1 in Hrun.
    destruct (vfs_findnext fuel (set_pattern dir1 pat) info w1)
      as [[[r2 dir2] info2] w2| |] eqn:Hnext; try discriminate Hrun.
    destruct (findnext_quiet _ _ _ _ _ _ _ _ Hnext)
      as [[(l2 & Hl2 & Hc2) (Ht2 & Hf2 & Hp2)] Hm].
    cbn beta iota in Hrun.
    assert (Hlib : lib_dir (vFileSystem w2) dir2 = lib_dir (vFileSystem w) dir1).
    { unfold lib_dir. rewrite Hf2, Ht2, Ht1. reflexivity. }
    destruct (Z.eqb_spec r2 0) as [-> | Hr2]; cbn [negb] in Hrun.
    + unfold ret in Hrun. injection Hrun as <- <- <- <-.
      exists (l1 ++ l2). rewrite Hl2, Hl1, app_assoc.
      split; [reflexivity|]. split; [intros Hr; now elim Hr|]. intros _.
      rewrite dir_calls_app, Hc1, Hc2, app_nil_r.
      split; [destruct (lib_dir _ _); auto|].
      split; [now rewrite Hf2|]. split; [exact (Hm eq_refl)|].
      exists dir1, w1. split; [reflexivity | exact Hnext].
    + unfold bind at 1 in Hrun.
      destruct (vfs_dir_close dir2 w2) as [[rc dir3] w3| |] eqn:Hclose;
        try discriminate Hrun.
      destruct (dir_close_calls _ _ _ _ _ Hclose) as (Hnull & l3 & Hl3 & Hc3).
      unfold ret in Hrun. cbn beta iota in Hrun.
      injection Hrun as <- <- <- <-.
      exists (l1 ++ l2 ++ l3). rewrite Hl3, Hl2, Hl1, <- !app_assoc.
      split; [reflexivity|]. split; [|intros Hr; contradiction]. intros _.
      rewrite !dir_calls_app, Hc1, Hc2, Hc3, Hlib. split; [|split].
      * destruct (lib_dir _ _); auto.
      * intros r1' dir1' w1' Heq Hne. injection Heq as <- _ _.
        now elim Hne.
      * intros dir1' w1' Heq. injection Heq as <- <-.
        split; [exact Hnull|]. exists dir2, w2, rc. split; [exact Hnext|].
        exact Hclose.
  - unfold ret in Hrun. injection Hrun as <- <- <- <-.
    exists l1. split; [exact Hl1|]. split; [|intros Hr; contradiction].
    intros _. split; [destruct (Hno1 Hr1); auto|]. split.
    + intros r1' dir1' w1' Heq _. injection Heq as <- <- <-. auto.
    + intros dir1' w1' Heq. injection Heq as Heq _ _. contradiction.
Qed.

End Find.

Section FindRuns.

Import Sim.

(** A read of the next name, and of the end of the listing. *)
Lemma fat_read_name n names dir info log :
  named n = true -> on_drive dir ->
  exists info',
    vfs_dir_read 1 dir info (mkWorld [fat_drive] (shelf (n :: names)) log)
    = Ok (0, dir, info')
         (mkWorld [fat_drive] (shelf names)
            (log ++ [logged (f_readdir (dp dir))
                       (0, mkFILINFO n 0 0 0 Timestamp.blank);
                     logged (fatfs_csize 0) 1])) /\
    name info' = take 63 n.
Proof.
  intros Hn Hd. unfold named in Hn. apply negb_true_iff in Hn.
  unfold on_drive in Hd.
  eexists. split.
  - unfold vfs_dir_read. unfold bind at 1. unfold deref. rewrite Hd.
    cbn [vFileSystem nth_error]. cbn beta iota.
    change (fs_kind fat_drive =? FS_ROOT) with false.
    change (fs_kind fat_drive =? FS_FATFS) with true. cbn beta iota.
    unfold fat_read. unfold bind at 1. unfold deref. rewrite Hd.
    cbn [vFileSystem nth_error]. cbn beta iota.
    unfold bind at 1. unfold call at 1.
    cbn [bk respond backend answer shelf next_name listing content position
         mounts].
    cbn beta iota. change (0 =? FR_OK) with true. cbn beta iota.
    cbn [fname]. rewrite Hn.
    unfold bind at 1. unfold call at 1.
    cbn [bk respond backend answer silent]. cbn beta iota.
    unfold blocks_of.
    change (u32 (1 * FF_MAX_SS) =? 0) with false. cbn beta iota.
    unfold bind, ret. cbn [calls vFileSystem bk]. rewrite <- app_assoc.
    rewrite ?Hd. reflexivity.
  - reflexivity.
Qed.

Lemma fat_read_end fuel dir info log :
  on_drive dir ->
  vfs_dir_read fuel dir info (mkWorld [fat_drive] (shelf []) log)
  = Ok (-1, dir, info)
       (mkWorld [fat_drive] (shelf [])
          (log ++ [logged (f_readdir (dp dir))
                     (0, mkFILINFO EmptyString 0 0 0 Timestamp.blank)])).
Proof.
  intros Hd. unfold on_drive in Hd.
  unfold vfs_dir_read. unfold bind at 1. unfold deref. rewrite Hd.
  cbn [vFileSystem nth_error]. cbn beta iota.
  change (fs_kind fat_drive =? FS_ROOT) with false.
  change (fs_kind fat_drive =? FS_FATFS) with true. cbn beta iota.
  unfold fat_read. unfold bind at 1. unfold deref. rewrite Hd.
  cbn [vFileSystem nth_error]. cbn beta iota.
  unfold bind at 1. unfold call at 1.
  cbn [bk respond backend answer shelf next_name listing content position
       mounts].
  reflexivity.
Qed.

Lemma findnext_sim pat : forall names fuel dir info log,
  (List.length names < fuel)%nat -> forallb named names = true ->
  on_drive dir -> pattern dir = Some pat ->
  exists r info' st' log',
    vfs_findnext fuel dir info (mkWorld [fat_drive] (shelf names) log)
    = Ok (r, dir, info') (mkWorld [fat_drive] st' log') /\
    match first_match pat names with
    | Some n => r = 0 /\ name info' = take 63 n
    | None => r = -1
    end.
Proof.
  induction names as [|n names IH]; intros fuel dir info log Hfuel Hnames Hd Hp;
    (destruct fuel as [|fuel]; [simpl in Hfuel; lia|]).
  - cbn [vfs_findnext]. unfold bind at 1. rewrite (fat_read_end _ _ _ _ Hd).
    cbn beta iota. change (-1 =? 0) with false. cbn beta iota.
    unfold ret. do 4 eexists. split; reflexivity.
  - cbn [forallb] in Hnames. apply andb_prop in Hnames.
    destruct Hnames as [Hn Hnames].
    destruct (fat_read_name n names dir info log Hn Hd) as (info1 & Hread & Hname).
    cbn [vfs_findnext]. unfold bind at 1.
    assert (Hread' : vfs_dir_read (S fuel) dir info
                       (mkWorld [fat_drive] (shelf (n :: names)) log)
                     = vfs_dir_read 1 dir info
                         (mkWorld [fat_drive] (shelf (n :: names)) log)).
    { unfold vfs_dir_read, bind, deref. rewrite Hd.
      cbn [vFileSystem nth_error]. cbn beta iota.
      change (fs_kind fat_drive =? FS_ROOT) with false.
      change (fs_kind fat_drive =? FS_FATFS) with true. reflexivity. }
    rewrite Hread', Hread. cbn beta iota.
    change (0 =? 0) with true. cbn beta iota.
    unfold bind at 1. rewrite Hp. unfold deref_str, defined, ret at 1. cbn beta iota.
    unfold first_match. cbn [find]. rewrite Hname.
    destruct (Wildcard.pattern_matching pat (take 63 n) 0 0).
    + unfold ret. do 4 eexists. split; [reflexivity|]. split; [reflexivity|].
      exact Hname.
    + apply IH; auto. simpl in Hfuel. lia.
Qed.

Lemma dir_open_sim st log :
  vfs_dir_open no_dir (Some "A:"%string) (mkWorld [fat_drive] st log)
  = Ok (0, mkVfsDir (RefEntry 0) 0 0 EmptyString 0 None)
       (mkWorld [fat_drive] st (log ++ [logged (f_opendir 0 "A:"%string) 0])).
Proof. reflexivity. Qed.

Lemma dir_close_sim p st log :
  vfs_dir_close (mkVfsDir (RefEntry 0) 0 0 EmptyString 0 p)
    (mkWorld [fat_drive] st log)
  = Ok (0, mkVfsDir RefNull 0 0 EmptyString 0 p)
       (mkWorld [fat_drive] st (log ++ [logged (f_closedir 0) 0])).
Proof. reflexivity. Qed.

(** On the simulated FatFs drive a find over any listing returns, given fuel
    for one read more than it has names: with the first name that matches,
    or with -1 and the directory closed. *)
Lemma findfirst_sim pat names fuel :
  (List.length names < fuel)%nat -> forallb named names = true ->
  exists r dir' info' w',
    vfs_findfirst fuel no_dir zero_info (Some "A:"%string) (Some pat)
      (world [fat_drive] (shelf names))
    = Ok (r, dir', info') w' /\
    match first_match pat names with
    | Some n =>
        r = 0 /\ name info' = take 63 n /\ dir_filesys dir' = RefEntry 0 /\
        dir_calls (calls w') = [DirOpened]
    | None =>
        r = -1 /\ dir_filesys dir' = RefNull /\
        dir_calls (calls w') = [DirOpened; DirClosed]
    end.
Proof.
  intros Hfuel Hnames.
  unfold vfs_findfirst, world. unfold bind at 1. rewrite dir_open_sim.
  cbn beta iota. change (0 =? 0) with true. cbn beta iota.
  unfold set_pattern. cbn [dir_filesys dp root lfspath fno].
  set (dir := mkVfsDir (RefEntry 0) 0 0 EmptyString 0 (Some pat)).
  destruct (findnext_sim pat names fuel dir zero_info
              ([] ++ [logged (f_opendir 0 "A:"%string) 0]) Hfuel Hnames
              eq_refl eq_refl)
    as (r & info' & st' & log' & Hrun & Hres).
  destruct (findnext_quiet _ _ _ _ _ _ _ _ Hrun) as [[(l & Hl & Hq) _] _].
  cbn [calls] in Hl.
  unfold bind at 1. rewrite Hrun. cbn beta iota.
  destruct (first_match pat names) as [n|].
  - destruct Hres as [-> Hname]. change (negb (0 =? 0)) with false.
    cbn beta iota. unfold ret. do 4 eexists. split; [reflexivity|].
    repeat split; auto. cbn [calls]. rewrite Hl, dir_calls_app, Hq.
    reflexivity.
  - subst r. change (negb (-1 =? 0)) with true. cbn beta iota.
    unfold bind at 1. unfold dir. rewrite dir_close_sim. cbn beta iota.
    unfold ret. do 4 eexists. split; [reflexivity|].
    repeat split; auto. cbn [calls]. rewrite Hl, !dir_calls_app, Hq.
    reflexivity.
Qed.

(** A find for "*.c" among [two_names]. *)
Lemma find_no_match :
  vfs_findfirst 3 no_dir zero_info (Some "A:"%string) (Some "*.c"%string)
    (world [fat_drive] (shelf two_names))
  = Ok (-1, mkVfsDir RefNull 0 0 EmptyString 0 (Some "*.c"%string), last_seen)
       after_no_match.
Proof. reflexivity. Qed.

(** C9 (find resource safety).  For every backend: [vfs_findnext] reads
    entry after entry and filters the names through the wildcard matcher,
    returning 0 with the first entry whose name the matcher accepts for the
    pattern of the handle, and the result of the reader as it is when that
    is not 0.  A [vfs_findfirst] that returns nonzero leaves no directory
    open in the libraries: its library calls on directories are an open and
    a close, or an open that was refused, or none; a refused open is its
    result and nothing follows; and when [vfs_dir_open] had returned 0, the
    nonzero result is the one of the first [vfs_findnext], [vfs_dir_close]
    has run on the handle and the handle comes back detached.  A result of 0
    is the one of the first [vfs_findnext] after an open that returned 0,
    and comes with the handle attached, at most the one open, no close, and
    a name that the matcher accepts.  On the simulated FatFs drive a find
    over any listing, given fuel for one read more than it has names,
    returns with the first name that matches and the directory open, or
    with -1 and the directory closed. *)
Theorem findfirst_resource_safety :
  (forall (hdr : Headers) (cfg : Config) (bkd : Backend)
          fuel dir info w r dir1 info1 w1,
     vfs_dir_read (S fuel) dir info w = Ok (r, dir1, info1) w1 ->
     (r <> 0 -> vfs_findnext (S fuel) dir info w = Ok (r, dir1, info1) w1) /\
     (r = 0 -> forall p, pattern dir1 = Some p ->
        vfs_findnext (S fuel) dir info w
        = if Wildcard.pattern_matching p (name info1) 0 0
          then Ok (0, dir1, info1) w1
          else vfs_findnext fuel dir1 info1 w1)) /\
  (forall (hdr : Headers) (cfg : Config) (bkd : Backend)
          fuel dir info path pat w r dir' info' w',
     vfs_findfirst fuel dir info path pat w = Ok (r, dir', info') w' ->
     exists l,
       calls w' = calls w ++ l /\
       (r <> 0 ->
        (dir_calls l = [DirOpened; DirClosed] \/
         dir_calls l = [DirOpenFailed] \/ dir_calls l = []) /\
        (forall r1 dir1 w1,
           vfs_dir_open dir path w = Ok (r1, dir1) w1 -> r1 <> 0 ->
           r = r1 /\ dir' = dir1 /\ info' = info /\ w' = w1) /\
        (forall dir1 w1,
           vfs_dir_open dir path w = Ok (0, dir1) w1 ->
           dir_filesys dir' = RefNull /\
           exists dir2 w2 rc,
             vfs_findnext fuel (set_pattern dir1 pat) info w1
             = Ok (r, dir2, info') w2 /\
             vfs_dir_close dir2 w2 = Ok (rc, dir') w')) /\
       (r = 0 ->
        (dir_calls l = [DirOpened] \/ dir_calls l = []) /\
        dir_filesys dir' <> RefNull /\
        (exists p, pat = Some p /\
           Wildcard.pattern_matching p (name info') 0 0 = true) /\
        exists dir1 w1,
          vfs_dir_open dir path w = Ok (0, dir1) w1 /\
          vfs_findnext fuel (set_pattern dir1 pat) info w1
          = Ok (0, dir', info') w')) /\
  (forall pat names fuel,
     (List.length names < fuel)%nat -> forallb named names = true ->
     exists r dir' info' w',
       vfs_findfirst fuel no_dir zero_info (Some "A:"%string) (Some pat)
         (world [fat_drive] (shelf names))
       = Ok (r, dir', info') w' /\
       match first_match pat names with
       | Some n =>
           r = 0 /\ name info' = take 63 n /\ dir_filesys dir' = RefEntry 0 /\
           dir_calls (calls w') = [DirOpened]
       | None =>
           r = -1 /\ dir_filesys dir' = RefNull /\
           dir_calls (calls w') = [DirOpened; DirClosed]
       end).
Proof.
  split; [|split].
  - intros hdr cfg bkd fuel dir info w r dir1 info1 w1.
    apply findnext_round.
  - intros hdr cfg bkd fuel dir info path pat w r dir' info' w'.
    apply findfirst_runs.
  - exact findfirst_sim.
Qed.

(** A find for "*.c" that meets "b.c" behind "a.txt", and one among
    [two_names], where nothing matches. *)
Lemma findfirst_resource_safety_witness :
  (exists r dir' info' w',
     vfs_findfirst 4 no_dir zero_info (Some "A:"%string) (Some "*.c"%string)
       (world [fat_drive] (shelf ["a.txt"; "b.c"; "c.c"]%string))
     = Ok (r, dir', info') w' /\
     r = 0 /\ name info' = "b.c"%string /\ dir_filesys dir' = RefEntry 0 /\
     dir_calls (calls w') = [DirOpened]) /\
  exists l,
    calls after_no_match = [] ++ l /\
    dir_calls l = [DirOpened; DirClosed] /\
    exists dir2 w2 rc,
      vfs_findnext 3
        (set_pattern (mkVfsDir (RefEntry 0) 0 0 EmptyString 0 None)
           (Some "*.c"%string))
        zero_info
        (mkWorld [fat_drive] (shelf two_names)
           ([] ++ [logged (f_opendir 0 "A:"%string) 0]))
      = Ok (-1, dir2, last_seen) w2 /\
      vfs_dir_close dir2 w2
      = Ok (rc, mkVfsDir RefNull 0 0 EmptyString 0 (Some "*.c"%string))
           after_no_match.
Proof.
  split.
  - exact (proj2 (proj2 findfirst_resource_safety) "*.c"%string
             ["a.txt"; "b.c"; "c.c"]%string 4%nat
             ltac:(simpl; lia) eq_refl).
  - destruct (proj1 (proj2 findfirst_resource_safety) _ _ _ _ _ _ _ _ _ _ _
                _ _ find_no_match)
      as (l & Hl & Hfail & _).
    assert (Hr : -1 <> 0) by discriminate.
    destruct (Hfail Hr) as (Hcalls & _ & Hclose).
    destruct (Hclose _ _ (dir_open_sim (shelf two_names) [])) as [_ Hran].
    exists l. split; [exact Hl|].
    split; [|exact Hran].
    cbn in Hl. subst l. reflexivity.
Defined.

End FindRuns.

(** ** The checksum of a file *)

Section Checksum.

Import Sim.

(** Folding a run of words is folding its parts in turn. *)
Lemma crc_words_app ws1 : forall crc ws2,
  Crc.crc_words crc (ws1 ++ ws2) = Crc.crc_words (Crc.crc_words crc ws1) ws2.
Proof. induction ws1 as [|w ws1 IH]; intros; simpl; auto. Qed.

(** Whole words in front are read as such whatever follows. *)
Lemma words_of_whole : forall n a b,
  List.length a = (4 * n)%nat -> words_of (a ++ b) = words_of a ++ words_of b.
Proof.
  induction n as [|n IH]; intros a b Hlen.
  - destruct a; [reflexivity | discriminate].
  - destruct a as [|b0 [|b1 [|b2 [|b3 a]]]]; simpl in Hlen; try lia.
    simpl. f_equal. apply IH. lia.
Qed.

(** The first [length d / 4] words of a buffer that starts with [d] are the
    whole words of [d]: bytes of [d] short of a word, and what pads them, lie
    in the next word. *)
Lemma words_of_padded : forall n d z,
  (List.length d < 4 * n)%nat ->
  firstn (List.length d / 4) (words_of (d ++ z)) = words_of d.
Proof.
  induction n as [|n IH]; intros d z Hlen; [lia|].
  destruct d as [|b0 [|b1 [|b2 [|b3 d]]]]; try reflexivity.
  change (List.length (b0 :: b1 :: b2 :: b3 :: d)) with (4 + List.length d)%nat.
  replace ((4 + List.length d) / 4)%nat with (S (List.length d / 4)).
  - simpl. f_equal. apply IH. simpl in Hlen. lia.
  - change (4 + List.length d)%nat with (1 * 4 + List.length d)%nat.
    rewrite Nat.div_add_l by lia. reflexivity.
Qed.

(** The buffer of [vfs_crc] after a read of [d] and the [memset]. *)
Lemma store_shape d buf :
  List.length buf = 128%nat -> (List.length d <= 128)%nat ->
  exists z,
    (if Z.of_nat (List.length d) <? 128
     then zero_from (List.length d) (store d buf) else store d buf) = d ++ z /\
    List.length (d ++ z) = 128%nat.
Proof.
  intros Hb Hd. unfold store, zero_from. rewrite Hb.
  assert (Hst : firstn 128 (d ++ skipn (List.length d) buf)
                = d ++ skipn (List.length d) buf).
  { apply firstn_all2. rewrite length_app, length_skipn. lia. }
  rewrite Hst.
  assert (Hlen : List.length (d ++ skipn (List.length d) buf) = 128%nat)
    by (rewrite length_app, length_skipn; lia).
  destruct (Z.ltb_spec (Z.of_nat (List.length d)) 128).
  - exists (repeat 0 (128 - List.length d)).
    rewrite Hlen, firstn_app, Nat.sub_diag, firstn_all. simpl firstn.
    rewrite app_nil_r.
    split; [reflexivity|]. rewrite length_app, repeat_length. lia.
  - exists (skipn (List.length d) buf). split; [reflexivity | exact Hlen].
Qed.

Lemma chunk_file c p : chunk (file_at c p) 128 = firstn 128 (skipn p c).
Proof. unfold chunk, file_at. cbn [position content]. now rewrite Nat2Z.id. Qed.

(** A read of 128 bytes on the simulated FatFs drive. *)
Lemma read_sim c p log :
  let d := firstn 128 (skipn p c) in
  vfs_file_read open_file 128 (mkWorld [fat_drive] (file_at c p) log)
  = Ok (Z.of_nat (List.length d), d, open_file)
       (mkWorld [fat_drive] (file_at c (p + List.length d))
          (log ++ [logged (f_read 0 128) (0, d)])).
Proof.
  intros d.
  assert (Hd : (List.length d <= 128)%nat) by (unfold d; apply firstn_le_length).
  unfold vfs_file_read, bind, deref, call, ret.
  cbn [filesys open_file vFileSystem nth_error fp].
  change (fs_kind fat_drive =? FS_FATFS) with true. cbn beta iota.
  cbn [bk respond backend answer]. rewrite chunk_file. fold d.
  change (u32 (_ff_errno 0)) with 0. cbn beta iota zeta.
  change (0 =? 0) with true. cbn beta iota.
  rewrite u32_small by (change (2 ^ 32) with 4294967296; lia).
  unfold advance, file_at. cbn [content position listing mounts].
  now rewrite Nat2Z.inj_add.
Qed.

Lemma skipn_chunks (c : list Z) p :
  skipn p c = firstn 128 (skipn p c) ++ skipn (p + 128) c.
Proof.
  rewrite Nat.add_comm, <- skipn_skipn. symmetry. apply firstn_skipn.
Qed.

(** The [while] of [vfs_crc] on the simulated drive, from byte [p] on: the
    whole words of the rest of the file are folded, given fuel for one read
    per chunk and the read that finds the end. *)
Lemma crc_loop_sim : forall fuel c p buf crc log,
  List.length buf = 128%nat -> (p <= List.length c)%nat ->
  ((List.length c - p + 127) / 128 < fuel)%nat ->
  exists log',
    crc_loop fuel open_file buf crc (mkWorld [fat_drive] (file_at c p) log)
    = Ok (0, Crc.crc_words crc (words_of (skipn p c)), open_file)
         (mkWorld [fat_drive] (file_at c (List.length c)) log').
Proof.
  induction fuel as [|fuel IH]; intros c p buf crc log Hbuf Hp Hfuel; [lia|].
  cbn [crc_loop]. unfold bind at 1. rewrite read_sim.
  set (d := firstn 128 (skipn p c)).
  assert (Hd : (List.length d <= 128)%nat) by (unfold d; apply firstn_le_length).
  assert (Hlen : List.length d = Nat.min 128 (List.length c - p)).
  { unfold d. now rewrite length_firstn, length_skipn. }
  cbn beta iota zeta.
  assert (Hs : s32 (Z.of_nat (List.length d)) = Z.of_nat (List.length d)).
  { unfold s32, u32. change (2 ^ 32) with 4294967296.
    change (2 ^ 31) with 2147483648. rewrite Z.mod_small by lia.
    destruct (Z.ltb_spec (Z.of_nat (List.length d)) 2147483648); lia. }
  rewrite Hs.
  destruct (Z.ltb_spec 0 (Z.of_nat (List.length d))) as [Hpos | Hzero].
  - destruct (store_shape d buf Hbuf Hd) as (z & Hshape & Hz).
    rewrite Nat2Z.id, Hshape.
    unfold Crc.CRC_FUNC.
    assert (Hfold : firstn (Z.to_nat (Z.of_nat (List.length d) / 4))
                      (words_of (d ++ z)) = words_of d).
    { change 4 with (Z.of_nat 4). rewrite <- Nat2Z.inj_div, Nat2Z.id.
      apply (words_of_padded 33). lia. }
    rewrite Hfold.
    assert (Hrest : words_of (skipn p c)
                    = words_of d ++ words_of (skipn (p + List.length d) c)).
    { destruct (Nat.eq_dec (List.length d) 128) as [Hfull | Hpart].
      - rewrite (skipn_chunks c p) at 1. fold d. rewrite Hfull.
        apply (words_of_whole 32). exact Hfull.
      - assert (Hall : d = skipn p c).
        { unfold d. apply firstn_all2. rewrite length_skipn. lia. }
        rewrite (skipn_all2 (n := p + List.length d)) by lia.
        rewrite <- Hall. simpl. now rewrite app_nil_r. }
    destruct (IH c (p + List.length d)%nat (d ++ z)
                (Crc.crc_words crc (words_of d))
                (log ++ [logged (f_read 0 128) (0, d)]) Hz ltac:(lia))
      as (log' & Hrun).
    { destruct (Nat.eq_dec (List.length d) 128) as [Hfull | Hpart].
      - rewrite Hfull.
        replace (List.length c - (p + 128) + 127)%nat
          with (List.length c - p + 127 - 1 * 128)%nat by lia.
        assert (Hdiv : ((List.length c - p + 127 - 1 * 128) / 128
                        = (List.length c - p + 127) / 128 - 1)%nat).
        { assert (H128 : (1 * 128 <= List.length c - p + 127)%nat) by lia.
          generalize dependent (List.length c - p + 127)%nat. intros m.
          intros. replace m with ((m - 1 * 128) + 1 * 128)%nat at 2 by lia.
          rewrite Nat.div_add by lia. lia. }
        assert (Hone : (1 <= (List.length c - p + 127) / 128)%nat).
        { apply Nat.div_le_lower_bound; lia. }
        rewrite Hdiv. lia.
      - replace (List.length c - (p + List.length d))%nat with 0%nat by lia.
        change ((0 + 127) / 128)%nat with 0%nat.
        destruct fuel; [|lia].
        exfalso.
        assert (Hone : (1 <= (List.length c - p + 127) / 128)%nat).
        { apply Nat.div_le_lower_bound; lia. }
        lia. }
    exists log'. rewrite Hrun, Hrest, crc_words_app. reflexivity.
  - exists (log ++ [logged (f_read 0 128) (0, d)]).
    unfold ret. assert (Hd0 : List.length d = 0%nat) by lia.
    rewrite Hd0, Nat.add_0_r.
    assert (Hpc : p = List.length c) by lia.
    assert (Hnil : skipn p c = []) by (apply skipn_all2; lia).
    rewrite Hnil. simpl. subst p. reflexivity.
Qed.

Lemma stat_sim c log :
  exists info log',
    vfs_stat (Some "A:/f"%string) (mkWorld [fat_drive] (file_at c 0) log)
    = Ok (0, info) (mkWorld [fat_drive] (file_at c 0) log') /\
    size info = Z.of_nat (List.length c).
Proof.
  eexists. eexists. split.
  - unfold vfs_stat, bind, get_table.
    cbn [vFileSystem bk calls].
    change (_vfs_find_entry [fat_drive] (Some "A:/f"%string) false) with 0.
    cbn beta iota zeta. change (0 <? 0) with false. cbn beta iota.
    unfold deref, deref_str, defined, ret. cbn [Z.to_nat nth_error vFileSystem].
    cbn beta iota.
    change (fs_kind fat_drive =? FS_FATFS) with true. cbn beta iota.
    change (Z.to_nat (namelen fat_drive)) with 2%nat.
    change (is_nul (char_at "A:/f"%string 2)
            || Ascii.eqb (char_at "A:/f"%string 2) "/"%char && is_nul (char_at "A:/f"%string (2 + 1))
            || Ascii.eqb (char_at "A:/f"%string 2) "\"%char && is_nul (char_at "A:/f"%string (2 + 1)))
      with false.
    cbn beta iota.
    unfold call at 1. cbn [bk respond backend answer]. cbn beta iota.
    change (_ff_errno 0 =? 0) with true. cbn beta iota.
    unfold after_last_slash.
    change (strrchr "A:/f"%string "/"%char) with (Some "/f"%string). cbn beta iota.
    unfold ret. unfold call at 1. cbn [bk respond backend answer silent].
    cbn beta iota.
    unfold blocks_of.
    change (u32 (1 * FF_MAX_SS) =? 0) with false. cbn beta iota.
    unfold ret. cbn [fsize]. 
    cbn [vFileSystem calls]. change (_ff_errno 0) with 0. reflexivity.
  - reflexivity.
Qed.

Lemma open_sim st log :
  vfs_file_open no_file (Some "A:/f"%string) VFS_RDONLY
    (mkWorld [fat_drive] st log)
  = Ok (0, open_file)
       (mkWorld [fat_drive] st
          (log ++ [logged (f_open 0 "A:/f"%string FA_READ) 0])).
Proof. reflexivity. Qed.

Lemma close_sim st log :
  vfs_file_close open_file (mkWorld [fat_drive] st log)
  = Ok (0, no_file)
       (mkWorld [fat_drive] st (log ++ [logged (f_close 0) 0])).
Proof. reflexivity. Qed.

(** C8 (whole-file checksum).  On the simulated FatFs drive, for a file of
    any bytes [c], [vfs_crc] returns 0 and leaves at [*crc] the fold, from
    all-ones and whatever [*crc] held, of the two words of the size and then
    of the whole 32-bit words of the content, by the nibble-table rounds of
    [CRC_FUNC].  The length passed for a chunk is [ret / sizeof(uint32_t)]:
    the one to three bytes a file has beyond its last whole word are zero
    padded in the buffer and then left out of the fold. *)
Theorem vfs_crc_whole_words c buf crc0 fuel :
  List.length buf = 128%nat ->
  ((List.length c + 127) / 128 < fuel)%nat ->
  let n := Z.of_nat (List.length c) in
  result (vfs_crc fuel no_file buf (Some "A:/f"%string) crc0
            (world [fat_drive] (file_at c 0)))
  = Some (0, Crc.crc_words 0xFFFFFFFF
               ([u32 n; u32 (Z.shiftr n 32)] ++ words_of c)).
Proof.
  intros Hbuf Hfuel n.
  destruct (stat_sim c []) as (info & log1 & Hstat & Hsize).
  unfold vfs_crc, world. unfold bind at 1. rewrite Hstat.
  cbn beta iota zeta. change (0 =? 0) with true. cbn beta iota.
  unfold bind at 1. rewrite open_sim. cbn beta iota.
  change (0 =? 0) with true. cbn beta iota.
  destruct (crc_loop_sim fuel c 0 buf
              (Crc.CRC_FUNC crc0 [u32 (size info); u32 (Z.shiftr (size info) 32)]
                 2 true)
              (log1 ++ [logged (f_open 0 "A:/f"%string FA_READ) 0]) Hbuf
              ltac:(lia) ltac:(rewrite Nat.sub_0_r; exact Hfuel))
    as (log2 & Hloop).
  unfold bind at 1. rewrite Hloop. cbn beta iota.
  unfold bind at 1. rewrite close_sim. cbn beta iota.
  unfold ret, result. rewrite Hsize. fold n.
  unfold Crc.CRC_FUNC. cbn [firstn Z.to_nat Pos.to_nat Pos.iter_op Nat.add skipn].
  rewrite crc_words_app. reflexivity.
Qed.

(** Two files of five bytes that differ in the last: one checksum, and not
    the one of the size and the two words 04030201 and 00000005. *)
Lemma crc_tail_ignored :
  result (vfs_crc 3 no_file (repeat 0 128) (Some "A:/f"%string) 0
            (world [fat_drive] (file_at [1; 2; 3; 4; 5] 0)))
  = Some (0, 3832695602) /\
  result (vfs_crc 3 no_file (repeat 0 128) (Some "A:/f"%string) 0
            (world [fat_drive] (file_at [1; 2; 3; 4; 6] 0)))
  = Some (0, 3832695602) /\
  Crc.crc_words 0xFFFFFFFF [5; 0; 0x04030201] = 3832695602 /\
  Crc.crc_words 0xFFFFFFFF [5; 0; 0x04030201; 0x00000005] = 3246181050.
Proof. repeat split; vm_compute; reflexivity. Qed.

Lemma vfs_crc_whole_words_witness :
  List.length (repeat 0 128) = 128%nat /\
  ((List.length [1; 2; 3; 4; 5] + 127) / 128 < 3)%nat /\
  result (vfs_crc 3 no_file (repeat 0 128) (Some "A:/f"%string) 0
            (world [fat_drive] (file_at [1; 2; 3; 4; 5] 0)))
  = Some (0, Crc.crc_words 0xFFFFFFFF [5; 0; 0x04030201]).
Proof.
  assert (Hbuf : List.length (repeat 0 128) = 128%nat) by reflexivity.
  assert (Hfuel : ((List.length [1; 2; 3; 4; 5] + 127) / 128 < 3)%nat)
    by (vm_compute; lia).
  split; [exact Hbuf|]. split; [exact Hfuel|].
  exact (vfs_crc_whole_words [1; 2; 3; 4; 5] (repeat 0 128) 0 3 Hbuf Hfuel).
Defined.

End Checksum.

Section Runs.

Import Sim.
Local Open Scope string_scope.

(** With "A:" the only drive, the empty path is the drive's and not the
    root listing's. *)
Lemma dir_open_empty_single_drive :
  vfs_dir_open no_dir (Some "") (world [fat_drive] ten)
  = Ok (0, mkVfsDir (RefEntry 0) 0 0 "" 0 None)
       (mkWorld [fat_drive] ten [logged (f_opendir 0 "") 0%Z]) /\
  RefEntry 0 <> RefRoot.
Proof. split; [reflexivity | discriminate]. Qed.

(** With two drives the empty path is the root listing's; with "A:" the
    only drive it is that drive's. *)
Lemma null_path_behaviour_witness :
  vfs_dir_open no_dir (Some EmptyString) (world [fat_drive; lfs_drive] ten)
  = Ok (0%Z, mkVfsDir RefRoot 0 0 EmptyString 0 None)
       (world [fat_drive; lfs_drive] ten) /\
  _vfs_find_entry [fat_drive] (Some EmptyString) false = 0%Z.
Proof.
  split.
  - destruct (null_path_behaviour (world [fat_drive; lfs_drive] ten) no_file
                0%Z None EmptyString false zero_info no_dir)
      as (_ & _ & _ & _ & _ & _ & _ & _ & _ & _ & _ & _ & _ & _ & Hroot & _).
    apply (Hroot EmptyString); [reflexivity | simpl; lia].
  - destruct (null_path_behaviour (world [fat_drive] ten) no_file
                0%Z None EmptyString false zero_info no_dir)
      as (_ & _ & _ & _ & _ & _ & _ & _ & _ & _ & _ & _ & _ & _ & _ & _ &
          Hsole).
    apply (Hsole fat_drive EmptyString); reflexivity.
Defined.

(** The position check is not made on LittleFS, where the library reports
    position 10 for the target 100 and that is the result; and the end of
    ten bytes is sought at 11 on FatFs. *)
Lemma seek_not_checked_everywhere :
  (result (vfs_file_seek open_file 100 SEEK_SET (world [lfs_drive] ten))
   = Some (10, open_file) /\ 10 <> u32 (- ENOSPC))%Z /\
  (vfs_file_seek open_file 0 SEEK_END (world [fat_drive] ten)
   = Ok (u32 (- ENOSPC), open_file)
        (mkWorld [fat_drive] (seek_to ten 10)
           [logged (f_size 0) 10; logged (f_lseek 0 11) 0;
            logged (f_tell 0) 10]))%Z.
Proof. split; [split; [reflexivity | discriminate] | reflexivity]. Qed.

(** A seek to 4 from the start on FatFs. *)
Lemma file_seek_semantics_witness :
  deref (filesys open_file) (world [fat_drive] ten)
  = Ok fat_drive (world [fat_drive] ten) /\
  fs_kind fat_drive = FS_FATFS /\ valid_whence SEEK_SET /\
  exists start b,
    (start = 0%Z /\ b = ten) /\
    seek_checked b 0 (u32 (start + 4)) 0.
Proof.
  assert (He : deref (filesys open_file) (world [fat_drive] ten)
               = Ok fat_drive (world [fat_drive] ten)) by reflexivity.
  assert (Hk : fs_kind fat_drive = FS_FATFS) by reflexivity.
  assert (Hw : valid_whence SEEK_SET) by (left; reflexivity).
  split; [exact He|]. split; [exact Hk|]. split; [exact Hw|].
  destruct (file_seek_semantics open_file 4 SEEK_SET _ _ He)
    as (_ & _ & Hfat & _).
  destruct (Hfat Hk Hw 0%Z open_file
              (@mkWorld backend [fat_drive] (seek_to ten 4)
                 [logged (f_lseek 0 4) 0%Z; logged (f_tell 0) 4%Z])
              eq_refl) as (_ & start & b & Hset & _ & Hchk).
  exists start, b. split; [exact (Hset eq_refl) | exact Hchk].
Defined.

(** The table of vfs_conf_template.c and [vfs_mount("SPI:", false)], the call
    [vfs_deinit] makes: the filesystem is started, the entry is bound to
    index 1 and the callback hears [EVT_MOUNT]. *)
Lemma unmount_jesfs_raises_mount :
  vfs_mount (Some "SPI:") false (world [jes_drive] ten) = Ok 0%Z jes_started.
Proof. reflexivity. Qed.

(** A FatFs drive on a medium without a filesystem, mounted twice. *)
Lemma mount_fails_then_succeeds :
  vfs_mount (Some "A:") true (world [fresh_fat_drive] unformatted)
  = Ok (- ENXIO)%Z failed_once /\
  vfs_mount (Some "A:") true failed_once = Ok 0%Z mounted.
Proof. split; reflexivity. Qed.

(** The three runs above: the failed attempt raises [EVT_MOUNT_FAIL] and
    leaves index 0, the second attempt raises [EVT_MOUNT] and sets index 1,
    and the unmount request on JesFs raises [EVT_MOUNT] and sets index 1. *)
Lemma mount_lifecycle_witness :
  (exists l e',
     calls failed_once = ([] ++ l)%list /\
     nth_error (vFileSystem failed_once) 0 = Some e' /\
     events l = [(0%nat, EVT_MOUNT_FAIL)] /\ index e' = 0%Z) /\
  (exists l e',
     calls mounted = (calls failed_once ++ l)%list /\
     nth_error (vFileSystem mounted) 0 = Some e' /\
     events l = [(0%nat, EVT_MOUNT)] /\ index e' = 1%Z) /\
  (exists l e',
     calls jes_started = ([] ++ l)%list /\
     nth_error (vFileSystem jes_started) 0 = Some e' /\
     (List.length (events l) <= 1)%nat /\
     events l = [(0%nat, EVT_MOUNT)] /\ index e' = 1%Z).
Proof.
  assert (Hk : (Z.of_nat 0 + 1 < 128)%Z) by (simpl; lia).
  assert (Hno : (- ENXIO <> 0)%Z) by discriminate.
  split; [|split].
  - destruct (mount_lifecycle (Some "A:") true
                (world [fresh_fat_drive] unformatted))
      as (r & w' & l & Hrun & Hl & _ & Hall).
    rewrite (proj1 mount_fails_then_succeeds) in Hrun.
    injection Hrun as <- <-.
    destruct (Hall 0%nat fresh_fat_drive eq_refl eq_refl eq_refl Hk)
      as (e' & He' & Hfail & _).
    destruct (Hfail eq_refl Hno) as [Hev Hidx].
    exists l, e'. repeat split; auto.
  - destruct (mount_lifecycle (Some "A:") true failed_once)
      as (r & w' & l & Hrun & Hl & _ & Hall).
    rewrite (proj2 mount_fails_then_succeeds) in Hrun.
    injection Hrun as <- <-.
    destruct (Hall 0%nat fresh_fat_drive eq_refl eq_refl eq_refl Hk)
      as (e' & He' & _ & Hok & _).
    destruct (Hok eq_refl eq_refl) as [Hev Hidx].
    exists l, e'. repeat split; auto.
  - destruct (mount_lifecycle (Some "SPI:") false (world [jes_drive] ten))
      as (r & w' & l & Hrun & Hl & Hone & Hall).
    rewrite unmount_jesfs_raises_mount in Hrun.
    injection Hrun as <- <-.
    destruct (Hall 0%nat jes_drive eq_refl eq_refl eq_refl Hk)
      as (e' & He' & _ & _ & _ & Hjes).
    destruct (Hjes eq_refl eq_refl eq_refl) as [Hev Hidx].
    exists l, e'. repeat split; auto.
Defined.

End Runs.

End VfsFacts.

(** ** The translation of error codes *)

Module ErrnoFacts.
Import Vfs ResolveFacts VfsFacts.

(** X1.  [_ff_errno]: never positive, and 0 for FR_OK and for every code that is
    not one of the 19 failures of FatFs. *)
Theorem ff_errno_zero err :
  _ff_errno err <= 0 /\ (_ff_errno err = 0 <-> ~ (1 <= err <= 19)).
Proof.
  destruct (Z_lt_le_dec err 1) as [Hlo | Hlo];
    [|destruct (Z_lt_le_dec 19 err) as [Hhi | Hhi]].
  - assert (Hz : _ff_errno err = 0).
    { unfold _ff_errno, FR_DISK_ERR, FR_INT_ERR, FR_NOT_READY, FR_NO_FILE,
        FR_NO_PATH, FR_INVALID_NAME, FR_DENIED, FR_EXIST, FR_INVALID_OBJECT,
        FR_WRITE_PROTECTED, FR_INVALID_DRIVE, FR_NOT_ENABLED, FR_NO_FILESYSTEM,
        FR_MKFS_ABORTED, FR_TIMEOUT, FR_LOCKED, FR_NOT_ENOUGH_CORE,
        FR_TOO_MANY_OPEN_FILES, FR_INVALID_PARAMETER.
      repeat match goal with
             | |- context [err =? ?b] =>
                 replace (err =? b) with false
                   by (symmetry; apply Z.eqb_neq; lia)
             end.
      reflexivity. }
    rewrite Hz. split; [lia|]. split; [lia | reflexivity].
  - assert (Hz : _ff_errno err = 0).
    { unfold _ff_errno, FR_DISK_ERR, FR_INT_ERR, FR_NOT_READY, FR_NO_FILE,
        FR_NO_PATH, FR_INVALID_NAME, FR_DENIED, FR_EXIST, FR_INVALID_OBJECT,
        FR_WRITE_PROTECTED, FR_INVALID_DRIVE, FR_NOT_ENABLED, FR_NO_FILESYSTEM,
        FR_MKFS_ABORTED, FR_TIMEOUT, FR_LOCKED, FR_NOT_ENOUGH_CORE,
        FR_TOO_MANY_OPEN_FILES, FR_INVALID_PARAMETER.
      repeat match goal with
             | |- context [err =? ?b] =>
                 replace (err =? b) with false
                   by (symmetry; apply Z.eqb_neq; lia)
             end.
      reflexivity. }
    rewrite Hz. split; [lia|]. split; [lia | reflexivity].
  - assert (Hcase : err = 1 \/ err = 2 \/ err = 3 \/ err = 4 \/ err = 5 \/
                    err = 6 \/ err = 7 \/ err = 8 \/ err = 9 \/ err = 10 \/
                    err = 11 \/ err = 12 \/ err = 13 \/ err = 14 \/ err = 15 \/
                    err = 16 \/ err = 17 \/ err = 18 \/ err = 19) by lia.
    assert (Hneg : _ff_errno err < 0).
    { repeat (destruct Hcase as [-> | Hcase]; [reflexivity|]).
      subst err. reflexivity. }
    split; [lia|]. split; [lia | intros Hn; exfalso; apply Hn; lia].
Qed.

Lemma s16_small x : -32768 <= x < 32768 -> s16 x = x.
Proof.
  intros Hx. unfold s16, u16. change (2 ^ 16) with 65536.
  change (2 ^ 15) with 32768.
  destruct (Z.leb_spec 0 x).
  - rewrite Z.mod_small by lia. destruct (Z.ltb_spec x 32768); lia.
  - replace x with (x + 65536 + (-1) * 65536) by lia.
    rewrite Z.mod_add by lia. rewrite Z.mod_small by lia.
    destruct (Z.ltb_spec (x + 65536) 32768); lia.
Qed.

Lemma s16_high x : 32768 <= x < 65536 -> s16 x = x - 65536.
Proof.
  intros Hx. unfold s16, u16. change (2 ^ 16) with 65536.
  change (2 ^ 15) with 32768. rewrite Z.mod_small by lia.
  destruct (Z.ltb_spec x 32768); lia.
Qed.

(** The [switch] of [_jes_errno] gives a negative value for every negative
    [int16_t]. *)
Lemma jes_errno_of_negative v :
  v < 0 ->
   (if 0 <=? v then v
    else - (if v =? -108 then ENXIO
            else if v =? -110 then EINVAL
            else if v =? -111 then ENOSPC
            else if v =? -113 then ENOSPC
            else if v =? -124 then ENOENT
            else if v =? -129 then EBADF
            else if v =? -139 then EINVAL
            else if v =? -142 then EBADF
            else if v =? -143 then EBADF
            else if v =? -147 then EBUSY
            else if v =? -148 then EBUSY
            else EIO)) < 0.
Proof.
  intros Hlt. destruct (Z.leb_spec 0 v) as [Hge | _]; [lia|].
  repeat match goal with
         | |- - (if ?c then _ else _) < 0 => destruct c
         end.
  all: reflexivity.
Qed.

(** X2.  [_jes_errno] sees its argument as an [int16_t].  What is not
    negative as such passes through, and what is negative stays negative: a
    count from 0 to 32767 survives, a negative code of JesFs comes back as a
    negative error, and so does a count from 32768 to 65535, which the
    conversion turns negative. *)
Theorem jes_errno_sign err :
  (0 <= s16 err -> _jes_errno err = s16 err) /\
  (s16 err < 0 -> _jes_errno err < 0) /\
  (0 <= err < 32768 -> _jes_errno err = err) /\
  (-32768 <= err < 0 -> _jes_errno err < 0) /\
  (32768 <= err < 65536 -> _jes_errno err < 0).
Proof.
  assert (Hpos : 0 <= s16 err -> _jes_errno err = s16 err).
  { intros Hge. unfold _jes_errno. cbv zeta.
    destruct (Z.leb_spec 0 (s16 err)); [reflexivity | lia]. }
  assert (Hneg : s16 err < 0 -> _jes_errno err < 0).
  { intros Hlt. unfold _jes_errno. cbv zeta.
    exact (jes_errno_of_negative (s16 err) Hlt). }
  split; [exact Hpos|]. split; [exact Hneg|]. split; [|split].
  - intros Hr. rewrite Hpos; rewrite s16_small by lia; [reflexivity | lia].
  - intros Hr. apply Hneg. rewrite s16_small by lia. lia.
  - intros Hr. apply Hneg. rewrite s16_high by lia. lia.
Qed.

Lemma ff_errno_zero_witness :
  _ff_errno FR_NO_FILESYSTEM <= 0 /\
  (_ff_errno FR_NO_FILESYSTEM = 0 <-> ~ (1 <= FR_NO_FILESYSTEM <= 19)).
Proof. exact (ff_errno_zero FR_NO_FILESYSTEM). Defined.

(** A count of 100 bytes, the code for a file that is not there, and a count
    of 32768 bytes. *)
Lemma jes_errno_sign_witness :
  _jes_errno 100 = 100 /\ _jes_errno (-124) < 0 /\ _jes_errno 32768 < 0.
Proof.
  split; [|split].
  - apply (proj1 (proj2 (proj2 (jes_errno_sign 100)))). lia.
  - apply (proj1 (proj2 (proj2 (proj2 (jes_errno_sign (-124)))))). lia.
  - apply (proj2 (proj2 (proj2 (proj2 (jes_errno_sign 32768))))). lia.
Defined.

End ErrnoFacts.

(** ** Names and paths *)

Module PathFacts.
Import Vfs ResolveFacts VfsFacts.

#[local] Arguments Ascii.eqb : simpl never.
#[local] Arguments is_nul : simpl never.

Lemma take_length : forall k s,
  String.length (take k s) = Nat.min k (strlen s).
Proof.
  induction k as [|k IH]; intros [|c s]; simpl; auto.
  destruct (is_nul c); simpl; auto.
Qed.

Lemma take_nonul : forall k s, nonul (take k s).
Proof.
  induction k as [|k IH]; intros [|c s]; simpl; auto.
  destruct (is_nul c) eqn:Hc; simpl; auto.
  split; [now apply is_nul_false | apply IH].
Qed.

Lemma strlen_nonul s : nonul s -> strlen s = String.length s.
Proof.
  induction s as [|c s IH]; simpl; [reflexivity|]. intros [Hc Hs].
  apply is_nul_false in Hc. rewrite Hc. now rewrite IH.
Qed.

Lemma strlen_app a b : nonul a -> strlen (a ++ b) = (String.length a + strlen b)%nat.
Proof.
  induction a as [|c a IH]; simpl; [reflexivity|]. intros [Hc Ha].
  apply is_nul_false in Hc. rewrite Hc, IH by assumption. reflexivity.
Qed.

Lemma take_app a b : nonul a -> take (String.length a) (a ++ b) = a.
Proof.
  induction a as [|c a IH]; simpl.
  - destruct b; reflexivity.
  - intros [Hc Ha]. apply is_nul_false in Hc. rewrite Hc, IH by assumption.
    reflexivity.
Qed.

Lemma take_all a : nonul a -> take (String.length a) a = a.
Proof.
  induction a as [|c a IH]; simpl; [reflexivity|]. intros [Hc Ha].
  apply is_nul_false in Hc. rewrite Hc, IH by assumption. reflexivity.
Qed.

Lemma length_app_str a b :
  String.length (a ++ b) = (String.length a + String.length b)%nat.
Proof. induction a as [|c a IH]; simpl; auto. Qed.

Lemma nonul_app a b : nonul a -> nonul b -> nonul (a ++ b).
Proof.
  induction a as [|c a IH]; simpl; auto. intros [Hc Ha] Hb. split; auto.
Qed.

Lemma app_assoc_str a b c : ((a ++ b) ++ c = a ++ b ++ c)%string.
Proof. induction a as [|x a IH]; simpl; [reflexivity|]. now rewrite IH. Qed.

Lemma app_nil_r_str a : (a ++ EmptyString)%string = a.
Proof. induction a as [|x a IH]; simpl; [reflexivity|]. now rewrite IH. Qed.

Lemma drop_app a b : drop (String.length a) (a ++ b) = b.
Proof. induction a as [|c a IH]; simpl; auto. Qed.

Lemma strncmp_own_prefix : forall d rest,
  nonul d -> strncmp (d ++ rest) d (strlen d) = 0.
Proof.
  induction d as [|c d IH]; intros rest Hd; simpl; [reflexivity|].
  destruct Hd as [Hc Hd]. apply is_nul_false in Hc. rewrite Hc. simpl.
  rewrite Ascii.eqb_refl, Hc. simpl. apply IH, Hd.
Qed.

Lemma strrchr_strlen : forall s c e,
  strrchr s c = Some e -> is_nul c = false -> (0 < strlen e)%nat.
Proof.
  induction s as [|d r IH]; intros c e Hfind Hc; simpl in Hfind;
    [discriminate Hfind|].
  destruct (is_nul d) eqn:Hd; [discriminate Hfind|].
  destruct (strrchr r c) as [x|] eqn:Hr.
  - injection Hfind as <-. eapply IH; eassumption.
  - destruct (Ascii.eqb d c); [|discriminate Hfind].
    injection Hfind as <-. simpl. rewrite Hd. lia.
Qed.

Section Names.

Context {hdr : Headers}.

(** X3.  [_jes_truncate_path]: a name of at most [FNAMELEN] characters is left
    as it is; a longer one becomes exactly [FNAMELEN] characters long: its
    start, then "~1", then its extension; and when the extension leaves no room
    for that, the write lands in front of the buffer. *)
Theorem jes_truncate_fits path :
  match _jes_truncate_path path with
  | Some (false, q) => q = path /\ (strlen path <= FNAMELEN)%nat
  | Some (true, q) =>
      (FNAMELEN < strlen path)%nat /\
      q = (take (FNAMELEN - 2 - String.length (extension path)) path
           ++ "~1" ++ extension path)%string /\
      strlen q = FNAMELEN
  | None =>
      (FNAMELEN < strlen path)%nat /\
      (FNAMELEN < 2 + String.length (extension path))%nat
  end.
Proof.
  unfold _jes_truncate_path, extension.
  destruct (Nat.ltb_spec FNAMELEN (strlen path)) as [Hlong | Hshort];
    [|split; [reflexivity | exact Hshort]].
  destruct (strrchr path "."%char) as [e|] eqn:Hext.
  - rewrite take_length, Nat.min_id.
    destruct (Nat.ltb_spec FNAMELEN (2 + strlen e)) as [Hbig | Hfit];
      [split; assumption|].
    assert (Hstem : String.length (take (FNAMELEN - 2 - strlen e) path)
                    = (FNAMELEN - 2 - strlen e)%nat)
      by (rewrite take_length; lia).
    assert (Htwo : nonul (take (FNAMELEN - 2 - strlen e) path ++ "~1")).
    { apply nonul_app; [apply take_nonul|]. simpl. repeat split; discriminate. }
    assert (Hcut : take (FNAMELEN - strlen e)
                     (take (FNAMELEN - 2 - strlen e) path ++ "~1")
                   = (take (FNAMELEN - 2 - strlen e) path ++ "~1")%string).
    { replace (FNAMELEN - strlen e)%nat
        with (String.length (take (FNAMELEN - 2 - strlen e) path ++ "~1")).
      - apply take_all, Htwo.
      - rewrite length_app_str, Hstem. simpl. lia. }
    assert (Hq : ((take (FNAMELEN - 2 - strlen e) path ++ "~1")
                  ++ take (strlen e) e
                  = take (FNAMELEN - 2 - strlen e) path ++ "~1"
                    ++ take (strlen e) e)%string) by apply app_assoc_str.
    assert (Hlen : strlen ((take (FNAMELEN - 2 - strlen e) path ++ "~1")
                           ++ take (strlen e) e) = FNAMELEN).
    { rewrite strlen_app by exact Htwo.
      rewrite (strlen_nonul (take _ e)) by apply take_nonul.
      rewrite length_app_str, Hstem, take_length. simpl. lia. }
    destruct (Nat.ltb_spec 0 (strlen e)) as [Hpos | Hzero].
    + rewrite Hcut. split; [exact Hlong|]. split; [exact Hq | exact Hlen].
    + pose proof (strrchr_strlen _ _ _ Hext eq_refl). lia.
  - simpl String.length. rewrite Nat.sub_0_r.
    destruct (Nat.ltb_spec FNAMELEN (2 + 0)) as [Hbig | Hfit];
      [split; assumption|].
    split; [exact Hlong|]. split; [reflexivity|].
    rewrite strlen_app by apply take_nonul.
    rewrite take_length. simpl. lia.
Qed.

End Names.

Lemma slashes_app a b :
  nonul a -> slashes (a ++ b) = (slashes a ++ slashes b)%string.
Proof.
  induction a as [|c a IH]; simpl; [reflexivity|]. intros [Hc Ha].
  apply is_nul_false in Hc. rewrite Hc, IH by assumption. reflexivity.
Qed.

Lemma drop_past_prefix prefix c rest :
  nonul prefix ->
  drop (strlen prefix + 1) (prefix ++ String c rest) = rest.
Proof.
  intros Hp. rewrite strlen_nonul by exact Hp.
  rewrite <- drop_drop, drop_app. reflexivity.
Qed.

(** X4.  The path fixers of JesFs and LittleFS on a path that starts with the
    prefix of the drive: what follows the prefix and one more character,
    whichever character that is; LittleFS with its backslashes turned. *)
Theorem fix_path_strips e prefix c rest :
  registered prefix e -> nonul prefix -> is_nul c = false ->
  _jes_fix_path e (prefix ++ String c rest) = Some rest /\
  (slashes prefix = prefix ->
   _lfs_fix_path e (prefix ++ String c rest) = Some (slashes rest)).
Proof.
  intros [Hdrive Hlen] Hp Hc.
  assert (Hn : Z.to_nat (namelen e) = strlen prefix)
    by (rewrite Hlen; apply Nat2Z.id).
  assert (Hin : forall c' r, is_nul c' = false ->
            from_index (strlen prefix + 1) (prefix ++ String c' r) = Some r).
  { intros c' r Hc'. unfold from_index.
    rewrite strlen_app by exact Hp. cbn [strlen]. rewrite Hc'.
    rewrite strlen_nonul by exact Hp.
    destruct (Nat.leb_spec (String.length prefix + 1)
                (String.length prefix + S (strlen r))); [|lia].
    rewrite <- (strlen_nonul prefix Hp). f_equal.
    apply drop_past_prefix, Hp. }
  split.
  - unfold _jes_fix_path. rewrite Hn, Hdrive.
    rewrite strncmp_own_prefix by exact Hp. cbn [Z.eqb].
    apply Hin, Hc.
  - intros Hs. unfold _lfs_fix_path. rewrite Hn, Hdrive.
    rewrite slashes_app by exact Hp. rewrite Hs.
    rewrite strncmp_own_prefix by exact Hp. cbn [Z.eqb].
    simpl slashes. rewrite Hc. apply Hin.
    destruct (Ascii.eqb c "\"%char); [reflexivity | exact Hc].
Qed.

(** On the bare prefix the pointer [_jes_fix_path] returns lies behind the
    terminator. *)
Lemma jes_fix_path_bare e prefix :
  registered prefix e -> nonul prefix -> _jes_fix_path e prefix = None.
Proof.
  intros [Hdrive Hlen] Hp.
  assert (Hn : Z.to_nat (namelen e) = strlen prefix)
    by (rewrite Hlen; apply Nat2Z.id).
  unfold _jes_fix_path. rewrite Hn, Hdrive.
  rewrite <- (app_nil_r_str prefix) at 1.
  rewrite strncmp_own_prefix by exact Hp. cbn [Z.eqb].
  unfold from_index.
  destruct (Nat.leb_spec (strlen prefix + 1) (strlen prefix));
    [lia | reflexivity].
Qed.

(** The path of a log on the JesFs drive of vfs_conf_template.c. *)
Lemma fix_path_strips_witness :
  _jes_fix_path Sim.jes_drive "SPI:/log.txt" = Some "log.txt"%string /\
  (slashes "SPI:" = "SPI:"%string ->
   _lfs_fix_path Sim.jes_drive "SPI:/log.txt" = Some (slashes "log.txt")).
Proof.
  apply (fix_path_strips Sim.jes_drive "SPI:" "/"%char "log.txt").
  - split; reflexivity.
  - simpl. repeat split; discriminate.
  - reflexivity.
Defined.

End PathFacts.

(** ** FAT timestamps over the calendar *)

Module CalendarFacts.
Import Vfs ResolveFacts VfsFacts.
Import Timestamp TimestampFacts.

Lemma fat_date_fields_31 yo mo d :
  81 <= yo <= 207 -> 0 <= mo <= 11 -> 1 <= d <= 31 ->
  let n := fat_date (mktm 0 0 0 d mo yo) in
  Z.land (Z.shiftr n 9) 127 = yo - 80 /\
  Z.land (Z.shiftr n 5) 15 = mo + 1 /\
  Z.land n 31 = d.
Proof.
  intros Hy Hm Hd.
  assert (Hall : all_from 127 81 (fun yo =>
                   all_from 12 0 (fun mo =>
                     all_from 31 1 (fun d => fields_ok yo mo d))) = true)
    by (vm_compute; reflexivity).
  pose proof (all_from_spec _ _ _ Hall yo ltac:(lia)) as H1. cbv beta in H1.
  pose proof (all_from_spec _ _ _ H1 mo ltac:(lia)) as H2. cbv beta in H2.
  pose proof (all_from_spec _ _ _ H2 d ltac:(lia)) as H3. cbv beta in H3.
  unfold fields_ok in H3. cbv zeta in *.
  apply andb_true_iff in H3 as [H3 Hc]. apply andb_true_iff in H3 as [Ha Hb].
  apply Z.eqb_eq in Ha, Hb, Hc. auto.
Qed.

Lemma date_roundtrip_31 yo mo d :
  81 <= yo <= 207 -> 0 <= mo <= 11 -> 1 <= d <= 31 ->
  date_days (fat_date (mktm 0 0 0 d mo yo))
  = Some (days_from_civil (yo + 1900) (mo + 1) d).
Proof.
  intros Hy Hm Hd.
  destruct (fat_date_fields_31 yo mo d Hy Hm Hd) as (Ha & Hb & Hc).
  unfold date_days. cbv zeta. rewrite Ha, Hb, Hc.
  replace (yo - 80 + 1980) with (yo + 1900) by lia.
  rewrite days_to_month_civil by lia.
  f_equal. symmetry. apply days_from_civil_day.
Qed.

(** X5.  From 1981 to 2107 the two functions are inverse on every day of the
    calendar, the 29th to the 31st included, to the 2-second resolution of
    the format; the pair of fields is the one [modified] selects. *)
Theorem fat_roundtrip_calendar info p modified :
  on_calendar p ->
  _ff_timestamp (_ff_fat_timedate info p modified) modified
  = Some (timegm (even_secs p)).
Proof.
  intros (Hy & Hm & Hd & Hh & Hmi & Hs).
  rewrite timestamp_of_timedate.
  destruct p as [sec mi h d mo yo]; simpl in *.
  change (fat_date (mktm sec mi h d mo yo))
    with (fat_date (mktm 0 0 0 d mo yo)).
  change (fat_time (mktm sec mi h d mo yo))
    with (fat_time (mktm sec mi h 0 0 0)).
  rewrite date_roundtrip_31, time_roundtrip by lia.
  f_equal. unfold timegm, even_secs; simpl. lia.
Qed.

(** X6.  A time of 1980 or before is stored with the zero date and its time of
    day, and read back as that time of day on 1979-12-31. *)
Theorem fat_before_1981 info p modified :
  tm_year p <= 80 ->
  0 <= tm_hour p <= 23 -> 0 <= tm_min p <= 59 -> 0 <= tm_sec p <= 59 ->
  _ff_timestamp (_ff_fat_timedate info p modified) modified
  = Some (315446400 + tm_hour p * 3600 + tm_min p * 60
          + 2 * (tm_sec p / 2)).
Proof.
  intros Hy Hh Hmi Hs.
  rewrite timestamp_of_timedate.
  assert (Hdate : fat_date p = 0).
  { unfold fat_date. destruct (Z.ltb_spec 80 (tm_year p)); [lia | reflexivity]. }
  rewrite Hdate.
  replace (date_days 0) with (Some 3651) by (vm_compute; reflexivity).
  destruct p as [sec mi h d mo yo].
  cbn [tm_year tm_mon tm_mday tm_hour tm_min tm_sec] in *.
  change (fat_time (mktm sec mi h d mo yo))
    with (fat_time (mktm sec mi h 0 0 0)).
  rewrite time_roundtrip by lia. f_equal. lia.
Qed.

(** 2000-02-29 12:30:11, and 1980-06-15 12:30:10. *)
Lemma fat_roundtrip_calendar_witness :
  on_calendar (mktm 11 30 12 29 1 100) /\
  _ff_timestamp (_ff_fat_timedate blank (mktm 11 30 12 29 1 100) true) true
  = Some (timegm (mktm 10 30 12 29 1 100)).
Proof.
  assert (Hp : on_calendar (mktm 11 30 12 29 1 100))
    by (unfold on_calendar; simpl; lia).
  split; [exact Hp|].
  exact (fat_roundtrip_calendar blank (mktm 11 30 12 29 1 100) true Hp).
Defined.

Lemma fat_before_1981_witness :
  _ff_timestamp (_ff_fat_timedate blank (mktm 10 30 12 15 5 80) false) false
  = Some (315446400 + 12 * 3600 + 30 * 60 + 2 * (10 / 2)).
Proof.
  apply (fat_before_1981 blank (mktm 10 30 12 15 5 80) false); simpl; lia.
Defined.

End CalendarFacts.

(** ** The drive table *)

Module DriveFacts.
Import Vfs ResolveFacts VfsFacts.
Import PathFacts.

(** What the resolver returns is -ENOENT or the position of an entry of the
    table. *)
Lemma find_entry_from_in_table name force : forall l i,
  0 <= i ->
  let r := find_entry_from i l name force in
  r = - ENOENT \/ i <= r < i + Z.of_nat (List.length l) \/
  (r = 0 /\ i + Z.of_nat (List.length l) = 1).
Proof.
  induction l as [|e l IH]; intros i Hi; simpl find_entry_from.
  - destruct ((i =? 1) && _) eqn:Hone.
    + apply andb_prop in Hone. destruct Hone as [Hone _].
      apply Z.eqb_eq in Hone. right. right. simpl. lia.
    + now left.
  - destruct (_ && _).
    + right. left. simpl List.length. lia.
    + destruct (IH (i + 1) ltac:(lia)) as [Hr | [Hr | Hr]].
      * now left.
      * right. left. simpl List.length. lia.
      * right. right. simpl List.length. lia.
Qed.

(** X7.  [_vfs_find_entry] never gives an index outside the table: its result is
    -ENOENT or the position of an entry, for every table, name and [force]. *)
Theorem find_entry_in_table tbl name force :
  _vfs_find_entry tbl name force = - ENOENT \/
  (0 <= _vfs_find_entry tbl name force /\
   exists e, nth_error tbl (Z.to_nat (_vfs_find_entry tbl name force)) = Some e).
Proof.
  destruct name as [name|]; [|now left]. unfold _vfs_find_entry.
  destruct (find_entry_from_in_table name force tbl 0 ltac:(lia))
    as [Hr | [Hr | Hr]]; cbv zeta in *.
  - now left.
  - right. split; [lia|].
    destruct (nth_error tbl (Z.to_nat (find_entry_from 0 tbl name force)))
      as [e|] eqn:Hn; [now exists e|].
    apply nth_error_None in Hn. lia.
  - right. destruct Hr as [Hr Hlen]. rewrite Hr. split; [lia|].
    destruct tbl as [|e tbl]; [simpl in Hlen; lia|]. now exists e.
Qed.

Lemma strncasecmp_refl d :
  nonul d -> strncasecmp d d (strlen d) = 0.
Proof.
  intros Hd. apply strncasecmp_prefix; [exact Hd|].
  rewrite strlen_nonul by exact Hd. now rewrite take_all.
Qed.

Section Volume.
Context {hdr : Headers} {cfg : Config} {bkd : Backend}.

(** X8.  A drive name given by [vfs_volume] resolves back to its position, when
    no entry in front of it has a prefix that the name starts with. *)
Theorem volume_resolves w k e :
  nth_error (vFileSystem w) k = Some e ->
  nonul (drive e) -> namelen e = Z.of_nat (strlen (drive e)) ->
  (forall j e', (j < k)%nat -> nth_error (vFileSystem w) j = Some e' ->
     strncasecmp (drive e) (drive e') (Z.to_nat (namelen e')) <> 0) ->
  vfs_volume (Z.of_nat k) w = Ok (Some (drive e)) w /\
  _vfs_find_entry (vFileSystem w) (Some (drive e)) true = Z.of_nat k.
Proof.
  intros Hn Hd Hlen Hfirst. split.
  - unfold vfs_volume, bind, get_table, deref, ret.
    cbn [vFileSystem].
    assert (Hk : (k < List.length (vFileSystem w))%nat)
      by (apply nth_error_Some; congruence).
    destruct (Z.ltb_spec (Z.of_nat k) (Z.of_nat (List.length (vFileSystem w))));
      [|lia].
    destruct (Z.ltb_spec (Z.of_nat k) 0); [lia|].
    now rewrite Nat2Z.id, Hn.
  - unfold _vfs_find_entry.
    rewrite (find_entry_from_found (drive e) true (vFileSystem w) 0 k e Hn).
    + lia.
    + rewrite Hlen, Nat2Z.id. apply strncasecmp_refl, Hd.
    + now left.
    + intros j e' Hj Hn' [Hc _]. exact (Hfirst j e' Hj Hn' Hc).
Qed.

End Volume.
(** The second of two drives. *)
Lemma volume_resolves_witness :
  vfs_volume 1 (Sim.world [Sim.fat_drive; Sim.lfs_drive] Sim.ten)
  = Ok (Some "L:"%string) (Sim.world [Sim.fat_drive; Sim.lfs_drive] Sim.ten) /\
  _vfs_find_entry [Sim.fat_drive; Sim.lfs_drive] (Some "L:"%string) true = 1.
Proof.
  apply (volume_resolves (Sim.world [Sim.fat_drive; Sim.lfs_drive] Sim.ten)
           1 Sim.lfs_drive).
  - reflexivity.
  - simpl. repeat split; discriminate.
  - reflexivity.
  - intros j e' Hj Hn. destruct j as [|j]; [|lia].
    injection Hn as <-. discriminate.
Defined.

End DriveFacts.

(** ** CRC_FUNC as a stream *)

Module CrcStreamFacts.
Import Vfs ResolveFacts VfsFacts.
Import Crc CrcFacts.

(** X9.  The checksum of a buffer handed over in two calls is the checksum of
    the whole in one. *)
Theorem CRC_FUNC_streams crc ws1 ws2 init :
  CRC_FUNC (CRC_FUNC crc ws1 (Z.of_nat (List.length ws1)) init) ws2
    (Z.of_nat (List.length ws2)) false
  = CRC_FUNC crc (ws1 ++ ws2) (Z.of_nat (List.length (ws1 ++ ws2))) init.
Proof.
  unfold CRC_FUNC. rewrite !Nat2Z.id, !firstn_all.
  now rewrite crc_words_app.
Qed.

(** The register between words stays a 32-bit value. *)
Lemma crc_word_range crc w : 0 <= crc_word crc w < 2 ^ 32.
Proof.
  unfold crc_word. cbv zeta. unfold crc_round at 1.
  apply lxor_u32; [unfold shl32; apply u32_range|].
  set (i := Z.to_nat _). clearbody i.
  do 16 (destruct i as [|i]; [vm_compute; split; [discriminate | reflexivity]|]).
  destruct i; vm_compute; split; (discriminate || reflexivity).
Qed.

Lemma crc_words_bits : forall ws crc,
  0 <= crc < 2 ^ 32 -> Forall (fun w => 0 <= w < 2 ^ 32) ws ->
  crc_words crc ws = crc_bits crc ws.
Proof.
  induction ws as [|w ws IH]; intros crc Hcrc Hws; [reflexivity|].
  inversion Hws as [|? ? Hw Hws']; subst.
  change (crc_words crc (w :: ws)) with (crc_words (crc_word crc w) ws).
  change (crc_bits crc (w :: ws))
    with (crc_bits (Nat.iter 8 poly_nibble (Z.lxor crc w)) ws).
  rewrite <- (crc_word_poly crc w Hcrc Hw).
  apply IH; [apply crc_word_range | exact Hws'].
Qed.

(** X10.  [CRC_FUNC] with its table of sixteen entries is the CRC-32 of
    polynomial 0x04C11DB7 taken one bit at a time over whole 32-bit words,
    most significant bit first, with no reflection and no final
    inversion. *)
Theorem CRC_FUNC_bitwise crc ws init :
  0 <= crc < 2 ^ 32 -> Forall (fun w => 0 <= w < 2 ^ 32) ws ->
  CRC_FUNC crc ws (Z.of_nat (List.length ws)) init
  = crc_bits (if init then 0xFFFFFFFF else crc) ws.
Proof.
  intros Hcrc Hws. unfold CRC_FUNC. rewrite Nat2Z.id, firstn_all.
  apply crc_words_bits; [|exact Hws].
  destruct init; [split; [discriminate | reflexivity] | exact Hcrc].
Qed.

Lemma CRC_FUNC_bitwise_witness :
  CRC_FUNC 0 [1; 2] (Z.of_nat (List.length [1; 2])) true
  = crc_bits 0xFFFFFFFF [1; 2].
Proof.
  apply (CRC_FUNC_bitwise 0 [1; 2] true).
  - split; [discriminate | reflexivity].
  - repeat constructor; discriminate.
Defined.

End CrcStreamFacts.

(** ** What writes the drive table *)

Module FrameFacts.
Import Vfs ResolveFacts VfsFacts.

Section Frame.
Context {hdr : Headers} {cfg : Config} {bkd : Backend}.

Ltac kept :=
  split;
  [ reflexivity
  | eexists; split;
    [ cbn [calls]; rewrite <- ?app_assoc;
      first [ reflexivity | symmetry; apply app_nil_r ]
    | reflexivity ] ].

Ltac frame Hrun :=
  cbn [vFileSystem bk calls] in Hrun; run Hrun;
  inversion Hrun; subst; kept.

Lemma format_keeps path w r w' :
  vfs_format path w = Ok r w' -> keeps_table w w'.
Proof.
  intros Hrun.
  unfold vfs_format, deref_str, defined, when, bind, call, ret, undefined, get_table,
    deref in Hrun.
  frame Hrun.
Qed.

Lemma mkdir_keeps path w r w' :
  vfs_mkdir path w = Ok r w' -> keeps_table w w'.
Proof.
  intros Hrun.
  unfold vfs_mkdir, deref_str, defined, when, bind, call, ret, undefined, get_table,
    deref in Hrun.
  frame Hrun.
Qed.

Lemma remove_keeps path w r w' :
  vfs_remove path w = Ok r w' -> keeps_table w w'.
Proof.
  intros Hrun.
  unfold vfs_remove, deref_str, defined, when, bind, call, ret, undefined, get_table,
    deref in Hrun.
  frame Hrun.
Qed.

Lemma rename_keeps oldpath newpath w r w' :
  vfs_rename oldpath newpath w = Ok r w' -> keeps_table w w'.
Proof.
  intros Hrun.
  unfold vfs_rename, deref_str, defined, when, bind, call, ret, undefined, get_table,
    deref in Hrun.
  frame Hrun.
Qed.

Lemma getlabel_keeps path label w r w' :
  vfs_getlabel path label w = Ok r w' -> keeps_table w w'.
Proof.
  intros Hrun.
  unfold vfs_getlabel, deref_str, defined, when, bind, call, ret, undefined, get_table,
    deref in Hrun.
  frame Hrun.
Qed.

Lemma setlabel_keeps label w r w' :
  vfs_setlabel label w = Ok r w' -> keeps_table w w'.
Proof.
  intros Hrun.
  unfold vfs_setlabel, deref_str, defined, when, bind, call, ret, undefined, get_table,
    deref in Hrun.
  frame Hrun.
Qed.

Lemma fs_size_keeps path w r w' :
  vfs_fs_size path w = Ok r w' -> keeps_table w w'.
Proof.
  intros Hrun.
  unfold vfs_fs_size, deref_str, defined, when, bind, call, ret, undefined, get_table,
    deref in Hrun.
  frame Hrun.
Qed.

Lemma fs_free_keeps path w r w' :
  vfs_fs_free path w = Ok r w' -> keeps_table w w'.
Proof.
  intros Hrun.
  unfold vfs_fs_free, deref_str, defined, when, bind, call, ret, undefined, get_table,
    deref in Hrun.
  frame Hrun.
Qed.

Lemma touch_keeps path info w r w' :
  vfs_touch path info w = Ok r w' -> keeps_table w w'.
Proof.
  intros Hrun.
  unfold vfs_touch, fat_timedate, after_last_slash, deref_str, defined, when, bind,
    call, ret, undefined, get_table, deref in Hrun.
  frame Hrun.
Qed.

Lemma file_open_keeps file path flags w r w' :
  vfs_file_open file path flags w = Ok r w' -> keeps_table w w'.
Proof.
  intros Hrun.
  unfold vfs_file_open, deref_str, defined, when, bind, call, ret, undefined, get_table,
    deref in Hrun.
  frame Hrun.
Qed.

Lemma file_close_keeps file w r w' :
  vfs_file_close file w = Ok r w' -> keeps_table w w'.
Proof.
  intros Hrun.
  unfold vfs_file_close, deref_str, defined, when, bind, call, ret, undefined,
    get_table, deref in Hrun.
  frame Hrun.
Qed.

Lemma file_rewind_keeps file w r w' :
  vfs_file_rewind file w = Ok r w' -> keeps_table w w'.
Proof.
  intros Hrun.
  unfold vfs_file_rewind, deref_str, defined, when, bind, call, ret, undefined,
    get_table, deref in Hrun.
  frame Hrun.
Qed.

Lemma file_read_keeps file size w r w' :
  vfs_file_read file size w = Ok r w' -> keeps_table w w'.
Proof.
  intros Hrun.
  unfold vfs_file_read, deref_str, defined, when, bind, call, ret, undefined,
    get_table, deref in Hrun.
  frame Hrun.
Qed.

Lemma file_seek_keeps file offset whence w r w' :
  vfs_file_seek file offset whence w = Ok r w' -> keeps_table w w'.
Proof.
  intros Hrun.
  unfold vfs_file_seek, deref_str, defined, when, bind, call, ret, undefined,
    get_table, deref in Hrun.
  frame Hrun.
Qed.

Lemma dir_open_keeps dir path w r w' :
  vfs_dir_open dir path w = Ok r w' -> keeps_table w w'.
Proof.
  intros Hrun.
  unfold vfs_dir_open, deref_str, defined, when, bind, call, ret, undefined,
    get_table, deref in Hrun.
  frame Hrun.
Qed.

Lemma dir_close_keeps dir w r w' :
  vfs_dir_close dir w = Ok r w' -> keeps_table w w'.
Proof.
  intros Hrun.
  unfold vfs_dir_close, deref_str, defined, when, bind, call, ret, undefined,
    get_table, deref in Hrun.
  frame Hrun.
Qed.

Lemma keeps_refl w : keeps_table w w.
Proof.
  split; [reflexivity|]. exists []. split; [now rewrite app_nil_r | reflexivity].
Qed.

Lemma keeps_trans w1 w2 w3 :
  keeps_table w1 w2 -> keeps_table w2 w3 -> keeps_table w1 w3.
Proof.
  intros [Ht1 (l1 & Hl1 & He1)] [Ht2 (l2 & Hl2 & He2)].
  split; [congruence|]. exists (l1 ++ l2).
  rewrite Hl2, Hl1, app_assoc. split; [reflexivity|].
  now rewrite events_app, He1, He2.
Qed.

Lemma jes_read_keeps : forall fuel e dir info w r w',
  jes_read fuel e dir info w = Ok r w' -> keeps_table w w'.
Proof.
  induction fuel as [|fuel IH]; intros e dir info w r w' Hrun;
    [discriminate Hrun|].
  cbn [jes_read] in Hrun. unfold bind, call, ret in Hrun.
  destruct (respond _ (bk w) (fs_info (fno dir))) as [[res st] b] eqn:Hres.
  cbn beta iota in Hrun.
  destruct (bit_set res FS_STAT_ACTIVE).
  - inversion Hrun; subst. kept.
  - destruct (negb (res =? 0)).
    + apply IH in Hrun. eapply keeps_trans; [|exact Hrun]. kept.
    + inversion Hrun; subst. kept.
Qed.

Lemma dir_read_keeps fuel dir info w r w' :
  vfs_dir_read fuel dir info w = Ok r w' -> keeps_table w w'.
Proof.
  intros Hrun. unfold vfs_dir_read in Hrun. unfold bind at 1 in Hrun.
  destruct (deref (dir_filesys dir) w) as [e w0| |] eqn:Hderef;
    try discriminate Hrun.
  assert (w0 = w) as ->.
  { unfold deref in Hderef. destruct (dir_filesys dir); try discriminate.
    - destruct (nth_error _ _); [now injection Hderef|discriminate].
    - now injection Hderef. }
  destruct (fs_kind e =? FS_ROOT).
  { unfold root_read, bind, call, ret, get_table in Hrun. frame Hrun. }
  destruct (fs_kind e =? FS_FATFS).
  { unfold fat_read, blocks_of, defined, bind, call, ret, undefined in Hrun.
    rewrite Hderef in Hrun. frame Hrun. }
  destruct (fs_kind e =? FS_LITTLEFS).
  { unfold lfs_read, blocks_of, bind, call, ret, undefined in Hrun.
    rewrite Hderef in Hrun. frame Hrun. }
  destruct (fs_kind e =? FS_JESFS).
  { eapply jes_read_keeps. exact Hrun. }
  unfold ret in Hrun. inversion Hrun; subst. apply keeps_refl.
Qed.

Lemma findnext_keeps : forall fuel dir info w r w',
  vfs_findnext fuel dir info w = Ok r w' -> keeps_table w w'.
Proof.
  induction fuel as [|fuel IH]; intros dir info w r w' Hrun;
    [discriminate Hrun|].
  cbn [vfs_findnext] in Hrun. unfold bind at 1 in Hrun.
  destruct (vfs_dir_read (S fuel) dir info w) as [[[r1 dir1] info1] w1| |]
    eqn:Hread; try discriminate Hrun.
  apply dir_read_keeps in Hread. cbn beta iota in Hrun.
  destruct (r1 =? 0).
  - unfold bind at 1 in Hrun. unfold deref_str in Hrun.
    destruct (pattern dir1) as [pat|]; [|discriminate Hrun].
    unfold ret at 1 in Hrun. cbn beta iota in Hrun.
    destruct (Wildcard.pattern_matching pat (name info1) 0 0).
    + inversion Hrun; subst. exact Hread.
    + apply IH in Hrun. eapply keeps_trans; eassumption.
  - inversion Hrun; subst. exact Hread.
Qed.

Lemma findfirst_keeps fuel dir info path pat w r w' :
  vfs_findfirst fuel dir info path pat w = Ok r w' -> keeps_table w w'.
Proof.
  intros Hrun. unfold vfs_findfirst in Hrun. unfold bind at 1 in Hrun.
  destruct (vfs_dir_open dir path w) as [[r1 dir1] w1| |] eqn:Hopen;
    try discriminate Hrun.
  apply dir_open_keeps in Hopen. cbn beta iota in Hrun.
  destruct (r1 =? 0).
  - unfold bind at 1 in Hrun.
    destruct (vfs_findnext fuel (set_pattern dir1 pat) info w1)
      as [[[r2 dir2] info2] w2| |] eqn:Hnext; try discriminate Hrun.
    apply findnext_keeps in Hnext. cbn beta iota in Hrun.
    destruct (negb (r2 =? 0)).
    + unfold bind at 1 in Hrun.
      destruct (vfs_dir_close dir2 w2) as [[rc dir3] w3| |] eqn:Hclose;
        try discriminate Hrun.
      apply dir_close_keeps in Hclose. unfold ret in Hrun.
      cbn beta iota in Hrun. inversion Hrun; subst.
      eapply keeps_trans; [|exact Hclose]. eapply keeps_trans; eassumption.
    + unfold ret in Hrun. inversion Hrun; subst.
      eapply keeps_trans; eassumption.
  - unfold ret in Hrun. inversion Hrun; subst. exact Hopen.
Qed.

(** X11.  What leaves the drive table alone.  Formatting, the operations on
    names (mkdir, remove, rename, touch, the labels, the sizes), on file
    handles (open, close, read, seek, rewind) and on directory handles (open,
    close, read, find first and next), whatever they return, leave the
    table as they found it, the device index of every drive with it, and
    call no callback. *)
Theorem table_written_by_mount_only w :
  (forall path r w', vfs_format path w = Ok r w' -> keeps_table w w') /\
  (forall path r w', vfs_mkdir path w = Ok r w' -> keeps_table w w') /\
  (forall path r w', vfs_remove path w = Ok r w' -> keeps_table w w') /\
  (forall o n r w', vfs_rename o n w = Ok r w' -> keeps_table w w') /\
  (forall path l r w', vfs_getlabel path l w = Ok r w' -> keeps_table w w') /\
  (forall l r w', vfs_setlabel l w = Ok r w' -> keeps_table w w') /\
  (forall path r w', vfs_fs_size path w = Ok r w' -> keeps_table w w') /\
  (forall path r w', vfs_fs_free path w = Ok r w' -> keeps_table w w') /\
  (forall path i r w', vfs_touch path i w = Ok r w' -> keeps_table w w') /\
  (forall f path fl r w',
     vfs_file_open f path fl w = Ok r w' -> keeps_table w w') /\
  (forall f r w', vfs_file_close f w = Ok r w' -> keeps_table w w') /\
  (forall f n r w', vfs_file_read f n w = Ok r w' -> keeps_table w w') /\
  (forall f o wh r w', vfs_file_seek f o wh w = Ok r w' -> keeps_table w w') /\
  (forall f r w', vfs_file_rewind f w = Ok r w' -> keeps_table w w') /\
  (forall d path r w', vfs_dir_open d path w = Ok r w' -> keeps_table w w') /\
  (forall d r w', vfs_dir_close d w = Ok r w' -> keeps_table w w') /\
  (forall fuel d i r w',
     vfs_dir_read fuel d i w = Ok r w' -> keeps_table w w') /\
  (forall fuel d i r w',
     vfs_findnext fuel d i w = Ok r w' -> keeps_table w w') /\
  (forall fuel d i path pat r w',
     vfs_findfirst fuel d i path pat w = Ok r w' -> keeps_table w w').
Proof.
  repeat match goal with |- _ /\ _ => split end; intros.
  - eapply format_keeps; eassumption.
  - eapply mkdir_keeps; eassumption.
  - eapply remove_keeps; eassumption.
  - eapply rename_keeps; eassumption.
  - eapply getlabel_keeps; eassumption.
  - eapply setlabel_keeps; eassumption.
  - eapply fs_size_keeps; eassumption.
  - eapply fs_free_keeps; eassumption.
  - eapply touch_keeps; eassumption.
  - eapply file_open_keeps; eassumption.
  - eapply file_close_keeps; eassumption.
  - eapply file_read_keeps; eassumption.
  - eapply file_seek_keeps; eassumption.
  - eapply file_rewind_keeps; eassumption.
  - eapply dir_open_keeps; eassumption.
  - eapply dir_close_keeps; eassumption.
  - eapply dir_read_keeps; eassumption.
  - eapply findnext_keeps; eassumption.
  - eapply findfirst_keeps; eassumption.
Qed.

End Frame.

Section Runs.

Import Sim.

(** A format of the simulated FatFs drive. *)
Lemma table_written_by_mount_only_witness :
  keeps_table (world [fat_drive] ten)
    (mkWorld [fat_drive] ten [logged (f_mkfs "A:") 0]).
Proof.
  apply (proj1 (table_written_by_mount_only (world [fat_drive] ten))
           (Some "A:"%string) 0 _).
  reflexivity.
Defined.

End Runs.

End FrameFacts.

(** ** Operations on a drive *)

Module DriveOps.
Import Vfs ResolveFacts VfsFacts.

Section Ops.
Context {hdr : Headers} {cfg : Config} {bkd : Backend}.

(** X12.  Where no drive is a JesFs drive, [vfs_fs_size] is [vfs_fs_free]: on
    FatFs both are the free clusters [f_getfree] reports times the cluster size,
    on LittleFS both are the capacity of the medium. *)
Theorem fs_size_is_fs_free path w :
  (forall e, In e (vFileSystem w) -> fs_kind e <> FS_JESFS) ->
  vfs_fs_size path w = vfs_fs_free path w.
Proof.
  intros Hno. unfold vfs_fs_size, vfs_fs_free, bind, get_table, deref.
  cbn [vFileSystem].
  destruct (_vfs_find_entry (vFileSystem w) path false <? 0); [reflexivity|].
  destruct (nth_error (vFileSystem w)
              (Z.to_nat (_vfs_find_entry (vFileSystem w) path false)))
    as [e|] eqn:Hn; [|reflexivity].
  apply nth_error_In in Hn. apply Hno in Hn.
  destruct (deref_str path w) as [p w0| |]; try reflexivity.
  destruct (fs_kind e =? FS_FATFS); [reflexivity|].
  destruct (fs_kind e =? FS_LITTLEFS); [reflexivity|].
  destruct (Z.eqb_spec (fs_kind e) FS_JESFS); [contradiction | reflexivity].
Qed.

Lemma jesfs_tests e :
  fs_kind e = FS_JESFS ->
  (fs_kind e =? FS_FATFS) = false /\ (fs_kind e =? FS_LITTLEFS) = false /\
  (fs_kind e =? FS_JESFS) = true /\ (fs_kind e =? FS_ROOT) = false.
Proof. intros ->. repeat split. Qed.

(** X13.  What JesFs has no case for: on a path that resolves to a JesFs drive,
    [vfs_mkdir] and [vfs_setlabel] return -ENOENT and [vfs_touch] returns 0,
    each without a call to the library and without any change. *)
Theorem jesfs_has_no_case path info w k e :
  _vfs_find_entry (vFileSystem w) path false = Z.of_nat k ->
  nth_error (vFileSystem w) k = Some e -> fs_kind e = FS_JESFS ->
  vfs_mkdir path w = Ok (- ENOENT) w /\
  vfs_setlabel path w = Ok (- ENOENT) w /\
  vfs_touch path info w = Ok 0 w.
Proof.
  intros Hfind Hn Hk.
  destruct (jesfs_tests e Hk) as (Hfat & Hlfs & _ & _).
  destruct path as [p|]; [|simpl in Hfind; unfold ENOENT in Hfind; lia].
  unfold vfs_mkdir, vfs_setlabel, vfs_touch, bind, get_table, deref,
    deref_str, defined, ret.
  cbn [vFileSystem]. rewrite Hfind.
  destruct (Z.ltb_spec (Z.of_nat k) 0); [lia|].
  cbn beta iota. rewrite Nat2Z.id, Hn. cbn beta iota.
  rewrite Hfat, Hlfs. destruct w; repeat split.
Qed.

(** X14.  [vfs_remove] on a JesFs drive, for a path long enough that the
    pointer [_jes_fix_path] returns lies inside it, [q] being the string
    there: when [fs_open] refuses the name, whatever its code, the result is
    -ENOENT; when it opens the file, the result is the translated answer of
    [fs_delete]; and the descriptor is not closed. *)
Theorem remove_on_jesfs p q w k e o d b :
  _vfs_find_entry (vFileSystem w) (Some p) false = Z.of_nat k ->
  nth_error (vFileSystem w) k = Some e -> fs_kind e = FS_JESFS ->
  _jes_fix_path e p = Some q ->
  respond _ (bk w) (fs_open q SF_OPEN_RAW) = ((o, d), b) ->
  (o <> 0 ->
   vfs_remove (Some p) w
   = Ok (- ENOENT)
        (mkWorld (vFileSystem w) b
           (calls w ++ [logged (fs_open q SF_OPEN_RAW) (o, d)]))) /\
  (o = 0 ->
   forall r b', respond _ b (fs_delete d) = (r, b') ->
   vfs_remove (Some p) w
   = Ok (_jes_errno r)
        (mkWorld (vFileSystem w) b'
           (calls w ++ [logged (fs_open q SF_OPEN_RAW) (o, d);
                        logged (fs_delete d) r]))).
Proof.
  intros Hfind Hn Hk Hfix Hopen.
  destruct (jesfs_tests e Hk) as (Hfat & Hlfs & Hjes & _).
  unfold vfs_remove, bind, get_table, deref, deref_str, defined, ret, call.
  cbn [vFileSystem bk calls]. rewrite Hfind.
  destruct (Z.ltb_spec (Z.of_nat k) 0); [lia|].
  cbn beta iota. rewrite Nat2Z.id, Hn. cbn beta iota.
  rewrite Hfat, Hlfs, Hjes, Hfix. cbn beta iota.
  cbn [vFileSystem bk calls]. rewrite Hopen. cbn beta iota.
  split.
  - intros Ho. apply Z.eqb_neq in Ho. rewrite Ho. reflexivity.
  - intros -> r b' Hdel. cbn [Z.eqb]. cbn beta iota.
    cbn [vFileSystem bk calls]. rewrite Hdel. cbn beta iota.
    now rewrite <- app_assoc.
Qed.


End Ops.

Section Runs.

Import Sim.

Lemma fs_size_is_fs_free_witness :
  vfs_fs_size (Some "A:"%string) (world [fat_drive] ten)
  = vfs_fs_free (Some "A:"%string) (world [fat_drive] ten).
Proof.
  apply fs_size_is_fs_free. intros e [<- | []]. discriminate.
Defined.

Lemma jesfs_has_no_case_witness :
  vfs_mkdir (Some "SPI:/d"%string) jes_started = Ok (- ENOENT) jes_started /\
  vfs_setlabel (Some "SPI:/d"%string) jes_started
  = Ok (- ENOENT) jes_started /\
  vfs_touch (Some "SPI:/d"%string) zero_info jes_started = Ok 0 jes_started.
Proof.
  apply (jesfs_has_no_case (Some "SPI:/d"%string) zero_info jes_started 0
           (mkFileSystem "SPI:" PtrNull true (Z.lor FS_JESFS FS_FIXED) 1 4));
    reflexivity.
Defined.

Lemma remove_on_jesfs_witness :
  vfs_remove (Some "SPI:/d"%string) jes_started
  = Ok 0
       (mkWorld (vFileSystem jes_started) ten
          (calls jes_started ++
           [logged (fs_open "d" SF_OPEN_RAW) (0, mkFS_DESC 0 0 0);
            logged (fs_delete (mkFS_DESC 0 0 0)) 0])).
Proof.
  destruct (remove_on_jesfs "SPI:/d" "d" jes_started 0
              (mkFileSystem "SPI:" PtrNull true (Z.lor FS_JESFS FS_FIXED) 1 4)
              0 (mkFS_DESC 0 0 0) ten eq_refl eq_refl eq_refl eq_refl
              eq_refl)
    as [_ Hdel].
  exact (Hdel eq_refl 0 ten eq_refl).
Defined.


End Runs.

End DriveOps.

(** ** The POSIX layer *)

Module PosixFacts.
Import Vfs ResolveFacts VfsFacts.

Lemma heap_delta_app l1 l2 :
  heap_delta (l1 ++ l2) = heap_delta l1 + heap_delta l2.
Proof. induction l1 as [|x l1 IH]; simpl; [reflexivity|]. rewrite IH. lia. Qed.

(** [fopen] asks for reading with an r in the mode and for writing with a w
    or an a; no other character counts, and no mode sets VFS_CREAT or
    VFS_EXCL. *)
Lemma fopen_flags_values mode :
  let r := match strchr mode "r"%char with Some _ => VFS_RDONLY | None => 0 end in
  fopen_flags mode
  = r + match strchr mode "w"%char, strchr mode "a"%char with
        | Some _, _ => VFS_WRONLY + VFS_TRUNC
        | None, Some _ => VFS_WRONLY + VFS_APPEND
        | None, None => 0
        end /\
  bit_set (fopen_flags mode) VFS_CREAT = false /\
  bit_set (fopen_flags mode) VFS_EXCL = false.
Proof.
  unfold fopen_flags.
  destruct (strchr mode "r"%char), (strchr mode "w"%char),
    (strchr mode "a"%char); repeat split.
Qed.

Section Posix.
Context {hdr : Headers} {cfg : Config} {bkd : Backend}.

Ltac heap_done :=
  eexists; split;
  [ cbn [calls]; rewrite <- ?app_assoc;
    first [ reflexivity | symmetry; apply app_nil_r ]
  | reflexivity ].

Ltac quiet_heap Hrun :=
  cbn [vFileSystem bk calls] in Hrun; run Hrun;
  inversion Hrun; subst; heap_done.

(** X16.  What the libraries are asked for through [fopen].  A mode with a w
    reaches FatFs as FA_WRITE with FA_CREATE_ALWAYS and JesFs with
    SF_OPEN_CREATE, but LittleFS as write-only with truncation and no
    LFS_O_CREAT; a mode with an a and no w reaches all three as a plain
    open for writing, with nothing that creates the file. *)
Theorem fopen_library_modes mode :
  let has c := match strchr mode c with Some _ => true | None => false end in
  _ff_fopen_flag (fopen_flags mode)
  = u8 (Z.lor (if has "r"%char then FA_READ else 0)
          (if has "w"%char then Z.lor FA_WRITE FA_CREATE_ALWAYS
           else if has "a"%char then FA_WRITE else 0)) /\
  _lfs_fopen_flag (fopen_flags mode)
  = Z.lor (if has "r"%char then LFS_O_RDONLY else 0)
      (if has "w"%char then Z.lor LFS_O_WRONLY LFS_O_TRUNC
       else if has "a"%char then LFS_O_WRONLY else 0) /\
  _jes_open_flag (fopen_flags mode)
  = u8 (Z.lor (if has "r"%char then SF_OPEN_READ else 0)
          (if has "w"%char
           then Z.lor (Z.lor SF_OPEN_WRITE SF_OPEN_CRC) SF_OPEN_CREATE
           else if has "a"%char then Z.lor SF_OPEN_WRITE SF_OPEN_CRC else 0)).
Proof.
  unfold fopen_flags, _ff_fopen_flag, _lfs_fopen_flag, _jes_open_flag.
  destruct (strchr mode "r"%char), (strchr mode "w"%char),
    (strchr mode "a"%char); cbn -[u8 Z.lor];
    rewrite ?Z.lor_0_l, ?Z.lor_0_r, ?Z.lor_assoc; repeat split; reflexivity.
Qed.
Lemma file_open_heap file path flags w r w' :
  vfs_file_open file path flags w = Ok r w' ->
  exists l, calls w' = calls w ++ l /\ heap_delta l = 0.
Proof.
  intros Hrun.
  unfold vfs_file_open, deref_str, defined, when, bind, call, ret, undefined, get_table,
    deref in Hrun.
  quiet_heap Hrun.
Qed.

Lemma file_close_heap file w r w' :
  vfs_file_close file w = Ok r w' ->
  exists l, calls w' = calls w ++ l /\ heap_delta l = 0.
Proof.
  intros Hrun.
  unfold vfs_file_close, deref_str, defined, when, bind, call, ret, undefined,
    get_table, deref in Hrun.
  quiet_heap Hrun.
Qed.

Lemma dir_open_heap dir path w r w' :
  vfs_dir_open dir path w = Ok r w' ->
  exists l, calls w' = calls w ++ l /\ heap_delta l = 0.
Proof.
  intros Hrun.
  unfold vfs_dir_open, deref_str, defined, when, bind, call, ret, undefined,
    get_table, deref in Hrun.
  quiet_heap Hrun.
Qed.

Lemma dir_close_heap dir w r w' :
  vfs_dir_close dir w = Ok r w' ->
  exists l, calls w' = calls w ++ l /\ heap_delta l = 0.
Proof.
  intros Hrun.
  unfold vfs_dir_close, deref_str, defined, when, bind, call, ret, undefined,
    get_table, deref in Hrun.
  quiet_heap Hrun.
Qed.

Lemma fopen_run x pathname mode w h e w' :
  fopen x pathname mode w = Ok (h, e) w' ->
  exists l, calls w' = calls w ++ l /\
    match h with
    | None => e = ENOMEM /\ heap_delta l = 0
    | Some file =>
        heap_delta l = 1 /\
        exists m w1,
          mode = Some m /\
          vfs_file_open x pathname (fopen_flags m) w1 = Ok (- e, file) w'
    end.
Proof.
  intros Hrun. unfold fopen in Hrun. unfold bind at 1, call at 1 in Hrun.
  destruct (respond bool (bk w) vfs_malloc) as [ok b] eqn:Hm.
  cbn beta iota in Hrun. unfold bind at 1, deref_str in Hrun.
  destruct mode as [m|]; [|discriminate Hrun].
  unfold ret at 1 in Hrun. cbn beta iota in Hrun.
  destruct ok.
  - unfold bind in Hrun.
    destruct (vfs_file_open x pathname (fopen_flags m) _)
      as [[r file] w2| |] eqn:Hopen; try discriminate Hrun.
    unfold ret in Hrun. cbn beta iota in Hrun. inversion Hrun; subst.
    destruct (file_open_heap _ _ _ _ _ _ Hopen) as (l & Hl & Hz).
    cbn [calls] in Hl. exists ([logged vfs_malloc true] ++ l).
    rewrite Hl, app_assoc. split; [reflexivity|]. split.
    + rewrite heap_delta_app, Hz. reflexivity.
    + do 2 eexists. split; [reflexivity|]. rewrite Z.opp_involutive.
      exact Hopen.
  - unfold ret in Hrun. inversion Hrun; subst. eexists. split; [reflexivity|].
    split; reflexivity.
Qed.

(** X17.  [fopen] returns a null pointer when [vfs_malloc] does and only
    then.  When [vfs_malloc] fails, the result is null with ENOMEM in
    [errno] and nothing else is called.  When it gives a block,
    [vfs_file_open] runs on it with the flags of the mode and, whatever it
    returns, the pointer to the block is the result and the negated return
    value is in [errno]: a file that [vfs_file_open] refused comes back as a
    pointer all the same, with the block still held. *)
Theorem fopen_keeps_block x pathname m w ok b :
  respond _ (bk w) vfs_malloc = (ok, b) ->
  let w1 := mkWorld (vFileSystem w) b (calls w ++ [logged vfs_malloc ok]) in
  (ok = false -> fopen x pathname (Some m) w = Ok (None, ENOMEM) w1) /\
  (ok = true ->
   forall r file w',
     vfs_file_open x pathname (fopen_flags m) w1 = Ok (r, file) w' ->
     fopen x pathname (Some m) w = Ok (Some file, - r) w' /\
     exists l, calls w' = calls w ++ l /\ heap_delta l = 1).
Proof.
  intros Hm w1. split.
  - intros ->. unfold fopen. unfold bind at 1, call at 1. rewrite Hm.
    cbn beta iota. reflexivity.
  - intros -> r file w' Hopen.
    assert (Hrun : fopen x pathname (Some m) w = Ok (Some file, - r) w').
    { unfold fopen. unfold bind at 1, call at 1. rewrite Hm.
      cbn beta iota. unfold bind at 1, deref_str, ret at 1. cbn beta iota.
      unfold bind at 1. fold w1. rewrite Hopen. reflexivity. }
    split; [exact Hrun|].
    destruct (fopen_run _ _ _ _ _ _ _ Hrun) as (l & Hl & Hh & _).
    exists l. split; [exact Hl | exact Hh].
Qed.

Lemma fclose_heap file w e w' :
  _fclose (Some file) w = Ok e w' ->
  exists l, calls w' = calls w ++ l /\ heap_delta l = -1.
Proof.
  intros Hrun. unfold _fclose in Hrun. unfold bind at 1 in Hrun.
  destruct (vfs_file_close file w) as [[r f'] w1| |] eqn:Hclose;
    try discriminate Hrun.
  destruct (file_close_heap _ _ _ _ Hclose) as (l & Hl & Hz).
  cbn beta iota in Hrun. unfold bind, call, ret in Hrun.
  destruct (respond unit (bk w1) vfs_free) as [u b].
  inversion Hrun; subst. cbn [calls]. exists (l ++ [logged vfs_free u]).
  rewrite Hl, app_assoc. split; [reflexivity|].
  rewrite heap_delta_app, Hz. reflexivity.
Qed.

Lemma opendir_heap x path w h e w' :
  opendir x path w = Ok (h, e) w' ->
  exists l, calls w' = calls w ++ l /\
    heap_delta l = match h with Some _ => 1 | None => 0 end.
Proof.
  intros Hrun. unfold opendir in Hrun. unfold bind at 1, call at 1 in Hrun.
  destruct (respond bool (bk w) vfs_malloc) as [ok b] eqn:Hm.
  cbn beta iota in Hrun. destruct ok.
  - unfold bind at 1 in Hrun.
    destruct (vfs_dir_open x path _) as [[r dir] w1| |] eqn:Hopen;
      try discriminate Hrun.
    destruct (dir_open_heap _ _ _ _ _ Hopen) as (l & Hl & Hz).
    cbn [calls] in Hl. cbn beta iota in Hrun.
    destruct (r <? 0).
    + unfold bind, call, ret in Hrun.
      destruct (respond unit (bk w1) vfs_free) as [u b1].
      inversion Hrun; subst. cbn [calls].
      exists ([logged vfs_malloc true] ++ l ++ [logged vfs_free u]).
      rewrite Hl, <- !app_assoc. split; [reflexivity|].
      rewrite !heap_delta_app, Hz. reflexivity.
    + unfold ret in Hrun. inversion Hrun; subst.
      exists ([logged vfs_malloc true] ++ l).
      rewrite Hl, <- !app_assoc. split; [reflexivity|].
      rewrite !heap_delta_app, Hz. reflexivity.
  - unfold ret in Hrun. inversion Hrun; subst. eexists.
    split; reflexivity.
Qed.

Lemma closedir_heap d w r w' :
  closedir (Some d) w = Ok r w' ->
  exists l, calls w' = calls w ++ l /\ heap_delta l = 0.
Proof.
  intros Hrun. unfold closedir in Hrun. unfold bind at 1 in Hrun.
  destruct (vfs_dir_close d w) as [[rc d'] w1| |] eqn:Hclose;
    try discriminate Hrun.
  destruct (dir_close_heap _ _ _ _ Hclose) as (l & Hl & Hz).
  unfold ret in Hrun. cbn beta iota in Hrun. inversion Hrun; subst.
  now exists l.
Qed.

(** X18.  The blocks of the POSIX layer: [_fclose] gives back the block of
    [fopen]; an [opendir] that fails frees its block before it returns null;
    [closedir] frees nothing, so the block of an [opendir] that succeeded is
    still held after [closedir]. *)
Theorem posix_blocks x xd pathname mode path w :
  (forall f e w1 r w2,
     fopen x pathname mode w = Ok (Some f, e) w1 ->
     _fclose (Some f) w1 = Ok r w2 ->
     exists l, calls w2 = calls w ++ l /\ heap_delta l = 0) /\
  (forall e w1,
     opendir xd path w = Ok (None, e) w1 ->
     exists l, calls w1 = calls w ++ l /\ heap_delta l = 0) /\
  (forall d e w1 r w2,
     opendir xd path w = Ok (Some d, e) w1 ->
     closedir (Some d) w1 = Ok r w2 ->
     exists l, calls w2 = calls w ++ l /\ heap_delta l = 1).
Proof.
  split; [|split].
  - intros f e w1 r w2 Hopen Hclose.
    destruct (fopen_run _ _ _ _ _ _ _ Hopen) as (l1 & Hl1 & Hh & _).
    destruct (fclose_heap _ _ _ _ Hclose) as (l2 & Hl2 & Hz).
    exists (l1 ++ l2). rewrite Hl2, Hl1, app_assoc. split; [reflexivity|].
    rewrite heap_delta_app, Hh, Hz. reflexivity.
  - intros e w1 Hopen. exact (opendir_heap _ _ _ _ _ _ Hopen).
  - intros d e w1 r w2 Hopen Hclose.
    destruct (opendir_heap _ _ _ _ _ _ Hopen) as (l1 & Hl1 & Hh).
    destruct (closedir_heap _ _ _ _ Hclose) as (l2 & Hl2 & Hz).
    exists (l1 ++ l2). rewrite Hl2, Hl1, app_assoc. split; [reflexivity|].
    rewrite heap_delta_app, Hh, Hz. reflexivity.
Qed.

End Posix.

Section Runs.

Import Sim.

(** The bare drive name, which [vfs_file_open] refuses with -EBADF: the
    block comes back with the handle still on the drive. *)
Lemma fopen_keeps_block_witness :
  fopen no_file (Some "A:"%string) (Some "r"%string) (world [fat_drive] ten)
  = Ok (Some open_file, EBADF)
       (mkWorld [fat_drive] ten [logged vfs_malloc true]) /\
  exists l,
    calls (mkWorld [fat_drive] ten [logged vfs_malloc true]) = [] ++ l /\
    heap_delta l = 1.
Proof.
  apply (proj2 (fopen_keeps_block no_file (Some "A:"%string) "r"
                  (world [fat_drive] ten) true ten eq_refl) eq_refl
           (- EBADF) open_file).
  reflexivity.
Defined.

(** A directory opened and closed. *)
Lemma posix_blocks_witness :
  exists l,
    calls (mkWorld [fat_drive] ten
             [logged vfs_malloc true; logged (f_opendir 0 "A:") 0;
              logged (f_closedir 0) 0])
    = [] ++ l /\ heap_delta l = 1.
Proof.
  apply (proj2 (proj2 (posix_blocks no_file no_dir None None
                         (Some "A:"%string) (world [fat_drive] ten)))
           (mkVfsDir (RefEntry 0) 0 0 EmptyString 0 None) None
           (@mkWorld backend [fat_drive] ten
              [logged vfs_malloc true; logged (f_opendir 0 "A:") 0])
           (0, mkVfsDir RefNull 0 0 EmptyString 0 None));
    reflexivity.
Defined.

End Runs.

End PosixFacts.

(** ** Positions on JesFs *)

Module PositionFacts.
Import Vfs ResolveFacts VfsFacts.

Section Position.

Context {hdr : Headers} {cfg : Config} {bkd : Backend}.

Variable f_eof : nat -> M Z.
Variable lfs_file_tell : nat -> nat -> M Z.
Variable lfs_file_size : nat -> nat -> M Z.

Lemma u32_add_l a b : u32 (u32 a + b) = u32 (a + b).
Proof. unfold u32. rewrite Zplus_mod_idemp_l. reflexivity. Qed.

Lemma u32_idem a : u32 (u32 a) = u32 a.
Proof. unfold u32. rewrite Z.mod_mod by lia. reflexivity. Qed.

(** X19.  On JesFs a seek is bookkeeping in the handle, and the position told
    afterwards is the one sought whatever the size of the file: for END it
    lies one beyond the size plus the offset.  [vfs_file_eof] has no case
    for JesFs and gives 0 wherever the position is; [feof] compares the
    position with the size.  None of them calls the library. *)
Theorem jesfs_position file offset whence w e :
  deref (filesys file) w = Ok e w ->
  fs_kind e = FS_JESFS -> valid_whence whence ->
  exists file' pos,
    vfs_file_seek file offset whence w = Ok (0, file') w /\
    (whence = SEEK_SET -> pos = u32 offset) /\
    (whence = SEEK_CUR -> pos = u32 (file_pos (jes file) + offset)) /\
    (whence = SEEK_END -> pos = u32 (file_len (jes file) + 1 + offset)) /\
    vfs_file_tell lfs_file_tell file' w = Ok pos w /\
    vfs_file_size lfs_file_size file' w = Ok (u32 (file_len (jes file))) w /\
    vfs_file_eof f_eof lfs_file_tell lfs_file_size file' w = Ok 0 w /\
    feof lfs_file_tell lfs_file_size (Some file') w
    = Ok (if pos =? u32 (file_len (jes file)) then 1 else 0) w.
Proof.
  intros He Hk Hw.
  assert (Hrun : forall start,
    let file' := set_jes file (set_file_pos (jes file) (u32 (start + offset))) in
    vfs_file_tell lfs_file_tell file' w = Ok (u32 (start + offset)) w /\
    vfs_file_size lfs_file_size file' w = Ok (u32 (file_len (jes file))) w /\
    vfs_file_eof f_eof lfs_file_tell lfs_file_size file' w = Ok 0 w /\
    feof lfs_file_tell lfs_file_size (Some file') w
    = Ok (if u32 (start + offset) =? u32 (file_len (jes file)) then 1 else 0)
         w).
  { intros start file'.
    assert (Ht : vfs_file_tell lfs_file_tell file' w
                 = Ok (u32 (start + offset)) w).
    { unfold vfs_file_tell, bind, file'. cbn [filesys set_jes].
      rewrite He, Hk.
      cbn [Z.eqb FS_JESFS FS_LITTLEFS FS_FATFS Pos.eqb].
      cbn [jes set_jes file_pos set_file_pos]. rewrite u32_idem.
      reflexivity. }
    assert (Hs : vfs_file_size lfs_file_size file' w
                 = Ok (u32 (file_len (jes file))) w).
    { unfold vfs_file_size, bind, file'. cbn [filesys set_jes].
      rewrite He, Hk.
      cbn [Z.eqb FS_JESFS FS_LITTLEFS FS_FATFS Pos.eqb]. reflexivity. }
    split; [exact Ht|]. split; [exact Hs|]. split.
    - unfold vfs_file_eof, bind, file'. cbn [filesys set_jes].
      rewrite He, Hk.
      cbn [Z.eqb FS_JESFS FS_LITTLEFS FS_FATFS Pos.eqb]. reflexivity.
    - unfold feof, bind. rewrite Ht, Hs. reflexivity. }
  assert (Hseek : forall start,
    (if whence =? SEEK_SET then Some 0
     else if whence =? SEEK_CUR then Some (file_pos (jes file))
     else if whence =? SEEK_END then Some (u32 (file_len (jes file) + 1))
     else None) = Some start ->
    vfs_file_seek file offset whence w
    = Ok (0, set_jes file (set_file_pos (jes file) (u32 (start + offset)))) w).
  { intros start Hst. unfold vfs_file_seek, bind. rewrite He, Hk.
    cbn [Z.eqb FS_JESFS FS_LITTLEFS FS_FATFS Pos.eqb].
    rewrite Hst. reflexivity. }
  destruct Hw as [-> | [-> | ->]].
  - exists (set_jes file (set_file_pos (jes file) (u32 (0 + offset)))),
      (u32 (0 + offset)).
    split; [apply Hseek; reflexivity|].
    split; [intros _; reflexivity|].
    split; [discriminate|]. split; [discriminate|]. apply Hrun.
  - exists (set_jes file
              (set_file_pos (jes file) (u32 (file_pos (jes file) + offset)))),
      (u32 (file_pos (jes file) + offset)).
    split; [apply Hseek; reflexivity|].
    split; [discriminate|]. split; [intros _; reflexivity|].
    split; [discriminate|]. apply Hrun.
  - exists (set_jes file
              (set_file_pos (jes file)
                 (u32 (u32 (file_len (jes file) + 1) + offset)))),
      (u32 (u32 (file_len (jes file) + 1) + offset)).
    split; [apply Hseek; reflexivity|].
    split; [discriminate|]. split; [discriminate|].
    split; [intros _; apply u32_add_l|]. apply Hrun.
Qed.

End Position.

Section Runs.

Import Sim.

(** A file of ten bytes read up to the third, sought to its end. *)
Lemma jesfs_position_witness :
  exists file' pos,
    vfs_file_seek (mkVfsFile (RefEntry 0) 0 0 (mkFS_DESC 3 10 0)) 0 SEEK_END
      jes_started
    = Ok (0, file') jes_started /\
    (SEEK_END = SEEK_SET -> pos = u32 0) /\
    (SEEK_END = SEEK_CUR -> pos = u32 (3 + 0)) /\
    (SEEK_END = SEEK_END -> pos = u32 (10 + 1 + 0)) /\
    vfs_file_tell (fun _ _ => ret 0) file' jes_started = Ok pos jes_started /\
    vfs_file_size (fun _ _ => ret 0) file' jes_started
    = Ok (u32 10) jes_started /\
    vfs_file_eof (fun _ => ret 0) (fun _ _ => ret 0) (fun _ _ => ret 0) file'
      jes_started
    = Ok 0 jes_started /\
    feof (fun _ _ => ret 0) (fun _ _ => ret 0) (Some file') jes_started
    = Ok (if pos =? u32 10 then 1 else 0) jes_started.
Proof.
  apply (jesfs_position (fun _ => ret 0) (fun _ _ => ret 0) (fun _ _ => ret 0)
           (mkVfsFile (RefEntry 0) 0 0 (mkFS_DESC 3 10 0)) 0 SEEK_END
           jes_started
           (mkFileSystem "SPI:" PtrNull true (Z.lor FS_JESFS FS_FIXED) 1 4)).
  - reflexivity.
  - reflexivity.
  - right. right. reflexivity.
Defined.

End Runs.

End PositionFacts.

(** ** Lines *)

Module LineFacts.
Import Vfs ResolveFacts VfsFacts.

Lemma store_length data buf : List.length (store data buf) = List.length buf.
Proof.
  unfold store. rewrite length_firstn, length_app, length_skipn. lia.
Qed.

Lemma store_at_length rv data buff :
  List.length (store_at rv data buff) = List.length buff.
Proof.
  unfold store_at.
  rewrite length_app, store_length, length_firstn, length_skipn. lia.
Qed.

Lemma put_firstn n x (buff : list Z) :
  (n < List.length buff)%nat ->
  firstn (S n) (firstn n buff ++ x :: skipn (S n) buff) = firstn n buff ++ [x].
Proof.
  intros Hn. rewrite firstn_app, length_firstn.
  rewrite firstn_all2 by (rewrite length_firstn; lia).
  replace (S n - Nat.min n (List.length buff))%nat with 1%nat by lia.
  reflexivity.
Qed.

Lemma put_skipn n m x (buff : list Z) :
  (n < List.length buff)%nat ->
  skipn (S n + m) (firstn n buff ++ x :: skipn (S n) buff)
  = skipn (S n + m) buff.
Proof.
  intros Hn. rewrite skipn_app, length_firstn.
  rewrite skipn_all2 by (rewrite length_firstn; lia).
  replace (S n + m - Nat.min n (List.length buff))%nat with (S m) by lia.
  change (skipn (S m) (x :: skipn (S n) buff))
    with (skipn m (skipn (S n) buff)).
  rewrite skipn_skipn. cbn [app]. f_equal. lia.
Qed.

Section Lines.

Context {hdr : Headers} {cfg : Config} {bkd : Backend}.

Variable f_gets : list Z -> Z -> nat -> M (bool * list Z).

(** A read that gives nothing and leaves the library as it was is tried
    again for ever. *)
Lemma lfs_gets_stuck i fp len r data b tbl :
  respond _ b (lfs_file_read i fp 1) = ((r, data), b) -> r <= 0 ->
  forall fuel buff rv log,
    rv < len - 1 -> (Z.to_nat rv < List.length buff)%nat ->
    lfs_gets fuel i fp buff len rv (mkWorld tbl b log) = OutOfFuel.
Proof.
  intros Hr Hle. induction fuel as [|k IH]; intros buff rv log Hrv Hin.
  - reflexivity.
  - cbn [lfs_gets].
    apply Z.ltb_lt in Hrv. rewrite Hrv. apply Z.ltb_lt in Hrv.
    apply Nat.ltb_lt in Hin. rewrite Hin. apply Nat.ltb_lt in Hin.
    unfold bind at 1, call at 1. cbn [bk vFileSystem calls].
    rewrite Hr. cbn beta iota.
    assert (Hz : (0 <? r) = false) by (apply Z.ltb_ge; lia).
    rewrite Hz. apply IH; [lia|]. rewrite store_at_length. exact Hin.
Qed.

Lemma jes_gets_stuck d len r data b tbl :
  respond _ b (fs_read d 1) = ((r, data, d), b) -> r <= 0 ->
  forall fuel buff rv log,
    rv < len - 1 -> (Z.to_nat rv < List.length buff)%nat ->
    jes_gets fuel d buff len rv (mkWorld tbl b log) = OutOfFuel.
Proof.
  intros Hr Hle. induction fuel as [|k IH]; intros buff rv log Hrv Hin.
  - reflexivity.
  - cbn [jes_gets].
    apply Z.ltb_lt in Hrv. rewrite Hrv. apply Z.ltb_lt in Hrv.
    apply Nat.ltb_lt in Hin. rewrite Hin. apply Nat.ltb_lt in Hin.
    unfold bind at 1, call at 1. cbn [bk vFileSystem calls].
    rewrite Hr. cbn beta iota.
    assert (Hz : (0 <? r) = false) by (apply Z.ltb_ge; lia).
    rewrite Hz. apply IH; [lia|]. rewrite store_at_length. exact Hin.
Qed.

(** X20.  On LittleFS and on JesFs [vfs_gets] does not return from the end of a
    file: a read that gives no byte (0, or an error) and leaves the library
    as it was leaves the loop where it was too, so with room for one
    character or more in the buffer no number of rounds ends it. *)
Theorem gets_spins_at_end fuel buff len file w e :
  deref (filesys file) w = Ok e w ->
  1 < len -> buff <> [] ->
  (fs_kind e = FS_LITTLEFS ->
   (exists r data,
      respond _ (bk w) (lfs_file_read (ref_index (filesys file)) (fp file) 1)
      = ((r, data), bk w) /\ r <= 0) ->
   vfs_gets f_gets fuel buff len file w = OutOfFuel) /\
  (fs_kind e = FS_JESFS ->
   (exists r data,
      respond _ (bk w) (fs_read (jes file) 1) = ((r, data, jes file), bk w) /\
      r <= 0) ->
   vfs_gets f_gets fuel buff len file w = OutOfFuel).
Proof.
  intros He Hlen Hbuff.
  assert (Hn : (len =? - 2 ^ 31) = false) by (apply Z.eqb_neq; lia).
  assert (Hin : (Z.to_nat 0 < List.length buff)%nat).
  { destruct buff; [congruence | simpl; lia]. }
  split; intros Hk (r & data & Hr & Hle);
    unfold vfs_gets; unfold bind at 1; rewrite He, Hk;
    cbn [Z.eqb FS_JESFS FS_LITTLEFS FS_FATFS Pos.eqb]; rewrite Hn;
    unfold bind at 1; destruct w as [tbl b log]; cbn [bk] in Hr.
  - rewrite (lfs_gets_stuck _ _ _ _ _ _ _ Hr Hle); [reflexivity | lia | exact Hin].
  - rewrite (jes_gets_stuck _ _ _ _ _ _ Hr Hle); [reflexivity | lia | exact Hin].
Qed.

End Lines.

Section Runs.

Import Sim.

Variable f_gets : list Z -> Z -> nat -> M (bool * list Z).

Lemma file_at_advance c p n :
  advance (file_at c p) (Z.of_nat n) = file_at c (p + n).
Proof. unfold advance, file_at. cbn. rewrite Nat2Z.inj_add. reflexivity. Qed.

(** One round on the simulated LittleFS with a byte left to read. *)
Lemma lfs_gets_round k i fp buff len rv tbl c p log x tail :
  skipn p c = x :: tail ->
  0 <= rv < len - 1 -> (Z.to_nat rv < List.length buff)%nat ->
  lfs_gets (S k) i fp buff len rv (mkWorld tbl (file_at c p) log)
  = let buff' := firstn (Z.to_nat rv) buff ++ x :: skipn (S (Z.to_nat rv)) buff in
    let w' := mkWorld tbl (file_at c (S p))
                (log ++ [logged (lfs_file_read i fp 1) (1, [x])]) in
    if x =? 10 then
      Ok (firstn (Z.to_nat rv) buff ++ 0 :: skipn (S (Z.to_nat rv)) buff) w'
    else lfs_gets k i fp buff' len (rv + 1) w'.
Proof.
  intros Hc Hrv Hin. cbn [lfs_gets].
  assert (Hlt : (rv <? len - 1) = true) by (apply Z.ltb_lt; lia).
  rewrite Hlt. apply Nat.ltb_lt in Hin. rewrite Hin. apply Nat.ltb_lt in Hin.
  unfold bind at 1, call at 1. cbn [bk vFileSystem calls respond backend answer].
  unfold chunk. cbn [position content file_at].
  rewrite Nat2Z.id, Hc. change (Z.to_nat 1) with 1%nat. cbn [firstn List.length].
  change (Z.of_nat 1) with 1.
  replace (advance (file_at c p) 1) with (file_at c (S p))
    by (unfold advance, file_at; cbn [content position listing mounts];
        rewrite Nat2Z.inj_succ; reflexivity).
  cbn beta iota. change (0 <? 1) with true. cbn beta iota.
  assert (Hst : store_at (Z.to_nat rv) [x] buff
                = firstn (Z.to_nat rv) buff ++ x :: skipn (S (Z.to_nat rv)) buff).
  { unfold store_at. f_equal.
    destruct (skipn (Z.to_nat rv) buff) as [|y l] eqn:Hs.
    - apply (f_equal (@List.length Z)) in Hs. rewrite length_skipn in Hs.
      simpl in Hs. lia.
    - pose proof (skipn_skipn 1 (Z.to_nat rv) buff) as Hss.
      rewrite Hs in Hss. change (1 + Z.to_nat rv)%nat with (S (Z.to_nat rv)) in Hss.
      rewrite <- Hss. unfold store. simpl. rewrite firstn_all. reflexivity. }
  rewrite Hst.
  assert (Hnth : nth (Z.to_nat rv)
                   (firstn (Z.to_nat rv) buff ++ x :: skipn (S (Z.to_nat rv)) buff)
                   0 = x).
  { rewrite app_nth2 by (rewrite length_firstn; lia).
    rewrite length_firstn.
    replace (Z.to_nat rv - Nat.min (Z.to_nat rv) (List.length buff))%nat
      with 0%nat by lia.
    reflexivity. }
  rewrite Hnth. destruct (x =? 10); [|reflexivity].
  unfold ret. f_equal.
  set (tl := skipn (S (Z.to_nat rv)) buff).
  unfold store_at.
  rewrite firstn_app, length_firstn.
  replace (Z.to_nat rv - Nat.min (Z.to_nat rv) (List.length buff))%nat
    with 0%nat by lia.
  rewrite firstn_firstn, Nat.min_id. change (firstn 0 (x :: tl)) with (@nil Z).
  rewrite app_nil_r. f_equal.
  rewrite skipn_app, length_firstn.
  replace (Z.to_nat rv - Nat.min (Z.to_nat rv) (List.length buff))%nat
    with 0%nat by lia.
  rewrite skipn_firstn_comm, Nat.sub_diag.
  change (firstn 0 (skipn (Z.to_nat rv) buff)) with (@nil Z).
  change (skipn 0 (x :: tl)) with (x :: tl).
  unfold store. simpl. rewrite firstn_all. reflexivity.
Qed.

(** The rounds that copy the bytes of [line], none of them a newline. *)
Lemma lfs_gets_copies i fp len tbl c tail : forall line k buff rv p log,
  skipn p c = line ++ tail -> Forall (fun x => x <> 10) line ->
  0 <= rv -> rv + Z.of_nat (List.length line) <= len - 1 ->
  (Z.to_nat rv + List.length line <= List.length buff)%nat ->
  exists log',
    lfs_gets (List.length line + k) i fp buff len rv
      (mkWorld tbl (file_at c p) log)
    = lfs_gets k i fp
        (firstn (Z.to_nat rv) buff ++ line ++
         skipn (Z.to_nat rv + List.length line) buff)
        len (rv + Z.of_nat (List.length line))
        (mkWorld tbl (file_at c (p + List.length line)) log').
Proof.
  induction line as [|x line IH]; intros k buff rv p log Hc Hall Hrv Hlen Hin.
  - exists log. cbn [List.length Nat.add app Z.of_nat].
    rewrite !Nat.add_0_r, Z.add_0_r, firstn_skipn. reflexivity.
  - cbn [List.length] in *. cbn [Nat.add].
    inversion Hall as [|? ? Hx Hall']; subst.
    rewrite (lfs_gets_round _ _ _ _ _ _ _ _ _ _ x (line ++ tail))
      by (first [exact Hc | lia]).
    cbn zeta. apply Z.eqb_neq in Hx. rewrite Hx.
    assert (Hc' : skipn (S p) c = line ++ tail).
    { pose proof (skipn_skipn 1 p c) as Hss. rewrite Hc in Hss.
      symmetry. exact Hss. }
    assert (Hn : (Z.to_nat rv < List.length buff)%nat) by lia.
    destruct (IH k
                (firstn (Z.to_nat rv) buff ++ x :: skipn (S (Z.to_nat rv)) buff)
                (rv + 1) (S p)
                (log ++ [logged (lfs_file_read i fp 1) (1, [x])]) Hc' Hall')
      as [log' Hrun].
    + lia.
    + lia.
    + rewrite length_app, length_firstn. cbn [List.length].
      rewrite length_skipn. lia.
    + exists log'. rewrite Hrun.
      replace (Z.to_nat (rv + 1)) with (S (Z.to_nat rv)) by lia.
      rewrite put_firstn, put_skipn by exact Hn.
      rewrite <- app_assoc. cbn [app].
      replace (S (Z.to_nat rv) + List.length line)%nat
        with (Z.to_nat rv + S (List.length line))%nat by lia.
      replace (rv + 1 + Z.of_nat (List.length line))
        with (rv + Z.of_nat (S (List.length line))) by lia.
      replace (S p + List.length line)%nat
        with (p + S (List.length line))%nat by lia.
      reflexivity.
Qed.

Lemma gets_littlefs tbl e file i fuel buff len st log :
  filesys file = RefEntry i -> nth_error tbl i = Some e ->
  fs_kind e = FS_LITTLEFS ->
  len <> - 2 ^ 31 ->
  vfs_gets f_gets fuel buff len file (mkWorld tbl st log)
  = match lfs_gets fuel i (fp file) buff len 0 (mkWorld tbl st log) with
    | Ok b w => Ok (true, b, file) w
    | Undefined => Undefined
    | OutOfFuel => OutOfFuel
    end.
Proof.
  intros Hfile Hentry Hkind Hlen.
  unfold vfs_gets. unfold bind at 1. unfold deref.
  rewrite Hfile. cbn [vFileSystem]. rewrite Hentry, Hkind.
  cbn [Z.eqb FS_JESFS FS_LITTLEFS FS_FATFS Pos.eqb].
  apply Z.eqb_neq in Hlen. rewrite Hlen. unfold bind. cbn [ref_index].
  destruct (lfs_gets fuel i (fp file) buff len 0 (mkWorld tbl st log));
    reflexivity.
Qed.

(** X21.  A line that fits.  On the simulated LittleFS, a file that holds from
    its pointer on the bytes [line], none a newline, and then a newline, is
    read into a buffer with room for them as [line] with a 0 for the
    newline, the rest of the buffer left as it was, and the pointer ends
    behind the newline. *)
Theorem gets_reads_line tbl e file i fuel buff len c p log line tail :
  filesys file = RefEntry i -> nth_error tbl i = Some e ->
  fs_kind e = FS_LITTLEFS ->
  skipn p c = line ++ 10 :: tail ->
  Forall (fun x => x <> 10) line ->
  Z.of_nat (List.length line) < len - 1 ->
  (List.length line < List.length buff)%nat ->
  exists log',
    vfs_gets f_gets (List.length line + S fuel) buff len file
      (mkWorld tbl (file_at c p) log)
    = Ok (true, line ++ 0 :: skipn (S (List.length line)) buff, file)
         (mkWorld tbl (file_at c (p + List.length line + 1)) log').
Proof.
  intros Hfile Hentry Hkind Hc Hall Hlen Hin.
  rewrite (gets_littlefs tbl e file i) by (first [assumption | lia]).
  destruct (lfs_gets_copies i (fp file) len tbl c (10 :: tail) line (S fuel)
              buff 0 p log Hc Hall) as [log' Hrun]; [lia | lia | simpl; lia|].
  rewrite Hrun. cbn [Z.to_nat firstn app Nat.add Z.add].
  assert (Hc' : skipn (p + List.length line) c = 10 :: tail).
  { rewrite Nat.add_comm, <- skipn_skipn, Hc, skipn_app, Nat.sub_diag.
    rewrite skipn_all. reflexivity. }
  rewrite (lfs_gets_round _ _ _ _ _ _ _ _ _ _ 10 tail Hc')
    by (first [lia | rewrite length_app, length_skipn; lia]).
  cbn zeta. change (10 =? 10) with true. cbn iota.
  rewrite Nat2Z.id.
  eexists. f_equal.
  - f_equal. f_equal.
    rewrite firstn_app, Nat.sub_diag, firstn_all. cbn [firstn].
    rewrite app_nil_r. f_equal. f_equal.
    rewrite skipn_app.
    rewrite skipn_all2 by lia.
    replace (S (List.length line) - List.length line)%nat with 1%nat by lia.
    cbn [app]. rewrite skipn_skipn. f_equal.
  - f_equal. f_equal. lia.
Qed.

(** X22.  A line that does not fit.  When the [len - 1] bytes from the pointer
    on hold no newline, they are copied and the loop ends there: what the buffer
    held from element [len - 1] on is what it still holds, so no terminator is
    written. *)
Theorem gets_writes_no_terminator tbl e file i fuel buff len c p log line
  tail :
  filesys file = RefEntry i -> nth_error tbl i = Some e ->
  fs_kind e = FS_LITTLEFS ->
  skipn p c = line ++ tail ->
  Forall (fun x => x <> 10) line ->
  Z.of_nat (List.length line) = len - 1 ->
  (List.length line <= List.length buff)%nat ->
  exists log',
    vfs_gets f_gets (List.length line + S fuel) buff len file
      (mkWorld tbl (file_at c p) log)
    = Ok (true, line ++ skipn (List.length line) buff, file)
         (mkWorld tbl (file_at c (p + List.length line)) log').
Proof.
  intros Hfile Hentry Hkind Hc Hall Hlen Hin.
  rewrite (gets_littlefs tbl e file i) by (first [assumption | lia]).
  destruct (lfs_gets_copies i (fp file) len tbl c tail line (S fuel)
              buff 0 p log Hc Hall) as [log' Hrun]; [lia | lia | simpl; lia|].
  rewrite Hrun. cbn [Z.to_nat firstn app Nat.add Z.add lfs_gets].
  assert (Hlt : (Z.of_nat (List.length line) <? len - 1) = false)
    by (apply Z.ltb_ge; lia).
  rewrite Hlt. exists log'. reflexivity.
Qed.

End Runs.

Section Witnesses.

Import Sim.

(** An empty file behind the LittleFS drive, where every read gives 0 bytes;
    and a handle on the JesFs drive, whose simulated [fs_read] gives none
    either. *)
Lemma gets_spins_at_end_witness :
  vfs_gets (fun _ _ _ => ret (false, [])) 100 [0; 0; 0; 0] 4 open_file
    (world [lfs_drive] (file_at [] 0))
  = OutOfFuel /\
  vfs_gets (fun _ _ _ => ret (false, [])) 100 [0; 0; 0; 0] 4 open_file
    jes_started
  = OutOfFuel.
Proof.
  split.
  - apply (proj1 (gets_spins_at_end (fun _ _ _ => ret (false, [])) 100
                    [0; 0; 0; 0] 4 open_file
                    (world [lfs_drive] (file_at [] 0)) lfs_drive
                    eq_refl ltac:(lia) ltac:(discriminate))).
    + reflexivity.
    + exists 0, []. split; [reflexivity | lia].
  - apply (proj2 (gets_spins_at_end (fun _ _ _ => ret (false, [])) 100
                    [0; 0; 0; 0] 4 open_file jes_started
                    (mkFileSystem "SPI:" PtrNull true
                       (Z.lor FS_JESFS FS_FIXED) 1 4)
                    eq_refl ltac:(lia) ltac:(discriminate))).
    + reflexivity.
    + exists 0, []. split; [reflexivity | lia].
Defined.

(** The file holds "hi", a newline and "x". *)
Lemma gets_reads_line_witness :
  exists log',
    vfs_gets (fun _ _ _ => ret (false, [])) (2 + 1) [7; 7; 7; 7; 7; 7] 6
      open_file (mkWorld [lfs_drive] (file_at [104; 105; 10; 120] 0) [])
    = Ok (true, [104; 105] ++ 0 :: skipn 3 [7; 7; 7; 7; 7; 7], open_file)
         (mkWorld [lfs_drive] (file_at [104; 105; 10; 120] (0 + 2 + 1)) log').
Proof.
  apply (gets_reads_line (fun _ _ _ => ret (false, [])) [lfs_drive] lfs_drive
           open_file 0 0 [7; 7; 7; 7; 7; 7] 6 [104; 105; 10; 120] 0 []
           [104; 105] [120]).
  - reflexivity.
  - reflexivity.
  - reflexivity.
  - reflexivity.
  - repeat constructor; discriminate.
  - reflexivity.
  - simpl. lia.
Defined.

(** The file holds "hi!" and a newline, and [len] is 3. *)
Lemma gets_writes_no_terminator_witness :
  exists log',
    vfs_gets (fun _ _ _ => ret (false, [])) (2 + 1) [7; 7; 7; 7] 3
      open_file (mkWorld [lfs_drive] (file_at [104; 105; 33; 10] 0) [])
    = Ok (true, [104; 105] ++ skipn 2 [7; 7; 7; 7], open_file)
         (mkWorld [lfs_drive] (file_at [104; 105; 33; 10] (0 + 2)) log').
Proof.
  apply (gets_writes_no_terminator (fun _ _ _ => ret (false, [])) [lfs_drive]
           lfs_drive open_file 0 0 [7; 7; 7; 7] 3 [104; 105; 33; 10] 0 []
           [104; 105] [33; 10]).
  - reflexivity.
  - reflexivity.
  - reflexivity.
  - reflexivity.
  - repeat constructor; discriminate.
  - reflexivity.
  - simpl. lia.
Defined.

End Witnesses.

End LineFacts.

(** ** Copying a file *)

Module CopyFacts.
Import Vfs ResolveFacts VfsFacts PathFacts.

#[local] Arguments Ascii.eqb : simpl never.
#[local] Arguments is_nul : simpl never.

Lemma strrchr_behind dir c t :
  nonul dir -> strrchr t c = Some t -> strrchr (dir ++ t) c = Some t.
Proof.
  intros Hd Ht. induction dir as [|x dir IH]; [exact Ht|].
  destruct Hd as [Hx Hd]. apply is_nul_false in Hx.
  change (String x dir ++ t)%string with (String x (dir ++ t)).
  cbn [strrchr]. rewrite Hx, (IH Hd). reflexivity.
Qed.

Lemma strchr_behind dir c t :
  nonul dir -> strchr dir c = None -> strchr t c = Some t ->
  strchr (dir ++ t) c = Some t.
Proof.
  intros Hd Hn Ht. induction dir as [|x dir IH]; [exact Ht|].
  destruct Hd as [Hx Hd]. apply is_nul_false in Hx.
  change (String x dir ++ t)%string with (String x (dir ++ t)).
  cbn [strchr] in *. rewrite Hx in *.
  destruct (Ascii.eqb x c); [discriminate|]. exact (IH Hd Hn).
Qed.

Lemma last_char d c :
  nonul d -> is_nul c = false ->
  strlen (d ++ String c EmptyString) = S (String.length d) /\
  char_at (d ++ String c EmptyString)
    (strlen (d ++ String c EmptyString) - 1) = c /\
  take (strlen (d ++ String c EmptyString)) (d ++ String c EmptyString)
  = (d ++ String c EmptyString)%string.
Proof.
  intros Hd Hc.
  assert (Hn : nonul (d ++ String c EmptyString)).
  { apply nonul_app; [exact Hd|]. split; [|exact I].
    apply is_nul_false. exact Hc. }
  assert (Hl : strlen (d ++ String c EmptyString) = S (String.length d)).
  { rewrite strlen_app by exact Hd. cbn [strlen]. rewrite Hc. lia. }
  split; [exact Hl|]. split.
  - rewrite Hl. replace (S (String.length d) - 1)%nat with (String.length d)
      by lia.
    unfold char_at. rewrite drop_app. reflexivity.
  - rewrite strlen_nonul by exact Hn. apply take_all. exact Hn.
Qed.

(** X23.  The name [vfs_copy] opens for writing.  A destination that ends in '/'
    is a directory and takes the file name of the source; one that ends in
    ':' is a drive and takes the path of the source from its first '/'; any
    other is the name itself; and the empty destination is undefined, its
    last character being read in front of the string. *)
Theorem copy_target_names source d :
  nonul d ->
  copy_target source EmptyString = None /\
  (forall dir name,
     nonul dir -> nonul name -> strrchr name "/"%char = None ->
     source = (dir ++ "/" ++ name)%string ->
     (String.length d + String.length name + 2 <= 128)%nat ->
     copy_target source (d ++ "/") = Some (d ++ "/" ++ name)%string) /\
  (forall drv rest,
     nonul drv -> strchr drv "/"%char = None -> nonul rest ->
     source = (drv ++ "/" ++ rest)%string ->
     (String.length d + String.length rest + 3 <= 128)%nat ->
     copy_target source (d ++ ":") = Some (d ++ ":" ++ "/" ++ rest)%string) /\
  (forall c,
     is_nul c = false -> c <> "/"%char -> c <> ":"%char ->
     (String.length d + 2 <= 128)%nat ->
     copy_target source (d ++ String c EmptyString)
     = Some (d ++ String c EmptyString)%string).
Proof.
  intros Hd. split; [reflexivity|].
  assert (Hfit : forall n m : nat, (n <= 128)%nat -> (m = n)%nat ->
                   (128 <? m)%nat = false).
  { intros n m Hn ->. apply Nat.ltb_ge. exact Hn. }
  assert (Hpos : forall n : nat, (S n =? 0)%nat = false) by reflexivity.
  split; [|split].
  - intros dir name Hdir Hname Hno -> Hlen.
    destruct (last_char d "/"%char Hd eq_refl) as (Hl & Hc & Ht).
    unfold copy_target. rewrite Hc, Ht, Hl, Hpos.
    rewrite (Hfit (String.length d + 2)%nat) by lia.
    change (Ascii.eqb "/"%char "/"%char) with true. cbn iota.
    rewrite (strrchr_behind dir "/"%char ("/" ++ name)%string Hdir)
      by (cbn [append strrchr]; change (is_nul "/"%char) with false;
          cbn iota; rewrite Hno; reflexivity).
    change (drop 1 ("/" ++ name)) with name.
    rewrite strlen_nonul by exact Hname.
    rewrite (Hfit (String.length d + String.length name + 2)%nat) by lia.
    rewrite take_all by exact Hname.
    rewrite app_assoc_str. reflexivity.
  - intros drv rest Hdrv Hno Hrest -> Hlen.
    destruct (last_char d ":"%char Hd eq_refl) as (Hl & Hc & Ht).
    unfold copy_target. rewrite Hc, Ht, Hl, Hpos.
    rewrite (Hfit (String.length d + 2)%nat) by lia.
    change (Ascii.eqb ":"%char "/"%char) with false.
    change (Ascii.eqb ":"%char ":"%char) with true. cbn iota.
    rewrite (strchr_behind drv "/"%char ("/" ++ rest)%string Hdrv Hno)
      by reflexivity.
    assert (Hn : nonul ("/" ++ rest)).
    { split; [discriminate | exact Hrest]. }
    rewrite strlen_nonul by exact Hn. cbn [append String.length].
    rewrite (Hfit (String.length d + String.length rest + 3)%nat) by lia.
    change (String "/" rest) with ("/" ++ rest)%string.
    replace (S (String.length rest)) with (String.length ("/" ++ rest))
      by reflexivity.
    rewrite take_all by exact Hn.
    rewrite app_assoc_str. reflexivity.
  - intros c Hc Hslash Hcolon Hlen.
    destruct (last_char d c Hd Hc) as (Hl & Hch & Ht).
    unfold copy_target. rewrite Hch, Ht, Hl, Hpos.
    rewrite (Hfit (String.length d + 2)%nat) by lia.
    apply Ascii.eqb_neq in Hslash, Hcolon. rewrite Hslash, Hcolon.
    reflexivity.
Qed.

Section Copy.

Import Sim.

Variable f_write : nat -> list Z -> M (Z * Z).
Variable lfs_file_write : nat -> nat -> list Z -> M Z.
Variable fs_write : FS_DESC -> list Z -> M (Z * FS_DESC).

(** A FatFs that takes every write without an error, whatever count it
    reports. *)
Lemma write_sim dst data st log :
  filesys dst = RefEntry 0 -> (List.length data <= 128)%nat ->
  (forall fp data w,
     exists n, 0 <= n <= Z.of_nat (List.length data) /\
               f_write fp data w = Ok (FR_OK, n) w) ->
  exists n,
    0 <= n <= 128 /\
    vfs_file_write f_write lfs_file_write fs_write dst data
      (mkWorld [fat_drive] st log)
    = Ok (n, dst) (mkWorld [fat_drive] st log).
Proof.
  intros Hdst Hlen Hwrite.
  destruct (Hwrite (fp dst) data (mkWorld [fat_drive] st log))
    as (n & Hn & Hrun).
  exists n. split; [lia|].
  unfold vfs_file_write, bind, deref. rewrite Hdst.
  cbn [vFileSystem nth_error].
  change (fs_kind fat_drive =? FS_FATFS) with true. cbn beta iota.
  rewrite Hrun. cbn beta iota zeta.
  change (u32 (_ff_errno FR_OK) =? 0) with true. cbn beta iota.
  rewrite u32_small by (change (2 ^ 32) with 4294967296; lia).
  reflexivity.
Qed.

Lemma dst_open_sim xd st log :
  vfs_file_open xd (Some "A:/g"%string)
    (Z.lor VFS_WRONLY (Z.lor VFS_CREAT VFS_TRUNC))
    (mkWorld [fat_drive] st log)
  = Ok (0, set_filesys xd (RefEntry 0))
       (mkWorld [fat_drive] st
          (log ++ [logged (f_open (fp xd) "A:/g"%string
                             (_ff_fopen_flag
                                (Z.lor VFS_WRONLY (Z.lor VFS_CREAT VFS_TRUNC))))
                     0])).
Proof. reflexivity. Qed.

Lemma dst_close_sim dst st log :
  filesys dst = RefEntry 0 ->
  exists log',
    vfs_file_close dst (mkWorld [fat_drive] st log)
    = Ok (0, set_filesys dst RefNull) (mkWorld [fat_drive] st log').
Proof.
  intros Hdst. unfold vfs_file_close, bind, deref. rewrite Hdst.
  eexists. reflexivity.
Qed.

(** [vfs_touch] on the simulated FatFs drive returns and leaves the medium
    alone. *)
Lemma touch_sim info st log :
  exists r log',
    vfs_touch (Some "A:/g"%string) info (mkWorld [fat_drive] st log)
    = Ok r (mkWorld [fat_drive] st log').
Proof.
  unfold vfs_touch, bind, get_table. cbn [vFileSystem bk calls].
  change (_vfs_find_entry [fat_drive] (Some "A:/g"%string) false) with 0.
  cbn beta iota zeta. change (0 <? 0) with false. cbn beta iota.
  unfold deref, deref_str, defined, ret. cbn [Z.to_nat nth_error vFileSystem].
  cbn beta iota.
  change (fs_kind fat_drive =? FS_FATFS) with true. cbn beta iota.
  unfold fat_timedate, bind, call, ret.
  cbn [bk respond backend answer silent vFileSystem calls].
  repeat match goal with
         | |- context [if ?x then _ else _] =>
             match x with
             | context [if _ then _ else _] => fail 1
             | _ => destruct x
             end
         end; cbn beta iota; eexists; eexists; reflexivity.
Qed.

Lemma s32_byte_count n : 0 <= n <= 128 -> s32 n = n.
Proof.
  intros Hn. unfold s32, u32. change (2 ^ 32) with 4294967296.
  change (2 ^ 31) with 2147483648. rewrite Z.mod_small by lia.
  destruct (Z.ltb_spec n 2147483648); lia.
Qed.

(** The [while] of [vfs_copy] on the simulated drive, from byte [p] on,
    with writes that never fail: it runs to the end of the source and ends
    with 0, whatever the counts of the writes were. *)
Lemma copy_loop_sim :
  (forall fp data w,
     exists n, 0 <= n <= Z.of_nat (List.length data) /\
               f_write fp data w = Ok (FR_OK, n) w) ->
  forall fuel c p buf log dst,
    List.length buf = 128%nat -> (p <= List.length c)%nat ->
    (List.length c - p < fuel)%nat -> filesys dst = RefEntry 0 ->
    exists log',
      copy_loop f_write lfs_file_write fs_write fuel open_file dst buf
        (mkWorld [fat_drive] (file_at c p) log)
      = Ok (0, open_file, dst)
           (mkWorld [fat_drive] (file_at c (List.length c)) log').
Proof.
  intros Hwrite.
  induction fuel as [|fuel IH]; intros c p buf log dst Hbuf Hp Hfuel Hdst;
    [lia|].
  cbn [copy_loop]. unfold bind at 1. rewrite read_sim.
  set (d := firstn 128 (skipn p c)).
  assert (Hd : (List.length d <= 128)%nat) by (unfold d; apply firstn_le_length).
  assert (Hlen : List.length d = Nat.min 128 (List.length c - p)).
  { unfold d. now rewrite length_firstn, length_skipn. }
  cbn beta iota zeta.
  rewrite (s32_byte_count (Z.of_nat (List.length d))) by lia.
  destruct (Z.ltb_spec 0 (Z.of_nat (List.length d))) as [Hpos | Hzero].
  - assert (Hst : List.length (store d buf) = 128%nat)
      by (rewrite LineFacts.store_length; exact Hbuf).
    destruct (write_sim dst
                (firstn (Z.to_nat (Z.of_nat (List.length d))) (store d buf))
                (file_at c (p + List.length d))
                (log ++ [logged (f_read 0 128) (0, d)]) Hdst)
      as (n & Hn & Hrun); [|exact Hwrite|].
    { rewrite length_firstn. lia. }
    unfold bind at 1. rewrite Hrun. cbn beta iota zeta.
    rewrite (s32_byte_count n) by lia.
    assert (Hneg : (n <? 0) = false) by (apply Z.ltb_ge; lia).
    rewrite Hneg.
    destruct (IH c (p + List.length d)%nat (store d buf)
                (log ++ [logged (f_read 0 128) (0, d)]) dst Hst)
      as (log' & Hloop); [lia | lia | exact Hdst|].
    exists log'. exact Hloop.
  - exists (log ++ [logged (f_read 0 128) (0, d)]).
    unfold ret. assert (Hd0 : List.length d = 0%nat) by lia.
    rewrite Hd0, Nat.add_0_r.
    assert (Hpc : p = List.length c) by lia.
    subst p. reflexivity.
Qed.

(** X24.  A copy reports success however little was written.  On the simulated
    FatFs drive, with an [f_write] that answers FR_OK and a count of its
    own choice, no more than it was given and as little as nothing, as it
    does on a full medium, [vfs_copy] of a file of any bytes returns 0: the
    count a write reports is compared with nothing. *)
Theorem copy_ignores_short_writes c buf xd fuel :
  (forall fp data w,
     exists n, 0 <= n <= Z.of_nat (List.length data) /\
               f_write fp data w = Ok (FR_OK, n) w) ->
  List.length buf = 128%nat -> (List.length c < fuel)%nat ->
  result (vfs_copy f_write lfs_file_write fs_write fuel no_file xd buf
            (Some "A:/f"%string) (Some "A:/g"%string)
            (world [fat_drive] (file_at c 0)))
  = Some 0.
Proof.
  intros Hwrite Hbuf Hfuel.
  unfold vfs_copy, world. unfold bind at 1. rewrite open_sim.
  cbn beta iota. change (0 =? 0) with true. cbn beta iota.
  destruct (stat_sim c [logged (f_open 0 "A:/f"%string FA_READ) 0])
    as (info & log1 & Hstat & _).
  unfold bind at 1. change ([] ++ [logged (f_open 0 "A:/f"%string FA_READ) 0])
    with [logged (f_open 0 "A:/f"%string FA_READ) 0].
  rewrite Hstat. cbn beta iota.
  unfold deref_str. unfold bind at 1, ret at 1. unfold bind at 1, ret at 1.
  change (copy_target "A:/f" "A:/g") with (Some "A:/g"%string).
  cbn beta iota zeta.
  unfold bind at 1. rewrite dst_open_sim. cbn beta iota.
  change (0 =? 0) with true. cbn beta iota.
  destruct (touch_sim info (file_at c 0)
              (log1 ++ [logged (f_open (fp xd) "A:/g"%string
                                  (_ff_fopen_flag
                                     (Z.lor VFS_WRONLY
                                        (Z.lor VFS_CREAT VFS_TRUNC)))) 0]))
    as (rt & log2 & Htouch).
  unfold bind at 1. unfold bind at 1. rewrite Htouch. cbn beta iota.
  destruct (copy_loop_sim Hwrite fuel c 0
              (store (chars "A:/g" ++ [0]) buf) log2
              (set_filesys xd (RefEntry 0)))
    as (log3 & Hloop).
  { rewrite LineFacts.store_length. exact Hbuf. }
  { lia. }
  { lia. }
  { reflexivity. }
  unfold bind at 1. rewrite Hloop. cbn beta iota.
  destruct (dst_close_sim (set_filesys xd (RefEntry 0))
              (file_at c (List.length c)) log3 eq_refl) as (log4 & Hclose).
  unfold bind at 1. rewrite Hclose. cbn beta iota.
  unfold ret at 1. cbn beta iota.
  unfold bind at 1. rewrite close_sim. cbn beta iota.
  reflexivity.
Qed.

End Copy.

Section Runs.

Import Sim.

(** A copy into a directory of another drive. *)
Lemma copy_target_names_witness :
  copy_target "A:/dir/f.txt" "B:/" = Some "B:/f.txt"%string.
Proof.
  apply (proj1 (proj2 (copy_target_names "A:/dir/f.txt" "B:"
                         ltac:(simpl; repeat split; discriminate)))
           "A:/dir"%string "f.txt"%string).
  - simpl. repeat split; discriminate.
  - simpl. repeat split; discriminate.
  - reflexivity.
  - reflexivity.
  - simpl. lia.
Defined.

(** A medium that is full: every write is taken and nothing is written. *)
Lemma copy_ignores_short_writes_witness :
  result (vfs_copy (fun _ _ => ret (FR_OK, 0)) (fun _ _ _ => ret 0)
            (fun d _ => ret (0, d)) 4 no_file
            (mkVfsFile RefNull 1 0 (mkFS_DESC 0 0 0)) (repeat 0 128)
            (Some "A:/f"%string) (Some "A:/g"%string)
            (world [fat_drive] (file_at [1; 2; 3] 0)))
  = Some 0.
Proof.
  apply (copy_ignores_short_writes (fun _ _ => ret (FR_OK, 0))
           (fun _ _ _ => ret 0) (fun d _ => ret (0, d)) [1; 2; 3]
           (repeat 0 128) (mkVfsFile RefNull 1 0 (mkFS_DESC 0 0 0)) 4).
  - intros fp data w. exists 0. split; [lia | reflexivity].
  - reflexivity.
  - simpl. lia.
Defined.

End Runs.

End CopyFacts.
